(** * madbirds: the physics core, the entities and the slingshot

    A shallow embedding of [js/physics.js], [js/entities.js] and the
    trajectory predictor of [js/main.js].

    JavaScript numbers are modelled through an interface [JSNumber] that
    lists the operations the program uses.  The program is written once
    over that interface and is read at two instances:
    - [RNumber], the real numbers: exact arithmetic, without NaN and
      without infinities;
    - [FloatNumber], the binary64 floating-point numbers of the kernel,
      which are the numbers a JavaScript engine computes with. *)

From Stdlib Require Uint63.
From Stdlib Require Import PrimFloat.
From Stdlib Require Import ZArith Reals Lra Lia Bool List.
From stdpp Require Import base list gmap.

Set Default Proof Using "Type".

(** ** Numbers *)

Class JSNumber (N : Type) : Type := {
  ofZ : Z -> N;             (* an integer literal *)
  nadd : N -> N -> N;       (* a + b *)
  nsub : N -> N -> N;       (* a - b *)
  nmul : N -> N -> N;       (* a * b *)
  ndiv : N -> N -> N;       (* a / b *)
  nopp : N -> N;            (* -a *)
  nsqrt : N -> N;           (* Math.sqrt(a) *)
  nabs : N -> N;            (* Math.abs(a) *)
  nmax : N -> N -> N;       (* Math.max(a, b) *)
  nmin : N -> N -> N;       (* Math.min(a, b) *)
  nltb : N -> N -> bool;    (* a < b *)
  nleb : N -> N -> bool;    (* a <= b *)
  neqb : N -> N -> bool;    (* a === b *)
  isNaN : N -> bool         (* isNaN(a) *)
}.

Declare Scope js_scope.
Delimit Scope js_scope with js.

Notation "a + b" := (nadd a b) : js_scope.
Notation "a - b" := (nsub a b) : js_scope.
Notation "a * b" := (nmul a b) : js_scope.
Notation "a / b" := (ndiv a b) : js_scope.
Notation "- a" := (nopp a) : js_scope.
Notation "a <? b" := (nltb a b) (at level 70, no associativity) : js_scope.
Notation "a >? b" := (nltb b a) (at level 70, no associativity, only parsing) : js_scope.
Notation "a <=? b" := (nleb a b) (at level 70, no associativity) : js_scope.
Notation "a >=? b" := (nleb b a) (at level 70, no associativity, only parsing) : js_scope.
Notation "a =? b" := (neqb a b) (at level 70, no associativity) : js_scope.

(** A decimal literal [n/d] with [d] a power of ten, such as [0.98] read as
    [98/100].  Both integers are exact in binary64 and the division is
    correctly rounded, so the float instance yields the double the
    JavaScript literal denotes. *)
Definition dec {N} `{JSNumber N} (n d : Z) : N := (ofZ n / ofZ d)%js.

(** [v || fallback] on numbers: [0], [-0] and [NaN] are falsy. *)
Definition orElse {N} `{JSNumber N} (v fallback : N) : N :=
  if (v =? ofZ 0)%js || isNaN v then fallback else v.

(** *** The real numbers *)

Definition Rltb (a b : R) : bool := if Rlt_dec a b then true else false.
Definition Rleb (a b : R) : bool := if Rle_dec a b then true else false.
Definition Reqb (a b : R) : bool := if Req_dec_T a b then true else false.

#[export] Instance RNumber : JSNumber R := {|
  ofZ := IZR;
  nadd := Rplus;
  nsub := Rminus;
  nmul := Rmult;
  ndiv := Rdiv;
  nopp := Ropp;
  nsqrt := R_sqrt.sqrt;
  nabs := Rabs;
  nmax := Rmax;
  nmin := Rmin;
  nltb := Rltb;
  nleb := Rleb;
  neqb := Reqb;
  isNaN := fun _ => false
|}.

(** *** Binary64 *)

Definition float_ofZ (z : Z) : float :=
  match z with
  | Z0 => PrimFloat.zero
  | Zpos _ => PrimFloat.of_uint63 (Uint63.of_Z z)
  | Zneg p => PrimFloat.opp (PrimFloat.of_uint63 (Uint63.of_Z (Zpos p)))
  end.

(** [Math.max]: NaN if either argument is NaN, and [+0] is larger than [-0]. *)
Definition float_max (a b : float) : float :=
  if PrimFloat.is_nan a || PrimFloat.is_nan b then PrimFloat.nan
  else if PrimFloat.ltb a b then b
  else if PrimFloat.ltb b a then a
  else if PrimFloat.get_sign a then b else a.

(** [Math.min]: NaN if either argument is NaN, and [-0] is smaller than [+0]. *)
Definition float_min (a b : float) : float :=
  if PrimFloat.is_nan a || PrimFloat.is_nan b then PrimFloat.nan
  else if PrimFloat.ltb a b then a
  else if PrimFloat.ltb b a then b
  else if PrimFloat.get_sign a then a else b.

#[export] Instance FloatNumber : JSNumber float := {|
  ofZ := float_ofZ;
  nadd := PrimFloat.add;
  nsub := PrimFloat.sub;
  nmul := PrimFloat.mul;
  ndiv := PrimFloat.div;
  nopp := PrimFloat.opp;
  nsqrt := PrimFloat.sqrt;
  nabs := PrimFloat.abs;
  nmax := float_max;
  nmin := float_min;
  nltb := PrimFloat.ltb;
  nleb := PrimFloat.leb;
  neqb := PrimFloat.eqb;
  isNaN := PrimFloat.is_nan
|}.

(** ** physics.js: constants *)

Section Constants.
Context {N : Type} `{JSNumber N}.
Local Open Scope js_scope.

Definition pixelsPerMeter : N := ofZ 100.
Definition GRAVITY_ACCEL : N := dec 981 100.
Definition GRAVITY : N := GRAVITY_ACCEL * pixelsPerMeter.
Definition TIME_STEP : N := ofZ 1 / ofZ 60.
Definition FRICTION : N := dec 98 100.
Definition RESTITUTION : N := dec 4 10.
Definition MIN_VELOCITY_FOR_SLEEP : N := ofZ 2.
Definition SLEEP_DELAY_FRAMES : N := ofZ 60.
End Constants.

(** ** physics.js: class Vec2 *)

Module Vec2.
Section Ops.
Context {N : Type} `{JSNumber N}.
Local Open Scope js_scope.

Record t : Type := new { x : N; y : N }.

Definition add (this v : t) : t := new (x this + x v) (y this + y v).
Definition sub (this v : t) : t := new (x this - x v) (y this - y v).
Definition mul (this : t) (s : N) : t := new (x this * s) (y this * s).
Definition zero : t := new (ofZ 0) (ofZ 0).
(** [new Vec2()] takes the default arguments [x = 0, y = 0]. *)
Definition div (this : t) (s : N) : t :=
      if negb (s =? ofZ 0) then new (x this / s) (y this / s) else new (ofZ 0) (ofZ 0).
Definition dot (this v : t) : N := x this * x v + y this * y v.
Definition lenSq (this : t) : N := dot this this.
Definition len (this : t) : N := nsqrt (lenSq this).
Definition normalize (this : t) : t :=
      let l := len this in
      if l >? ofZ 0 then div this l else new (ofZ 0) (ofZ 0).
Definition perp (this : t) : t := new (- y this) (x this).
End Ops.
Arguments t N : clear implicits.
End Vec2.


(** ** entities.js: class Entity (with the fields class Bird adds) *)

(** [collisionShape]: [{ type: 'circle', radius }], [{ type: 'aabb', width,
    height }] or [{ type: 'none' }]. *)
Inductive Shape (N : Type) : Type :=
| Circle (radius : N)
| Aabb (width height : N)
| NoShape.
Arguments Circle {N} radius.
Arguments Aabb {N} width height.
Arguments NoShape {N}.

(** [Bird.state]: 'idle', 'aiming', 'flying', 'landed'. *)
Inductive BirdState : Type := Idle | Aiming | Flying | Landed.

Module Entity.
Section Ops.
Context {N : Type} `{JSNumber N}.
Local Open Scope js_scope.

(** The fields the constructor sets.  [restitution] is optional because
    [resolveCollisions] reads it with [?? RESTITUTION]; [state] is the field
    of class Bird and is absent on the other entities.  The random [id] is
    left out: an entity is identified by its place in the store. *)
Record t : Type := new {
  position : Vec2.t N;
  velocity : Vec2.t N;
  isStatic : bool;
  mass : N;
  restitution : option N;
  collisionShape : Shape N;
  isSleeping : bool;
  sleepTimer : N;
  canSleep : bool;
  markedForRemoval : bool;
  hp : N;
  maxHp : N;
  damageThreshold : N;
  canCollideStatic : bool;
  state : option BirdState
}.

(** Field assignments. *)
Definition set_position (e : t) (v : Vec2.t N) : t :=
  new v (velocity e) (isStatic e) (mass e) (restitution e) (collisionShape e)
      (isSleeping e) (sleepTimer e) (canSleep e) (markedForRemoval e) (hp e)
      (maxHp e) (damageThreshold e) (canCollideStatic e) (state e).
Definition set_velocity (e : t) (v : Vec2.t N) : t :=
  new (position e) v (isStatic e) (mass e) (restitution e) (collisionShape e)
      (isSleeping e) (sleepTimer e) (canSleep e) (markedForRemoval e) (hp e)
      (maxHp e) (damageThreshold e) (canCollideStatic e) (state e).
Definition set_isSleeping (e : t) (v : bool) : t :=
  new (position e) (velocity e) (isStatic e) (mass e) (restitution e)
      (collisionShape e) v (sleepTimer e) (canSleep e) (markedForRemoval e)
      (hp e) (maxHp e) (damageThreshold e) (canCollideStatic e) (state e).
Definition set_sleepTimer (e : t) (v : N) : t :=
  new (position e) (velocity e) (isStatic e) (mass e) (restitution e)
      (collisionShape e) (isSleeping e) v (canSleep e) (markedForRemoval e)
      (hp e) (maxHp e) (damageThreshold e) (canCollideStatic e) (state e).
Definition set_markedForRemoval (e : t) (v : bool) : t :=
  new (position e) (velocity e) (isStatic e) (mass e) (restitution e)
      (collisionShape e) (isSleeping e) (sleepTimer e) (canSleep e) v
      (hp e) (maxHp e) (damageThreshold e) (canCollideStatic e) (state e).
Definition set_hp (e : t) (v : N) : t :=
  new (position e) (velocity e) (isStatic e) (mass e) (restitution e)
      (collisionShape e) (isSleeping e) (sleepTimer e) (canSleep e)
      (markedForRemoval e) v (maxHp e) (damageThreshold e)
      (canCollideStatic e) (state e).
Definition set_state (e : t) (v : option BirdState) : t :=
  new (position e) (velocity e) (isStatic e) (mass e) (restitution e)
      (collisionShape e) (isSleeping e) (sleepTimer e) (canSleep e)
      (markedForRemoval e) (hp e) (maxHp e) (damageThreshold e)
      (canCollideStatic e) v.

(** [destroy()]: the subclasses only call [super.destroy()]. *)
Definition destroy (this : t) : t := set_markedForRemoval this true.

Definition wake (this : t) : t :=
  set_sleepTimer (set_isSleeping this false) (ofZ 0).

Definition takeDamage (this : t) (amount : N) : t :=
  if isStatic this then this
  else
    let this := set_hp this (hp this - amount) in
    if hp this <=? ofZ 0 then destroy this else this.

(** [onCollision(other, impulseMagnitude)].  Bird and Enemy override it only
    to call [super.onCollision]; Block inherits it. *)
Definition onCollision (this other : t) (impulseMagnitude : N) : t :=
  let this := wake this in
  if impulseMagnitude >? damageThreshold this then
    let damage := impulseMagnitude * dec 5 100 in
    takeDamage this damage
  else this.

End Ops.
Arguments t N : clear implicits.
End Entity.

(** ** physics.js: class PhysicsWorld *)

Module PhysicsWorld.
Section Ops.
Context {N : Type} `{JSNumber N}.
Local Open Scope js_scope.

(** The collision info [{ a, b, normal, penetration }].  [a] and [b] are
    references to entity objects: here, their indices in [entities]. *)
Record Contact : Type := mkContact {
  a : nat;
  b : nat;
  normal : Vec2.t N;
  penetration : N
}.

Record t : Type := new {
  entities : list (Entity.t N);
  collisions : list Contact
}.

(** [addEntity] for an object that is not in the list yet. *)
Definition addEntity (this : t) (entity : Entity.t N) : t :=
  new (entities this ++ [entity]) (collisions this).

Definition applyForces_entity (dt : N) (entity : Entity.t N) : Entity.t N :=
  if Entity.isStatic entity || Entity.isSleeping entity then entity
  else
    let entity :=
      if Entity.mass entity >? ofZ 0 then
        Entity.set_velocity entity
          (Vec2.add (Entity.velocity entity) (Vec2.new (ofZ 0) (GRAVITY * dt)))
      else entity in
    Entity.set_velocity entity (Vec2.mul (Entity.velocity entity) FRICTION).

Definition applyForces (this : t) (dt : N) : t :=
  new (map (applyForces_entity dt) (entities this)) (collisions this).

(** The NaN check of [integrate] only writes to the console. *)
Definition integrate_entity (dt : N) (entity : Entity.t N) : Entity.t N :=
  if Entity.isStatic entity || Entity.isSleeping entity then entity
  else
    Entity.set_position entity
      (Vec2.add (Entity.position entity) (Vec2.mul (Entity.velocity entity) dt)).

Definition integrate (this : t) (dt : N) : t :=
  new (map (integrate_entity dt) (entities this)) (collisions this).

Definition checkCircleCircle (ia : nat) (ea : Entity.t N) (ib : nat) (eb : Entity.t N)
  : option Contact :=
  match Entity.collisionShape ea, Entity.collisionShape eb with
  | Circle ra, Circle rb =>
      let r := ra + rb in
      let distVec := Vec2.sub (Entity.position eb) (Entity.position ea) in
      let distSq := Vec2.lenSq distVec in
      if distSq <? r * r then
        let dist := nsqrt distSq in
        let normal :=
          if dist >? ofZ 0 then Vec2.div distVec dist else Vec2.new (ofZ 1) (ofZ 0) in
        let penetration := r - dist in
        Some (mkContact ia ib normal penetration)
      else None
  | _, _ => None
  end.

Definition checkAABBAABB (ia : nat) (ea : Entity.t N) (ib : nat) (eb : Entity.t N)
  : option Contact :=
  match Entity.collisionShape ea, Entity.collisionShape eb with
  | Aabb widthA heightA, Aabb widthB heightB =>
      let posA := Entity.position ea in
      let posB := Entity.position eb in
      let halfA_w := widthA / ofZ 2 in
      let halfA_h := heightA / ofZ 2 in
      let halfB_w := widthB / ofZ 2 in
      let halfB_h := heightB / ofZ 2 in
      let vec := Vec2.sub posB posA in
      let overlapX := (halfA_w + halfB_w) - nabs (Vec2.x vec) in
      let overlapY := (halfA_h + halfB_h) - nabs (Vec2.y vec) in
      if (overlapX >? ofZ 0) && (overlapY >? ofZ 0) then
        if overlapX <? overlapY then
          Some (mkContact ia ib
                  (Vec2.new (if Vec2.x vec <? ofZ 0 then ofZ (-1) else ofZ 1) (ofZ 0))
                  overlapX)
        else
          Some (mkContact ia ib
                  (Vec2.new (ofZ 0) (if Vec2.y vec <? ofZ 0 then ofZ (-1) else ofZ 1))
                  overlapY)
      else None
  | _, _ => None
  end.

Definition checkCircleAABB (icircle : nat) (circle : Entity.t N)
                           (iaabb : nat) (aabb : Entity.t N) : option Contact :=
  match Entity.collisionShape circle, Entity.collisionShape aabb with
  | Circle radius, Aabb width height =>
      let circlePos := Entity.position circle in
      let aabbPos := Entity.position aabb in
      let halfW := width / ofZ 2 in
      let halfH := height / ofZ 2 in
      let vec := Vec2.sub circlePos aabbPos in
      let closestX := nmax (- halfW) (nmin (Vec2.x vec) halfW) in
      let closestY := nmax (- halfH) (nmin (Vec2.y vec) halfH) in
      let closestPoint := Vec2.new closestX closestY in
      let delta := Vec2.sub vec closestPoint in
      let distSq := Vec2.lenSq delta in
      if distSq <? radius * radius then
        let dist := nsqrt distSq in
        let normal :=
          if dist >? ofZ 0 then Vec2.div delta dist else Vec2.normalize vec in
        let penetration := radius - dist in
        Some (mkContact icircle iaabb normal penetration)
      else None
  | _, _ => None
  end.

Definition checkCollision (ia : nat) (ea : Entity.t N) (ib : nat) (eb : Entity.t N)
  : option Contact :=
  match Entity.collisionShape ea, Entity.collisionShape eb with
  | Circle _, Circle _ => checkCircleCircle ia ea ib eb
  | Aabb _ _, Aabb _ _ => checkAABBAABB ia ea ib eb
  | Circle _, Aabb _ _ => checkCircleAABB ia ea ib eb
  | Aabb _ _, Circle _ =>
      match checkCircleAABB ib eb ia ea with
      | Some result =>
          Some (mkContact (a result) (b result)
                  (Vec2.mul (normal result) (ofZ (-1))) (penetration result))
      | None => None
      end
  | _, _ => None
  end.

(** The inner loop of [detectCollisions]: [entityA] is [entities[i]] and
    [rest] holds [entities[j]], [entities[j+1]], ... *)
Fixpoint detectInner (i : nat) (entityA : Entity.t N) (j : nat) (rest : list (Entity.t N))
  : list Contact :=
  match rest with
  | [] => []
  | entityB :: rest' =>
      (if (Entity.isStatic entityA && Entity.isStatic entityB)
          || (Entity.isSleeping entityA && Entity.isSleeping entityB)
       then []
       else
         match checkCollision i entityA j entityB with
         | Some collisionInfo => [collisionInfo]
         | None => []
         end)
      ++ detectInner i entityA (S j) rest'
  end.

(** The outer loop: [rest] holds [entities[i]], [entities[i+1]], ... *)
Fixpoint detectOuter (i : nat) (rest : list (Entity.t N)) : list Contact :=
  match rest with
  | [] => []
  | entityA :: rest' =>
      (if Entity.isStatic entityA && negb (Entity.canCollideStatic entityA) then []
       else detectInner i entityA (S i) rest')
      ++ detectOuter (S i) rest'
  end.

Definition detectCollisions (this : t) : list Contact :=
  detectOuter 0 (entities this).


(** One iteration of the loop of [resolveCollisions], on the two entity
    objects of the contact. *)
Definition resolvePair (ea eb : Entity.t N) (normal : Vec2.t N) (penetration : N)
  : Entity.t N * Entity.t N :=
  let ea := if Entity.isSleeping ea then Entity.wake ea else ea in
  let eb := if Entity.isSleeping eb then Entity.wake eb else eb in
  let invMassA := if Entity.mass ea >? ofZ 0 then ofZ 1 / Entity.mass ea else ofZ 0 in
  let invMassB := if Entity.mass eb >? ofZ 0 then ofZ 1 / Entity.mass eb else ofZ 0 in
  let totalInvMass := invMassA + invMassB in
  if totalInvMass =? ofZ 0 then (ea, eb)
  else
    let penetrationSlop := dec 1 10 in
    let correctionPercent := dec 8 10 in
    let correctionMagnitude :=
      (nmax (penetration - penetrationSlop) (ofZ 0)
       / orElse totalInvMass (dec 1 1000000000)) * correctionPercent in
    let correction := Vec2.mul normal correctionMagnitude in
    let oldPosA := Entity.position ea in
    let oldPosB := Entity.position eb in
    let ea :=
      if negb (Entity.isStatic ea) then
        Entity.set_position ea (Vec2.sub (Entity.position ea) (Vec2.mul correction invMassA))
      else ea in
    let eb :=
      if negb (Entity.isStatic eb) then
        Entity.set_position eb (Vec2.add (Entity.position eb) (Vec2.mul correction invMassB))
      else eb in
    let ea :=
      if isNaN (Vec2.x (Entity.position ea)) || isNaN (Vec2.y (Entity.position ea))
      then Entity.set_position ea oldPosA else ea in
    let eb :=
      if isNaN (Vec2.x (Entity.position eb)) || isNaN (Vec2.y (Entity.position eb))
      then Entity.set_position eb oldPosB else eb in
    let rv := Vec2.sub (Entity.velocity eb) (Entity.velocity ea) in
    let velAlongNormal := Vec2.dot rv normal in
    if velAlongNormal >? ofZ 0 then (ea, eb)
    else
      let e :=
        nmin (default RESTITUTION (Entity.restitution ea))
             (default RESTITUTION (Entity.restitution eb)) in
      let j := (- (ofZ 1 + e)) * velAlongNormal in
      let j := j / orElse totalInvMass (dec 1 1000000000) in
      let impulseVec := Vec2.mul normal j in
      let oldVelA := Entity.velocity ea in
      let oldVelB := Entity.velocity eb in
      let ea :=
        if negb (Entity.isStatic ea) then
          Entity.set_velocity ea (Vec2.sub (Entity.velocity ea) (Vec2.mul impulseVec invMassA))
        else ea in
      let eb :=
        if negb (Entity.isStatic eb) then
          Entity.set_velocity eb (Vec2.add (Entity.velocity eb) (Vec2.mul impulseVec invMassB))
        else eb in
      let ea :=
        if isNaN (Vec2.x (Entity.velocity ea)) || isNaN (Vec2.y (Entity.velocity ea))
        then Entity.set_velocity ea oldVelA else ea in
      let eb :=
        if isNaN (Vec2.x (Entity.velocity eb)) || isNaN (Vec2.y (Entity.velocity eb))
        then Entity.set_velocity eb oldVelB else eb in
      let impulseMagnitude := Vec2.len impulseVec in
      let ea := Entity.onCollision ea eb impulseMagnitude in
      let eb := Entity.onCollision eb ea impulseMagnitude in
      (ea, eb).

(** The same iteration on the store: the two objects are read through the
    references of the contact and written back.  [detectCollisions] only
    produces contacts between two different objects. *)
Definition resolveCollision (entities : list (Entity.t N)) (collision : Contact)
  : list (Entity.t N) :=
  match entities !! a collision, entities !! b collision with
  | Some ea, Some eb =>
      let '(ea, eb) := resolvePair ea eb (normal collision) (penetration collision) in
      <[b collision := eb]> (<[a collision := ea]> entities)
  | _, _ => entities
  end.

Definition resolveCollisions (this : t) (dt : N) : t :=
  new (fold_left resolveCollision (collisions this) (entities this)) (collisions this).

Definition updateSleepState_entity (dt : N) (entity : Entity.t N) : Entity.t N :=
  if Entity.isStatic entity || negb (Entity.canSleep entity) then entity
  else
    let speedSq := Vec2.lenSq (Entity.velocity entity) in
    if speedSq <? MIN_VELOCITY_FOR_SLEEP * MIN_VELOCITY_FOR_SLEEP then
      let entity := Entity.set_sleepTimer entity (Entity.sleepTimer entity + dt) in
      if Entity.sleepTimer entity >=? SLEEP_DELAY_FRAMES * TIME_STEP then
        Entity.set_velocity (Entity.set_isSleeping entity true) Vec2.zero
      else entity
    else Entity.wake entity.

Definition updateSleepState (this : t) (dt : N) : t :=
  new (map (updateSleepState_entity dt) (entities this)) (collisions this).

(** One round of the sub-step loop of [update]. *)
Definition subStep (dt : N) (this : t) : t :=
  let this := new (entities this) (detectCollisions this) in
  resolveCollisions this dt.

Definition update (this : t) (dt : N) : t :=
  let this := applyForces this dt in
  let this := integrate this dt in
  let subSteps := 8%nat in
  let this := Nat.iter subSteps (subStep dt) this in
  updateSleepState this dt.

End Ops.
Arguments t N : clear implicits.
Arguments Contact N : clear implicits.
End PhysicsWorld.

(** ** entities.js: class Bird, class Block *)

Module Bird.
Section Ops.
Context {N : Type} `{JSNumber N}.
Local Open Scope js_scope.

Definition LAUNCH_POWER : N := ofZ 21.
Definition BIRD_RADIUS : N := ofZ 20.
Definition BIRD_MASS : N := ofZ 5.

(** [new Bird(x, y)]: the Entity constructor with the options of Bird. *)
Definition create (x y : N) : Entity.t N :=
  Entity.new (Vec2.new x y) Vec2.zero false BIRD_MASS (Some (dec 4 10))
    (Circle BIRD_RADIUS) false (ofZ 0) true false (ofZ 50) (ofZ 50) (ofZ 100)
    false (Some Idle).

Definition launch (this : Entity.t N) (forceVector : Vec2.t N) : Entity.t N :=
  match Entity.state this with
  | Some Aiming =>
      let FIRST_STEP_BOOST := ofZ 1 / FRICTION in
      let this :=
        Entity.set_velocity this (Vec2.mul forceVector (LAUNCH_POWER * FIRST_STEP_BOOST)) in
      let this := Entity.set_state this (Some Flying) in
      Entity.wake this
  | _ => this
  end.

End Ops.
End Bird.

Inductive BlockType : Type := Wood | Stone | Glass.

Module Block.
Section Ops.
Context {N : Type} `{JSNumber N}.
Local Open Scope js_scope.

Definition BLOCK_HP (type : BlockType) : N :=
  match type with Wood => ofZ 100 | Stone => ofZ 300 | Glass => ofZ 50 end.
Definition BLOCK_MASS (type : BlockType) : N :=
  match type with Wood => ofZ 8 | Stone => ofZ 20 | Glass => ofZ 5 end.
Definition BLOCK_RESTITUTION (type : BlockType) : N :=
  match type with Wood => dec 3 10 | Stone => dec 2 10 | Glass => dec 5 10 end.
Definition BLOCK_DAMAGE_THRESHOLD (type : BlockType) : N :=
  match type with Wood => ofZ 200 | Stone => ofZ 600 | Glass => ofZ 100 end.

(** [new Block(x, y, width, height, type, isStatic)]: the position becomes
    the centre of the box. *)
Definition create (x y width height : N) (type : BlockType) (isStatic : bool)
  : Entity.t N :=
  Entity.new (Vec2.new (x + width / ofZ 2) (y + height / ofZ 2)) Vec2.zero isStatic
    (if isStatic then ofZ 0 else BLOCK_MASS type) (Some (BLOCK_RESTITUTION type))
    (Aabb width height) false (ofZ 0) (negb isStatic) false (BLOCK_HP type)
    (BLOCK_HP type) (BLOCK_DAMAGE_THRESHOLD type) false None.

End Ops.
End Block.

(** ** entities.js: class Slingshot *)

Module Slingshot.
Section Ops.
Context {N : Type} `{JSNumber N}.
Local Open Scope js_scope.

(** [aimingBird] is a reference to a Bird object: an index in the store of
    entity objects the operations below take and return. *)
Record t : Type := mk {
  position : Vec2.t N;
  anchorOffsetBack : Vec2.t N;
  anchorOffsetFront : Vec2.t N;
  elasticLength : N;
  elasticity : N;
  aimingBird : option nat;
  dragStartPos : option (Vec2.t N);
  dragCurrentPos : option (Vec2.t N)
}.

Definition create (x y : N) : t :=
  mk (Vec2.new x y) (Vec2.new (ofZ (-10)) (ofZ 5)) (Vec2.new (ofZ 10) (ofZ 5))
     (ofZ 80) (dec 1 10) None None None.

Definition anchorBackPos (this : t) : Vec2.t N :=
  Vec2.add (position this) (anchorOffsetBack this).
Definition anchorFrontPos (this : t) : Vec2.t N :=
  Vec2.add (position this) (anchorOffsetFront this).

Definition getLaunchOrigin (this : t) : Vec2.t N :=
  Vec2.add (anchorFrontPos this) (Vec2.new (ofZ 0) (- Bird.BIRD_RADIUS)).

(** The bird the slingshot holds, read through the reference. *)
Definition held (this : t) (store : list (Entity.t N)) : option (Entity.t N) :=
  match aimingBird this with
  | Some r => store !! r
  | None => None
  end.

Definition attachBird (this : t) (store : list (Entity.t N)) (bird : nat)
  : t * list (Entity.t N) :=
  match aimingBird this, store !! bird with
  | None, Some e =>
      let this :=
        mk (position this) (anchorOffsetBack this) (anchorOffsetFront this)
           (elasticLength this) (elasticity this) (Some bird)
           (dragStartPos this) (dragCurrentPos this) in
      let e := Entity.set_state e (Some Aiming) in
      let e :=
        Entity.set_position e
          (Vec2.add (anchorFrontPos this) (Vec2.new (ofZ 0) (- Bird.BIRD_RADIUS))) in
      let e := Entity.set_velocity e Vec2.zero in
      let e := Entity.wake e in
      (this, <[bird := e]> store)
  | _, _ => (this, store)
  end.

(** [x ** 2] is written [x * x]. *)
Definition startAim (this : t) (store : list (Entity.t N)) (pointerPos : Vec2.t N)
  : bool * t :=
  match held this store with
  | Some e =>
      match Entity.collisionShape e with
      | Circle radius =>
          let birdPos := Entity.position e in
          let distSq := Vec2.lenSq (Vec2.sub pointerPos birdPos) in
          if distSq <? (radius * dec 15 10) * (radius * dec 15 10) then
            (true,
             mk (position this) (anchorOffsetBack this) (anchorOffsetFront this)
                (elasticLength this) (elasticity this) (aimingBird this)
                (Some pointerPos) (Some pointerPos))
          else (false, this)
      | _ => (false, this)
      end
  | None => (false, this)
  end.

Definition updateAim (this : t) (store : list (Entity.t N)) (pointerPos : Vec2.t N)
  : t * list (Entity.t N) :=
  match aimingBird this, held this store, dragStartPos this with
  | Some r, Some e, Some dragStart =>
      let this :=
        mk (position this) (anchorOffsetBack this) (anchorOffsetFront this)
           (elasticLength this) (elasticity this) (aimingBird this)
           (dragStartPos this) (Some pointerPos) in
      let dragVector := Vec2.sub pointerPos dragStart in
      let targetPos :=
        Vec2.add (Vec2.add (anchorFrontPos this) (Vec2.new (ofZ 0) (- Bird.BIRD_RADIUS)))
                 dragVector in
      let fromAnchor := Vec2.sub targetPos (anchorFrontPos this) in
      let dist := Vec2.len fromAnchor in
      let targetPos :=
        if dist >? elasticLength this then
          Vec2.add (anchorFrontPos this)
                   (Vec2.mul (Vec2.normalize fromAnchor) (elasticLength this))
        else targetPos in
      (this, <[r := Entity.set_position e targetPos]> store)
  | _, _, _ => (this, store)
  end.

Definition getLaunchVelocity (this : t) (store : list (Entity.t N)) : Vec2.t N :=
  match held this store, dragStartPos this with
  | Some e, Some _ =>
      let launchVector := Vec2.sub (anchorFrontPos this) (Entity.position e) in
      launchVector
  | _, _ => Vec2.zero
  end.

(** The slingshot with [aimingBird], [dragStartPos] and [dragCurrentPos]
    set to [null]. *)
Definition released (this : t) : t :=
  mk (position this) (anchorOffsetBack this) (anchorOffsetFront this)
     (elasticLength this) (elasticity this) None None None.

Definition endAim (this : t) (store : list (Entity.t N))
  : bool * t * list (Entity.t N) :=
  match aimingBird this, held this store, dragStartPos this with
  | Some r, Some e, Some _ =>
      let launchVelocity := getLaunchVelocity this store in
      if Vec2.lenSq launchVelocity >? ofZ 0 then
        (true, released this, <[r := Bird.launch e launchVelocity]> store)
      else (false, released this, store)
  | _, _, _ => (false, released this, store)
  end.

End Ops.
Arguments t N : clear implicits.
End Slingshot.

(** ** main.js: the trajectory predictor *)

Module Main.
Section Ops.
Context {N : Type} `{JSNumber N}.
Local Open Scope js_scope.

(** The variables of the loop of [simulateTrajectory].  [i] is the loop
    counter and counts the iterations run so far; [stopped] records that a
    [break] was taken.  [pts] is kept in the order the points are pushed. *)
Record Loop : Type := mkLoop {
  i : nat;
  currentPos : Vec2.t N;
  currentVel : Vec2.t N;
  pts : list (Vec2.t N);
  stopped : bool
}.

(** One iteration of the [for] loop; [canvas] is the 1280 x 720 canvas
    element, of which the width and the height are read. *)
Definition loopBody (canvas_width canvas_height : N) (steps : nat) (s : Loop) : Loop :=
  if stopped s || negb (i s <? steps)%nat then s
  else
    let dt := TIME_STEP in
    let groundY := canvas_height - ofZ 50 in
    let gravityForce := Vec2.new (ofZ 0) (GRAVITY * dt) in
    let currentVel := Vec2.add (currentVel s) gravityForce in
    let currentVel := Vec2.mul currentVel FRICTION in
    let currentPos := Vec2.add (currentPos s) (Vec2.mul currentVel dt) in
    let pts :=
      if (i s mod 3 =? 0)%nat then pts s ++ [Vec2.new (Vec2.x currentPos) (Vec2.y currentPos)]
      else pts s in
    if Vec2.y currentPos >? groundY then
      let pts :=
        match last pts with
        | None => pts ++ [Vec2.new (Vec2.x currentPos) groundY]
        | Some p =>
            if Vec2.y p <? groundY then pts ++ [Vec2.new (Vec2.x currentPos) groundY]
            else pts
        end in
      mkLoop (S (i s)) currentPos currentVel pts true
    else if (Vec2.x currentPos <? ofZ (-100))
            || (Vec2.x currentPos >? canvas_width + ofZ 100) then
      mkLoop (S (i s)) currentPos currentVel pts true
    else mkLoop (S (i s)) currentPos currentVel pts false.

Definition loopInit (startPos startVel : Vec2.t N) : Loop :=
  mkLoop 0 startPos startVel [Vec2.new (Vec2.x startPos) (Vec2.y startPos)] false.

Definition simulateTrajectory (canvas_width canvas_height : N)
  (startPos startVel : Vec2.t N) (steps : nat) : list (Vec2.t N) :=
  pts (Nat.iter steps (loopBody canvas_width canvas_height steps) (loopInit startPos startVel)).

End Ops.
Arguments Loop N : clear implicits.
End Main.

(** ** The blocks of one iteration of [resolveCollisions]

    The loop body is a sequence of blocks, each acting on one of the two
    objects.  They are named here, and [resolvePair_blocks] below states
    that the loop body is their composition. *)

Module Blocks.
Section Ops.
Context {N : Type} `{JSNumber N}.
Local Open Scope js_scope.

(** "Wake up sleeping objects involved in collision". *)
Definition wakeIfSleeping (e : Entity.t N) : Entity.t N :=
  if Entity.isSleeping e then Entity.wake e else e.

Definition invMass (e : Entity.t N) : N :=
  if Entity.mass e >? ofZ 0 then ofZ 1 / Entity.mass e else ofZ 0.

Definition correctionOf (normal : Vec2.t N) (penetration totalInvMass : N) : Vec2.t N :=
  Vec2.mul normal
    ((nmax (penetration - dec 1 10) (ofZ 0) / orElse totalInvMass (dec 1 1000000000))
     * dec 8 10).

(** "NaN check after positional correction": the position [e] was given is
    kept unless a coordinate is NaN, then [oldPos] is put back. *)
Definition revertPosition (e : Entity.t N) (oldPos : Vec2.t N) : Entity.t N :=
  if isNaN (Vec2.x (Entity.position e)) || isNaN (Vec2.y (Entity.position e))
  then Entity.set_position e oldPos else e.

(** "Separate overlapping objects (Positional Correction)" for one object
    that is to be moved to [target]. *)
Definition correctPosition (e : Entity.t N) (target : Vec2.t N) : Entity.t N :=
  revertPosition
    (if negb (Entity.isStatic e) then Entity.set_position e target else e)
    (Entity.position e).

Definition impulseOf (ea eb : Entity.t N) (normal : Vec2.t N) (totalInvMass : N)
  : Vec2.t N :=
  let velAlongNormal := Vec2.dot (Vec2.sub (Entity.velocity eb) (Entity.velocity ea)) normal in
  let e :=
    nmin (default RESTITUTION (Entity.restitution ea))
         (default RESTITUTION (Entity.restitution eb)) in
  Vec2.mul normal
    (((- (ofZ 1 + e)) * velAlongNormal) / orElse totalInvMass (dec 1 1000000000)).

(** "NaN check after impulse". *)
Definition revertVelocity (e : Entity.t N) (oldVel : Vec2.t N) : Entity.t N :=
  if isNaN (Vec2.x (Entity.velocity e)) || isNaN (Vec2.y (Entity.velocity e))
  then Entity.set_velocity e oldVel else e.

(** "Apply impulse" for one object that is to get the velocity [target]. *)
Definition applyImpulse (e : Entity.t N) (target : Vec2.t N) : Entity.t N :=
  revertVelocity
    (if negb (Entity.isStatic e) then Entity.set_velocity e target else e)
    (Entity.velocity e).

(** The loop body as the composition of its blocks. *)
Definition composed (ea eb : Entity.t N) (normal : Vec2.t N) (penetration : N)
  : Entity.t N * Entity.t N :=
  let ea0 := wakeIfSleeping ea in
  let eb0 := wakeIfSleeping eb in
  let totalInvMass := invMass ea0 + invMass eb0 in
  if totalInvMass =? ofZ 0 then (ea0, eb0)
  else
    let correction := correctionOf normal penetration totalInvMass in
    let ea1 :=
      correctPosition ea0
        (Vec2.sub (Entity.position ea0) (Vec2.mul correction (invMass ea0))) in
    let eb1 :=
      correctPosition eb0
        (Vec2.add (Entity.position eb0) (Vec2.mul correction (invMass eb0))) in
    if Vec2.dot (Vec2.sub (Entity.velocity eb1) (Entity.velocity ea1)) normal >? ofZ 0
    then (ea1, eb1)
    else
      let impulseVec := impulseOf ea1 eb1 normal totalInvMass in
      let ea2 :=
        applyImpulse ea1
          (Vec2.sub (Entity.velocity ea1) (Vec2.mul impulseVec (invMass ea0))) in
      let eb2 :=
        applyImpulse eb1
          (Vec2.add (Entity.velocity eb1) (Vec2.mul impulseVec (invMass eb0))) in
      let ea3 := Entity.onCollision ea2 eb2 (Vec2.len impulseVec) in
      let eb3 := Entity.onCollision eb2 ea3 (Vec2.len impulseVec) in
      (ea3, eb3).

End Ops.
End Blocks.

(** ** physics.js: [addEntity] and [removeEntity] on the array of references

    [this.entities] holds references to entity objects.  Here a reference
    is a number, and [includes] and [indexOf] compare references. *)

Module EntityArray.

Definition includes (entities : list nat) (entity : nat) : bool :=
  existsb (Nat.eqb entity) entities.

(** [indexOf]: the first index that holds [entity]; [None] stands for [-1]. *)
Fixpoint indexOf (entities : list nat) (entity : nat) : option nat :=
  match entities with
  | [] => None
  | r :: rest =>
      if Nat.eqb r entity then Some 0%nat else option_map S (indexOf rest entity)
  end.

(** [addEntity(entity)]; [entity] is [None] for [null] or [undefined]. *)
Definition addEntity (entities : list nat) (entity : option nat) : list nat :=
  match entity with
  | Some r => if negb (includes entities r) then entities ++ [r] else entities
  | None => entities
  end.

(** [removeEntity(entity)]: [splice(index, 1)] when [index > -1]. *)
Definition removeEntity (entities : list nat) (entity : nat) : list nat :=
  match indexOf entities entity with
  | Some index => take index entities ++ drop (S index) entities
  | None => entities
  end.

End EntityArray.

(** ** entities.js: [Bird.update], class Enemy *)

Module BirdObject.
Section Ops.
Context {N : Type} `{JSNumber N}.
Local Open Scope js_scope.

(** A Bird object: the fields of Entity ([body]) and the two fields the
    Bird constructor adds besides [state]. *)
Record t : Type := mk {
  body : Entity.t N;
  lifespan : N;
  landedTimer : N
}.

(** [new Bird(x, y)]. *)
Definition create (x y : N) : t := mk (Bird.create x y) (ofZ 5) (ofZ 0).

(** The assignments [this.state = 'landed'; this.canSleep = false]. *)
Definition land (e : Entity.t N) : Entity.t N :=
  Entity.new (Entity.position e) (Entity.velocity e) (Entity.isStatic e)
    (Entity.mass e) (Entity.restitution e) (Entity.collisionShape e)
    (Entity.isSleeping e) (Entity.sleepTimer e) false (Entity.markedForRemoval e)
    (Entity.hp e) (Entity.maxHp e) (Entity.damageThreshold e)
    (Entity.canCollideStatic e) (Some Landed).

(** [update(dt)]; [super.update(dt)] does nothing. *)
Definition update (this : t) (dt : N) : t :=
  let this :=
    match Entity.state (body this) with
    | Some Landed =>
        let this := mk (body this) (lifespan this) (landedTimer this + dt) in
        if landedTimer this >? lifespan this then
          mk (Entity.destroy (body this)) (lifespan this) (landedTimer this)
        else this
    | _ => this
    end in
  let this :=
    if (Vec2.y (Entity.position (body this)) >? ofZ 800)
       || (Vec2.x (Entity.position (body this)) <? ofZ (-100))
       || (Vec2.x (Entity.position (body this)) >? ofZ 1400)
    then mk (Entity.destroy (body this)) (lifespan this) (landedTimer this)
    else this in
  if match Entity.state (body this) with Some Flying => true | _ => false end
     && (Vec2.lenSq (Entity.velocity (body this)) <? ofZ 100)
     && negb (Entity.isSleeping (body this))
  then
    if Entity.isSleeping (body this) then
      mk (land (body this)) (lifespan this) (landedTimer this)
    else this
  else this.

End Ops.
Arguments t N : clear implicits.
End BirdObject.

Module Enemy.
Section Ops.
Context {N : Type} `{JSNumber N}.
Local Open Scope js_scope.

Definition ENEMY_RADIUS : N := ofZ 25.
Definition ENEMY_MASS : N := ofZ 6.

(** [new Enemy(x, y)]; [scoreValue] is left out. *)
Definition create (x y : N) : Entity.t N :=
  Entity.new (Vec2.new x y) Vec2.zero false ENEMY_MASS (Some (dec 4 10))
    (Circle ENEMY_RADIUS) false (ofZ 0) true false (ofZ 150) (ofZ 150) (ofZ 300)
    false None.

Definition update (this : Entity.t N) (dt : N) : Entity.t N :=
  if (Vec2.y (Entity.position this) >? ofZ 900)
     || (Vec2.x (Entity.position this) <? ofZ (-200))
     || (Vec2.x (Entity.position this) >? ofZ 1500)
  then Entity.destroy this
  else this.

End Ops.
End Enemy.

(** ** ui.js: [calculateStars] *)

Module Ui.
Section Ops.
Context {N : Type} `{JSNumber N}.
Local Open Scope js_scope.

(** [score >= thresholds[k]]; a missing key reads [undefined], and the
    comparison with [undefined] is [false]. *)
Definition reaches (score : N) (thresholds : gmap nat N) (k : nat) : bool :=
  match thresholds !! k with
  | Some t => score >=? t
  | None => false
  end.

(** [calculateStars(score, thresholds)]; [thresholds] is [None] when the
    level has none. *)
Definition calculateStars (score : N) (thresholds : option (gmap nat N)) : nat :=
  match thresholds with
  | None => 0
  | Some thresholds =>
      if reaches score thresholds 3 then 3
      else if reaches score thresholds 2 then 2
      else if reaches score thresholds 1 then 1
      else 0
  end.

End Ops.
End Ui.

(** ** main.js: the guide drawn by [render] while aiming *)

Module Render.
Section Ops.
Context {N : Type} `{JSNumber N}.
Local Open Scope js_scope.

(** The start position and the start velocity [render] passes to
    [simulateTrajectory] when the game is aiming with a bird on the
    slingshot: [None] when the raw launch vector is the zero vector. *)
Definition guideStart (slingshot : Slingshot.t N) (store : list (Entity.t N))
  : option (Vec2.t N * Vec2.t N) :=
  let launchVelRaw := Slingshot.getLaunchVelocity slingshot store in
  if Vec2.lenSq launchVelRaw >? ofZ 0 then
    let trajectoryStartPos := Slingshot.getLaunchOrigin slingshot in
    let launchVelScaled := Vec2.mul launchVelRaw Bird.LAUNCH_POWER in
    Some (trajectoryStartPos, launchVelScaled)
  else None.

(** The points [render] hands to [drawGuide]. *)
Definition trajectoryPoints (canvas_width canvas_height : N)
  (slingshot : Slingshot.t N) (store : list (Entity.t N)) : option (list (Vec2.t N)) :=
  match guideStart slingshot store with
  | Some (trajectoryStartPos, launchVelScaled) =>
      Some (Main.simulateTrajectory canvas_width canvas_height
              trajectoryStartPos launchVelScaled 150)
  | None => None
  end.

End Ops.
End Render.


(** * The vocabulary of the statements *)

Section Vocabulary.
Context {N : Type} `{JSNumber N}.
Local Open Scope js_scope.

(** [keeps e e']: [e'] is as static as [e], and when [e] is static it has
    the position and the velocity of [e]. *)
Definition keeps (e e' : Entity.t N) : Prop :=
  Entity.isStatic e' = Entity.isStatic e /\
  (Entity.isStatic e = true ->
   Entity.position e' = Entity.position e /\ Entity.velocity e' = Entity.velocity e).

(** The contact [c] is between the objects [i] and [j], in either order. *)
Definition between (c : PhysicsWorld.Contact N) (i j : nat) : Prop :=
  (PhysicsWorld.a c = i /\ PhysicsWorld.b c = j) \/
  (PhysicsWorld.a c = j /\ PhysicsWorld.b c = i).



(** [samePV e e']: same position and same velocity. *)
Definition samePV (e e' : Entity.t N) : Prop :=
  Entity.position e' = Entity.position e /\ Entity.velocity e' = Entity.velocity e.

(** What one tick does to the position and the velocity of a body in free
    flight: [velocity += (0, GRAVITY * TIME_STEP)], [velocity *= FRICTION],
    [position += velocity * TIME_STEP]. *)
Definition flightStep (pv : Vec2.t N * Vec2.t N) : Vec2.t N * Vec2.t N :=
  let vel :=
    Vec2.mul (Vec2.add pv.2 (Vec2.new (ofZ 0) (GRAVITY * TIME_STEP))) FRICTION in
  (Vec2.add pv.1 (Vec2.mul vel TIME_STEP), vel).

(** The position after [n] ticks of free flight. *)
Definition flightPos (startPos startVel : Vec2.t N) (n : nat) : Vec2.t N :=
  (Nat.iter n flightStep (startPos, startVel)).1.

(** The tests on which the loop of [simulateTrajectory] leaves, for the
    point [p]: [p.y > canvas.height - 50], or [p.x < -100], or
    [p.x > canvas.width + 100]. *)
Definition leftField (canvas_width canvas_height : N) (p : Vec2.t N) : bool :=
  (Vec2.y p >? canvas_height - ofZ 50)
  || ((Vec2.x p <? ofZ (-100)) || (Vec2.x p >? canvas_width + ofZ 100)).

End Vocabulary.

(** The sign of a centre delta: [-1] when it is negative, [+1] otherwise,
    so also when it is [0]. *)
Definition deltaSign (delta : R) : R := if Rlt_dec delta 0 then (-1)%R else 1%R.

(** An awake body with mass whose sleep timer runs only while it is slow. *)
Definition steady (e : Entity.t R) : Prop :=
  Entity.isStatic e = false /\ Entity.isSleeping e = false /\ (0 < Entity.mass e)%R /\
  (Entity.canSleep e = true ->
   Entity.sleepTimer e = 0%R \/ (Vec2.lenSq (Entity.velocity e) < 2 * 2)%R).

(** ** Concrete bodies and worlds (binary64) *)

(** A bird at [(x, y)] with velocity [(vx, vy)]. *)
Definition birdAt (x y vx vy : float) : Entity.t float :=
  Entity.set_velocity (Bird.create x y) (Vec2.new vx vy).

(** The static ground block of the levels: [{ type: 'stone', x: 0,
    y: GROUND_LEVEL, width: 1280, height: 50, isStatic: true }]. *)
Definition groundBlock : Entity.t float :=
  Block.create 0%float 670%float 1280%float 50%float Stone true.


(** Two overlapping birds closing in on each other at about [1e308]. *)
Definition closingBirds : PhysicsWorld.t float :=
  PhysicsWorld.new
    [birdAt 0%float 0%float 0x1.1ccf385ebc8ap+1023%float 0x1.1ccf385ebc8ap+1023%float;
     birdAt 3%float 4%float (-0x1.1ccf385ebc8ap+1023)%float (-0x1.1ccf385ebc8ap+1023)%float]
    [].

(** A bird after the hit of the example of C6: an impulse of magnitude 1200
    on a fresh bird. *)
Definition hitBird : Entity.t float :=
  Entity.onCollision (Bird.create 0%float 0%float) groundBlock 1200%float.

(** The ground block first, then a bird that overlaps it. *)
Definition groundThenBird : PhysicsWorld.t float :=
  PhysicsWorld.new [groundBlock; birdAt 100%float 660%float 0%float 50%float] [].

(** A bird first, then the ground block it overlaps. *)
Definition birdThenGround : PhysicsWorld.t float :=
  PhysicsWorld.new [birdAt 100%float 660%float 0%float 50%float; groundBlock] [].

(** ** Concrete bodies (exact arithmetic) *)

(** A ball of radius 10, mass [m] and restitution 1 at [(x, y)] with
    velocity [(vx, vy)]. *)
Definition ball (x y vx vy m : R) : Entity.t R :=
  Entity.new (Vec2.new x y) (Vec2.new vx vy) false m (Some 1%R) (Circle 10%R)
    false 0%R true false 100%R 100%R 500%R false None.

(** A box of the given size with centre [(x, y)]. *)
Definition box (x y width height : R) : Entity.t R :=
  Entity.new (Vec2.new x y) (Vec2.new 0%R 0%R) false 8%R (Some (3 / 10)%R)
    (Aabb width height) false 0%R true false 100%R 100%R 200%R false None.

(** The operations of the interface, read in [R]. *)
Ltac js_real :=
  cbn [ofZ nadd nsub nmul ndiv nopp nsqrt nabs nmax nmin nltb nleb neqb isNaN RNumber
       Vec2.x Vec2.y] in *.

(** ** More vocabulary *)

Section Vocabulary2.
Context {N : Type} `{JSNumber N}.
Local Open Scope js_scope.

(** The test that makes the outer loop of [detectCollisions] skip the row
    of [entityA]. *)
Definition rowSkipped (entityA : Entity.t N) : bool :=
  Entity.isStatic entityA && negb (Entity.canCollideStatic entityA).

(** The test that makes the inner loop skip the pair. *)
Definition pairSkipped (entityA entityB : Entity.t N) : bool :=
  (Entity.isStatic entityA && Entity.isStatic entityB)
  || (Entity.isSleeping entityA && Entity.isSleeping entityB).

(** [e'] has the fields of [e] that are set once, at construction. *)
Definition sameIdentity (e e' : Entity.t N) : Prop :=
  Entity.isStatic e' = Entity.isStatic e /\
  Entity.mass e' = Entity.mass e /\
  Entity.restitution e' = Entity.restitution e /\
  Entity.collisionShape e' = Entity.collisionShape e /\
  Entity.canSleep e' = Entity.canSleep e /\
  Entity.maxHp e' = Entity.maxHp e /\
  Entity.damageThreshold e' = Entity.damageThreshold e /\
  Entity.canCollideStatic e' = Entity.canCollideStatic e /\
  Entity.state e' = Entity.state e.

(** What a tick does to one body when no contact involves it. *)
Definition freeTick (dt : N) (e : Entity.t N) : Entity.t N :=
  PhysicsWorld.updateSleepState_entity dt
    (PhysicsWorld.integrate_entity dt (PhysicsWorld.applyForces_entity dt e)).

End Vocabulary2.


(** ** The three statements of [Bird.update] *)

Section BirdStages.
Context {N : Type} `{JSNumber N}.
Local Open Scope js_scope.

(** [if (this.state === 'landed') { ... }]. *)
Definition birdLifespan (this : BirdObject.t N) (dt : N) : BirdObject.t N :=
  match Entity.state (BirdObject.body this) with
  | Some Landed =>
      let this :=
        BirdObject.mk (BirdObject.body this) (BirdObject.lifespan this)
          (BirdObject.landedTimer this + dt) in
      if BirdObject.landedTimer this >? BirdObject.lifespan this then
        BirdObject.mk (Entity.destroy (BirdObject.body this)) (BirdObject.lifespan this)
          (BirdObject.landedTimer this)
      else this
  | _ => this
  end.

(** The bounds test of [Bird.update]. *)
Definition birdOutOfBounds (position : Vec2.t N) : bool :=
  (Vec2.y position >? ofZ 800) || (Vec2.x position <? ofZ (-100))
  || (Vec2.x position >? ofZ 1400).

(** [if (this.position.y > 800 || ...) this.destroy()]. *)
Definition birdBounds (this : BirdObject.t N) : BirdObject.t N :=
  if birdOutOfBounds (Entity.position (BirdObject.body this)) then
    BirdObject.mk (Entity.destroy (BirdObject.body this)) (BirdObject.lifespan this)
      (BirdObject.landedTimer this)
  else this.

(** [if (this.state === 'flying' && ... && !this.isSleeping) { if
    (this.isSleeping) { ... } }]. *)
Definition birdSettle (this : BirdObject.t N) : BirdObject.t N :=
  if match Entity.state (BirdObject.body this) with Some Flying => true | _ => false end
     && (Vec2.lenSq (Entity.velocity (BirdObject.body this)) <? ofZ 100)
     && negb (Entity.isSleeping (BirdObject.body this))
  then
    if Entity.isSleeping (BirdObject.body this) then
      BirdObject.mk (BirdObject.land (BirdObject.body this)) (BirdObject.lifespan this)
        (BirdObject.landedTimer this)
    else this
  else this.

(** The bounds test of [Enemy.update]. *)
Definition enemyOutOfBounds (position : Vec2.t N) : bool :=
  (Vec2.y position >? ofZ 900) || (Vec2.x position <? ofZ (-200))
  || (Vec2.x position >? ofZ 1500).

End BirdStages.


(** ** Vocabulary of the statements in exact arithmetic *)

(** A body that resolution moves: not static, with positive mass. *)
Definition dynamicBody (e : Entity.t R) : Prop :=
  Entity.isStatic e = false /\ (0 < Entity.mass e)%R.

(** A body that resolution does not move and that weighs nothing in it:
    static, with mass [0] (as [new Block(..., isStatic = true)] makes it). *)
Definition fixedBody (e : Entity.t R) : Prop :=
  Entity.isStatic e = true /\ Entity.mass e = 0%R.

(** [1 / mass] for a dynamic body, [0] for a fixed one. *)
Definition inverseMass (e : Entity.t R) : R :=
  if Rlt_dec 0 (Entity.mass e) then (1 / Entity.mass e)%R else 0%R.

(** The restitution [resolveCollisions] uses for a pair. *)
Definition pairRestitution (ea eb : Entity.t R) : R :=
  Rmin (default (4 / 10)%R (Entity.restitution ea))
       (default (4 / 10)%R (Entity.restitution eb)).

(** A body that is static, or asleep with zero velocity. *)
Definition atRest (e : Entity.t R) : Prop :=
  Entity.isStatic e = true \/
  (Entity.isSleeping e = true /\ Entity.velocity e = Vec2.zero).

(** [e'] is [e] except, possibly, for its sleep timer. *)
Definition sameButTimer (e e' : Entity.t R) : Prop :=
  e' = Entity.set_sleepTimer e (Entity.sleepTimer e').

(** [hp] has not grown, a set [markedForRemoval] is still set, and a
    static body has the [hp] and the mark it had. *)
Definition notHealed (e e' : Entity.t R) : Prop :=
  Entity.isStatic e' = Entity.isStatic e /\
  (Entity.hp e' <= Entity.hp e)%R /\
  (Entity.markedForRemoval e = true -> Entity.markedForRemoval e' = true) /\
  (Entity.isStatic e = true ->
   Entity.hp e' = Entity.hp e /\
   Entity.markedForRemoval e' = Entity.markedForRemoval e).


(** The body a contact of [checkCollision ia ea ib eb] names by the
    reference [i]. *)
Definition bodyAt (ia ib : nat) (ea eb : Entity.t R) (i : nat) : Entity.t R :=
  if Nat.eqb i ia then ea else eb.

(** The component along the normal of a contact of the vector from the
    position of its body [a] to the position of its body [b]. *)
Definition alongNormal (ia : nat) (ea : Entity.t R) (ib : nat) (eb : Entity.t R)
    (c : PhysicsWorld.Contact R) : R :=
  Vec2.dot (PhysicsWorld.normal c)
    (Vec2.sub (Entity.position (bodyAt ia ib ea eb (PhysicsWorld.b c)))
              (Entity.position (bodyAt ia ib ea eb (PhysicsWorld.a c)))).

(** A box has a width and a height that are not negative. *)
Definition sizedBox (e : Entity.t R) : Prop :=
  match Entity.collisionShape e with
  | Aabb width height => (0 <= width)%R /\ (0 <= height)%R
  | _ => True
  end.

(** The first body is a circle and the second one a box. *)
Definition circleThenBox (ea eb : Entity.t R) : bool :=
  match Entity.collisionShape ea, Entity.collisionShape eb with
  | Circle _, Aabb _ _ => true
  | _, _ => false
  end.

(** The position of [circle] is not in the box [box]. *)
Definition centreOutside (circle box : Entity.t R) : Prop :=
  match Entity.collisionShape box with
  | Aabb width height =>
      (width / 2 < Rabs (Vec2.x (Vec2.sub (Entity.position circle) (Entity.position box))))%R
      \/ (height / 2
          < Rabs (Vec2.y (Vec2.sub (Entity.position circle) (Entity.position box))))%R
  | _ => False
  end.


(** ** Further concrete bodies and worlds *)

(** A flying bird well above the ground block. *)
Definition birdOverGround : PhysicsWorld.t float :=
  PhysicsWorld.new [birdAt 160%float 555%float 300%float (-400)%float; groundBlock] [].

(** The contact [detectCollisions] finds between the two closing birds. *)
Definition closingContact : PhysicsWorld.Contact float :=
  PhysicsWorld.mkContact 0 1 (Vec2.new (3 / 5)%float (4 / 5)%float) 35%float.

(** The ground block of the levels, in exact arithmetic. *)
Definition solidGround : Entity.t R :=
  Block.create 0%R 670%R 1280%R 50%R Stone true.

(** A ball asleep at [(x, y)]. *)
Definition sleepingBall (x y : R) : Entity.t R :=
  Entity.set_isSleeping (ball x y 0 0 5) true.

(** Two overlapping balls, both asleep. *)
Definition restWorld : PhysicsWorld.t R :=
  PhysicsWorld.new [sleepingBall 0 0; sleepingBall 5 0] [].

(** A bird held by the slingshot and pulled back to [(100, 570)]. *)
Definition heldBird : Entity.t R :=
  Entity.set_position (Entity.set_state (Bird.create 160%R 555%R) (Some Aiming))
    (Vec2.new 100%R 570%R).

(** The slingshot of the levels, at [(150, GROUND_LEVEL - 100)], holding
    the bird of reference 0, the drag started at [(160, 555)]. *)
Definition aimedSlingshot : Slingshot.t R :=
  Slingshot.mk (Vec2.new 150%R 570%R) (Vec2.new (-10)%R 5%R) (Vec2.new 10%R 5%R)
    80%R (1 / 10)%R (Some 0%nat) (Some (Vec2.new 160%R 555%R))
    (Some (Vec2.new 100%R 570%R)).

(** The thresholds of the first level: [{ 1: 1000, 2: 7000, 3: 10000 }]. *)
Definition starThresholds : gmap nat R :=
  <[1%nat := 1000%R]> (<[2%nat := 7000%R]> (<[3%nat := 10000%R]> ∅)).


(** * Properties that hold for every arithmetic *)

Section Generic.
Context {N : Type} `{JSNumber N}.
Local Open Scope js_scope.

Lemma resolvePair_blocks (ea eb : Entity.t N) normal penetration :
  PhysicsWorld.resolvePair ea eb normal penetration
  = Blocks.composed ea eb normal penetration.
Proof. reflexivity. Qed.

(** *** A static body keeps its position and its velocity *)

Lemma keeps_refl (e : Entity.t N) : keeps e e.
Proof. split; auto. Qed.

Lemma keeps_trans (e1 e2 e3 : Entity.t N) :
  keeps e1 e2 -> keeps e2 e3 -> keeps e1 e3.
Proof.
  intros [S12 K12] [S23 K23]. split; [congruence|].
  intros Hs. destruct (K12 Hs) as [P12 V12].
  destruct K23 as [P23 V23]; [congruence|]. split; congruence.
Qed.

Lemma keeps_wake (e : Entity.t N) : keeps e (Entity.wake e).
Proof. split; auto. Qed.

Lemma keeps_wakeIfSleeping (e : Entity.t N) : keeps e (Blocks.wakeIfSleeping e).
Proof. unfold Blocks.wakeIfSleeping. destruct (Entity.isSleeping e); split; auto. Qed.

Lemma keeps_correctPosition (e : Entity.t N) target :
  keeps e (Blocks.correctPosition e target).
Proof.
  unfold Blocks.correctPosition, Blocks.revertPosition.
  destruct (Entity.isStatic e) eqn:Hs; cbn [negb];
    match goal with |- context [if ?c then _ else _] => destruct c end;
    split; cbn; auto; congruence.
Qed.

Lemma keeps_applyImpulse (e : Entity.t N) target :
  keeps e (Blocks.applyImpulse e target).
Proof.
  unfold Blocks.applyImpulse, Blocks.revertVelocity.
  destruct (Entity.isStatic e) eqn:Hs; cbn [negb];
    match goal with |- context [if ?c then _ else _] => destruct c end;
    split; cbn; auto; congruence.
Qed.

Lemma keeps_takeDamage (e : Entity.t N) amount : keeps e (Entity.takeDamage e amount).
Proof.
  unfold Entity.takeDamage. destruct (Entity.isStatic e) eqn:Hs.
  - split; auto.
  - match goal with |- context [if ?c then _ else _] => destruct c end;
      split; cbn; auto; congruence.
Qed.

Lemma keeps_onCollision (e other : Entity.t N) impulseMagnitude :
  keeps e (Entity.onCollision e other impulseMagnitude).
Proof.
  unfold Entity.onCollision.
  match goal with |- context [if ?c then _ else _] => destruct c end.
  - eapply keeps_trans; [apply keeps_wake | apply keeps_takeDamage].
  - apply keeps_wake.
Qed.

Lemma keeps_resolvePair (ea eb : Entity.t N) normal penetration :
  keeps ea (PhysicsWorld.resolvePair ea eb normal penetration).1 /\
  keeps eb (PhysicsWorld.resolvePair ea eb normal penetration).2.
Proof.
  rewrite resolvePair_blocks. unfold Blocks.composed. cbv zeta.
  pose proof (keeps_wakeIfSleeping ea) as Ka.
  pose proof (keeps_wakeIfSleeping eb) as Kb.
  repeat match goal with
         | |- context [if ?c then (_, _) else _] => destruct c
         end; cbn [fst snd]; split;
    eauto using keeps_trans, keeps_correctPosition, keeps_applyImpulse,
      keeps_onCollision.
Qed.

(** [keeps] lifted to the list of entities, place by place. *)
Lemma keeps_insert2 (l : list (Entity.t N)) ia ib ea eb ea' eb' :
  l !! ia = Some ea -> l !! ib = Some eb -> keeps ea ea' -> keeps eb eb' ->
  Forall2 keeps l (<[ib := eb']> (<[ia := ea']> l)).
Proof.
  intros Ha Hb Ka Kb. apply Forall2_same_length_lookup_2.
  - by rewrite !length_insert.
  - intros k e e' He He'.
    destruct (decide (k = ib)) as [->|Hnb].
    + rewrite list_lookup_insert_eq in He'.
      * congruence.
      * rewrite length_insert. by eapply lookup_lt_Some.
    + rewrite list_lookup_insert_ne in He' by done.
      destruct (decide (k = ia)) as [->|Hna].
      * rewrite list_lookup_insert_eq in He' by (by eapply lookup_lt_Some).
        congruence.
      * rewrite list_lookup_insert_ne in He' by done.
        assert (e = e') as -> by congruence. apply keeps_refl.
Qed.

Lemma keeps_list_refl (l : list (Entity.t N)) : Forall2 keeps l l.
Proof. apply Forall_Forall2_diag, Forall_forall. intros; apply keeps_refl. Qed.

Lemma keeps_list_trans (l1 l2 l3 : list (Entity.t N)) :
  Forall2 keeps l1 l2 -> Forall2 keeps l2 l3 -> Forall2 keeps l1 l3.
Proof. apply Forall2_trans. intros ???. apply keeps_trans. Qed.

Lemma keeps_map (f : Entity.t N -> Entity.t N) l :
  (forall e, keeps e (f e)) -> Forall2 keeps l (map f l).
Proof.
  intros Hf. induction l as [|e l IH]; cbn; constructor; auto.
Qed.

Lemma keeps_resolveCollision (l : list (Entity.t N)) c :
  Forall2 keeps l (PhysicsWorld.resolveCollision l c).
Proof.
  unfold PhysicsWorld.resolveCollision.
  destruct (l !! PhysicsWorld.a c) as [ea|] eqn:Ha; [|apply keeps_list_refl].
  destruct (l !! PhysicsWorld.b c) as [eb|] eqn:Hb; [|apply keeps_list_refl].
  pose proof (keeps_resolvePair ea eb (PhysicsWorld.normal c) (PhysicsWorld.penetration c))
    as [Ka Kb].
  destruct (PhysicsWorld.resolvePair ea eb _ _) as [ea' eb']. cbn [fst snd] in *.
  by eapply keeps_insert2.
Qed.

Lemma keeps_fold_resolve cs : forall l : list (Entity.t N),
  Forall2 keeps l (fold_left PhysicsWorld.resolveCollision cs l).
Proof.
  induction cs as [|c cs IH]; intros l; cbn.
  - apply keeps_list_refl.
  - eapply keeps_list_trans; [apply keeps_resolveCollision | apply IH].
Qed.

Lemma keeps_applyForces_entity dt (e : Entity.t N) :
  keeps e (PhysicsWorld.applyForces_entity dt e).
Proof.
  unfold PhysicsWorld.applyForces_entity.
  destruct (Entity.isStatic e) eqn:Hs; cbn [orb]; [apply keeps_refl|].
  destruct (Entity.isSleeping e); [apply keeps_refl|].
  split; [by destruct (Entity.mass e >? ofZ 0) | congruence].
Qed.

Lemma keeps_integrate_entity dt (e : Entity.t N) :
  keeps e (PhysicsWorld.integrate_entity dt e).
Proof.
  unfold PhysicsWorld.integrate_entity.
  destruct (Entity.isStatic e) eqn:Hs; cbn [orb]; [apply keeps_refl|].
  destruct (Entity.isSleeping e); [apply keeps_refl|].
  split; [done | congruence].
Qed.

Lemma keeps_updateSleepState_entity dt (e : Entity.t N) :
  keeps e (PhysicsWorld.updateSleepState_entity dt e).
Proof.
  unfold PhysicsWorld.updateSleepState_entity.
  destruct (Entity.isStatic e) eqn:Hs; cbn [orb]; [apply keeps_refl|].
  destruct (negb (Entity.canSleep e)); [apply keeps_refl|].
  cbv zeta.
  repeat match goal with |- context [if ?c then _ else _] => destruct c end;
    (split; [done | congruence]).
Qed.

Lemma keeps_subStep dt (w : PhysicsWorld.t N) :
  Forall2 keeps (PhysicsWorld.entities w) (PhysicsWorld.entities (PhysicsWorld.subStep dt w)).
Proof. apply keeps_fold_resolve. Qed.

Lemma keeps_subSteps dt n : forall w : PhysicsWorld.t N,
  Forall2 keeps (PhysicsWorld.entities w)
    (PhysicsWorld.entities (Nat.iter n (PhysicsWorld.subStep dt) w)).
Proof.
  induction n as [|n IH]; intros w; cbn [Nat.iter].
  - apply keeps_list_refl.
  - eapply keeps_list_trans; [apply IH | apply keeps_subStep].
Qed.

Lemma keeps_update (w : PhysicsWorld.t N) dt :
  Forall2 keeps (PhysicsWorld.entities w) (PhysicsWorld.entities (PhysicsWorld.update w dt)).
Proof.
  unfold PhysicsWorld.update. cbv zeta.
  eapply keeps_list_trans; [|apply keeps_map, keeps_updateSleepState_entity].
  eapply keeps_list_trans; [|apply keeps_subSteps].
  eapply keeps_list_trans; [|apply keeps_map, keeps_integrate_entity].
  apply keeps_map, keeps_applyForces_entity.
Qed.

Lemma keeps_updates dt k : forall w : PhysicsWorld.t N,
  Forall2 keeps (PhysicsWorld.entities w)
    (PhysicsWorld.entities (Nat.iter k (fun w => PhysicsWorld.update w dt) w)).
Proof.
  induction k as [|k IH]; intros w; cbn [Nat.iter].
  - apply keeps_list_refl.
  - eapply keeps_list_trans; [apply IH | apply keeps_update].
Qed.

(** C4. Whatever the world holds and whatever collisions occur, after any
    number [k] of ticks of [update] a static body is still at its place in
    the list, still static, and its [position] and [velocity] fields hold
    the values they held before. *)
Theorem static_body_unchanged (w : PhysicsWorld.t N) (dt : N) (k idx : nat)
    (e : Entity.t N) :
  PhysicsWorld.entities w !! idx = Some e ->
  Entity.isStatic e = true ->
  exists e',
    PhysicsWorld.entities (Nat.iter k (fun w => PhysicsWorld.update w dt) w) !! idx
      = Some e' /\
    Entity.isStatic e' = true /\
    Entity.position e' = Entity.position e /\
    Entity.velocity e' = Entity.velocity e.
Proof.
  intros Hidx Hs.
  destruct (Forall2_lookup_l _ _ _ _ _ (keeps_updates dt k w) Hidx)
    as (e' & He' & Hst & Hk).
  exists e'. destruct (Hk Hs). repeat split; auto; congruence.
Qed.

(** *** Which pairs [detectCollisions] looks at *)

Lemma checkCircleCircle_between i (ea : Entity.t N) j eb c :
  PhysicsWorld.checkCircleCircle i ea j eb = Some c ->
  PhysicsWorld.a c = i /\ PhysicsWorld.b c = j.
Proof.
  unfold PhysicsWorld.checkCircleCircle. intros Hc.
  repeat case_match; simplify_eq; auto.
Qed.

Lemma checkAABBAABB_between i (ea : Entity.t N) j eb c :
  PhysicsWorld.checkAABBAABB i ea j eb = Some c ->
  PhysicsWorld.a c = i /\ PhysicsWorld.b c = j.
Proof.
  unfold PhysicsWorld.checkAABBAABB. intros Hc.
  repeat case_match; simplify_eq; auto.
Qed.

Lemma checkCircleAABB_between i (ea : Entity.t N) j eb c :
  PhysicsWorld.checkCircleAABB i ea j eb = Some c ->
  PhysicsWorld.a c = i /\ PhysicsWorld.b c = j.
Proof.
  unfold PhysicsWorld.checkCircleAABB. intros Hc.
  repeat case_match; simplify_eq; auto.
Qed.

Lemma checkCollision_between i (ea : Entity.t N) j eb c :
  PhysicsWorld.checkCollision i ea j eb = Some c -> between c i j.
Proof.
  unfold PhysicsWorld.checkCollision, between. intros Hc.
  destruct (Entity.collisionShape ea), (Entity.collisionShape eb); try discriminate.
  - left. by eapply checkCircleCircle_between.
  - left. by eapply checkCircleAABB_between.
  - destruct (PhysicsWorld.checkCircleAABB j eb i ea) as [r|] eqn:Hr; [|discriminate].
    apply checkCircleAABB_between in Hr. simplify_eq. cbn. right. tauto.
  - left. by eapply checkAABBAABB_between.
Qed.

Lemma detectInner_between i (entityA : Entity.t N) rest : forall j c,
  In c (PhysicsWorld.detectInner i entityA j rest) ->
  exists m, (j <= m)%nat /\ between c i m.
Proof.
  induction rest as [|entityB rest IH]; intros j c Hin; cbn in Hin; [done|].
  apply in_app_or in Hin as [Hin|Hin].
  - exists j. split; [lia|].
    destruct (_ || _); [done|].
    destruct (PhysicsWorld.checkCollision i entityA j entityB) as [c'|] eqn:Hc; [|done].
    destruct Hin as [<-|[]]. by eapply checkCollision_between.
  - destruct (IH _ _ Hin) as (m & Hm & Hb). exists m. split; [lia | done].
Qed.

(** Every contact of the outer loop is between some [entities[k]] that the
    loop did not skip and an object at a larger index. *)
Lemma detectOuter_between (rest : list (Entity.t N)) : forall i c,
  In c (PhysicsWorld.detectOuter i rest) ->
  exists k entityA m,
    rest !! k = Some entityA /\
    Entity.isStatic entityA && negb (Entity.canCollideStatic entityA) = false /\
    (i + k < m)%nat /\ between c (i + k) m.
Proof.
  induction rest as [|entityA rest IH]; intros i c Hin; cbn in Hin; [done|].
  apply in_app_or in Hin as [Hin|Hin].
  - destruct (Entity.isStatic entityA && negb (Entity.canCollideStatic entityA)) eqn:Hskip;
      [done|].
    destruct (detectInner_between _ _ _ _ _ Hin) as (m & Hm & Hb).
    exists 0%nat, entityA, m. rewrite Nat.add_0_r. repeat split; auto; lia.
  - destruct (IH _ _ Hin) as (k & e & m & Hk & Hskip & Hm & Hb).
    exists (S k), e, m. replace (i + S k)%nat with (S i + k)%nat by lia.
    repeat split; auto.
Qed.

Lemma detect_skips_static_row (l : list (Entity.t N)) i j entityA c :
  (i < j)%nat ->
  l !! i = Some entityA ->
  Entity.isStatic entityA = true ->
  Entity.canCollideStatic entityA = false ->
  In c (PhysicsWorld.detectOuter 0 l) ->
  ~ between c i j.
Proof.
  intros Hij Hi Hs Hc Hin Hb.
  apply detectOuter_between in Hin as (k & e & m & Hk & Hskip & Hm & Hb').
  cbn in Hk, Hm, Hb'.
  assert (k = i) as ->.
  { destruct Hb as [[? ?]|[? ?]], Hb' as [[? ?]|[? ?]]; lia. }
  cbn in Hk. rewrite Hi in Hk. simplify_eq. by rewrite Hs, Hc in Hskip.
Qed.

(** C10. If the body at index [i] is static with [canCollideStatic = false],
    [detectCollisions] yields no contact between it and a body at a larger
    index [j], whatever the two bodies are and wherever they are; so no
    contact is ever produced between it and a body that [addEntity] puts in
    the list after it. *)
Theorem static_first_never_collides (w : PhysicsWorld.t N) (i j : nat)
    (entityA : Entity.t N) :
  (i < j)%nat ->
  PhysicsWorld.entities w !! i = Some entityA ->
  Entity.isStatic entityA = true ->
  Entity.canCollideStatic entityA = false ->
  (forall c, In c (PhysicsWorld.detectCollisions w) -> ~ between c i j) /\
  (forall bird c,
     In c (PhysicsWorld.detectCollisions (PhysicsWorld.addEntity w bird)) ->
     ~ between c i (length (PhysicsWorld.entities w))).
Proof.
  intros Hij Hi Hs Hc. destruct w as [l cs]. cbn in *. split.
  - intros c Hin. by apply (detect_skips_static_row l i j entityA).
  - intros bird c Hin. unfold PhysicsWorld.addEntity in Hin. cbn in Hin.
    apply (detect_skips_static_row (l ++ [bird]) i (length l) entityA); auto.
    + by eapply lookup_lt_Some.
    + by apply lookup_app_l_Some.
Qed.

(** *** The collision hook *)

(** C6. For a non-static body, [onCollision] with an impulse magnitude
    strictly above [damageThreshold] lowers [hp] by [impulseMagnitude * 0.05]
    and otherwise leaves [hp] as it is; [markedForRemoval] is set by the
    call exactly when that damage was applied and the lowered [hp] is
    [<= 0], so a body the call marks has [hp <= 0]. *)
Theorem collision_damage (e other : Entity.t N) (impulseMagnitude : N) :
  Entity.isStatic e = false ->
  let e' := Entity.onCollision e other impulseMagnitude in
  let damaged := Entity.hp e - impulseMagnitude * dec 5 100 in
  ((impulseMagnitude >? Entity.damageThreshold e) = true -> Entity.hp e' = damaged) /\
  ((impulseMagnitude >? Entity.damageThreshold e) = false -> Entity.hp e' = Entity.hp e) /\
  Entity.markedForRemoval e'
  = Entity.markedForRemoval e
    || ((impulseMagnitude >? Entity.damageThreshold e) && (damaged <=? ofZ 0)) /\
  (Entity.markedForRemoval e = false -> Entity.markedForRemoval e' = true ->
   (Entity.hp e' <=? ofZ 0) = true).
Proof.
  intros Hs. cbv zeta. unfold Entity.onCollision, Entity.takeDamage. cbn.
  rewrite Hs.
  destruct (impulseMagnitude >? Entity.damageThreshold e) eqn:Hd; cbn.
  - destruct (Entity.hp e - impulseMagnitude * dec 5 100 <=? ofZ 0) eqn:Hz; cbn;
      rewrite ?Hz; repeat split; auto; try congruence;
      by destruct (Entity.markedForRemoval e).
  - repeat split; auto; try congruence; by destruct (Entity.markedForRemoval e).
Qed.

(** *** The NaN checks of [resolveCollisions] *)



Lemma samePV_onCollision (e other : Entity.t N) m :
  samePV e (Entity.onCollision e other m).
Proof.
  unfold Entity.onCollision, Entity.takeDamage.
  repeat case_match; by split.
Qed.







(** [integrate] has no revert: an awake, non-static body ends at
    [position + velocity * dt] whatever that value is. *)
Lemma integrate_keeps_any_value dt (e : Entity.t N) :
  Entity.isStatic e = false -> Entity.isSleeping e = false ->
  Entity.position (PhysicsWorld.integrate_entity dt e)
  = Vec2.add (Entity.position e) (Vec2.mul (Entity.velocity e) dt).
Proof.
  intros Hs Hz. unfold PhysicsWorld.integrate_entity. by rewrite Hs, Hz.
Qed.

(** *** The slingshot *)

(** [endAim] launches exactly when the launch vector has a positive squared
    length; otherwise it returns [false], leaves the store as it is and
    clears the aim state. *)
Lemma endAim_without_launch_vector (slingshot : Slingshot.t N) store :
  (Vec2.lenSq (Slingshot.getLaunchVelocity slingshot store) >? ofZ 0) = false ->
  Slingshot.endAim slingshot store = (false, Slingshot.released slingshot, store).
Proof.
  intros Hzero. unfold Slingshot.endAim.
  repeat case_match; try reflexivity. congruence.
Qed.

End Generic.

(** * Properties in exact arithmetic: the instance [RNumber] *)

Section Real.
Local Open Scope R_scope.

Lemma Rltb_true a b : a < b -> Rltb a b = true.
Proof. intros; unfold Rltb; destruct (Rlt_dec a b); [done | lra]. Qed.

Lemma Rltb_false a b : b <= a -> Rltb a b = false.
Proof. intros; unfold Rltb; destruct (Rlt_dec a b); [lra | done]. Qed.

Lemma Rleb_true a b : a <= b -> Rleb a b = true.
Proof. intros; unfold Rleb; destruct (Rle_dec a b); [done | lra]. Qed.

Lemma Rleb_false a b : b < a -> Rleb a b = false.
Proof. intros; unfold Rleb; destruct (Rle_dec a b); [lra | done]. Qed.

Lemma Reqb_true a b : a = b -> Reqb a b = true.
Proof. intros; unfold Reqb; destruct (Req_dec_T a b); [done | lra]. Qed.

Lemma Reqb_false a b : a <> b -> Reqb a b = false.
Proof. intros; unfold Reqb; destruct (Req_dec_T a b); [done | done]. Qed.

Lemma Rltb_iff a b : Rltb a b = true <-> a < b.
Proof. unfold Rltb; destruct (Rlt_dec a b); split; (done || lra). Qed.

(** [sqrt s < r] is what the test [s < r * r] decides, for [r >= 0]. *)
Lemma sqrt_lt_iff (s r : R) : 0 <= s -> 0 <= r -> (s < r * r <-> sqrt s < r).
Proof.
  intros Hs Hr. split; intros Hlt.
  - rewrite <- (sqrt_square r) by done. apply sqrt_lt_1_alt. lra.
  - rewrite <- (sqrt_sqrt s) by done. pose proof (sqrt_pos s). nra.
Qed.

Lemma lenSq_nonneg (v : Vec2.t R) : 0 <= Vec2.lenSq v.
Proof. destruct v as [vx vy]. unfold Vec2.lenSq, Vec2.dot. js_real. nra. Qed.

Lemma lenSq_zero (v : Vec2.t R) : Vec2.lenSq v = 0 -> v = Vec2.new 0 0.
Proof.
  destruct v as [vx vy]. unfold Vec2.lenSq, Vec2.dot. js_real. intros Hz.
  assert (vx = 0) by nra. assert (vy = 0) by nra. by subst.
Qed.

Lemma sub_zero_eq (p q : Vec2.t R) : Vec2.sub p q = Vec2.new 0 0 -> p = q.
Proof.
  destruct p as [px py], q as [qx qy]. unfold Vec2.sub. js_real.
  intros [=]. f_equal; lra.
Qed.

(** C2. For two circles with radii [ra], [rb] that are not negative:
    [checkCollision] returns a contact if and only if the distance between
    the centres is strictly below [ra + rb]; the contact then has
    penetration [ra + rb - distance], and its normal is the vector from the
    centre of [a] to the centre of [b] divided by the distance, or [(1, 0)]
    when the two centres coincide. *)
Theorem circle_circle_contact (ia ib : nat) (ea eb : Entity.t R) (ra rb : R) :
  Entity.collisionShape ea = Circle ra ->
  Entity.collisionShape eb = Circle rb ->
  0 <= ra -> 0 <= rb ->
  let distVec := Vec2.sub (Entity.position eb) (Entity.position ea) in
  let distance := Vec2.len distVec in
  (distance < ra + rb ->
   exists normal,
     PhysicsWorld.checkCollision ia ea ib eb
     = Some (PhysicsWorld.mkContact ia ib normal (ra + rb - distance)) /\
     (Entity.position eb <> Entity.position ea ->
      normal = Vec2.new (Vec2.x distVec / distance) (Vec2.y distVec / distance)) /\
     (Entity.position eb = Entity.position ea -> normal = Vec2.new 1 0)) /\
  (ra + rb <= distance -> PhysicsWorld.checkCollision ia ea ib eb = None).
Proof.
  intros Ha Hb Hra Hrb distVec distance.
  unfold PhysicsWorld.checkCollision, PhysicsWorld.checkCircleCircle.
  rewrite Ha, Hb. cbv zeta. fold distVec.
  pose proof (lenSq_nonneg distVec) as Hsq.
  pose proof (sqrt_lt_iff (Vec2.lenSq distVec) (ra + rb) Hsq ltac:(lra)) as Hiff.
  pose proof (sqrt_pos (Vec2.lenSq distVec)) as Hpos.
  unfold distance, Vec2.len in *. js_real. split.
  - intros Hlt. rewrite Rltb_true by (by apply Hiff).
    eexists. split; [reflexivity|]. split.
    + intros Hne.
      assert (0 < sqrt (Vec2.lenSq distVec)) as Hgt.
      { destruct Hpos as [Hgt|Heq]; [done|]. exfalso. apply Hne.
        apply sub_zero_eq, lenSq_zero. symmetry in Heq.
        by apply sqrt_eq_0 in Heq. }
      rewrite Rltb_true by done. unfold Vec2.div. js_real.
      rewrite Reqb_false by lra. reflexivity.
    + intros Heq. unfold distVec. rewrite Heq.
      assert (Vec2.lenSq (Vec2.sub (Entity.position ea) (Entity.position ea)) = 0) as ->.
      { destruct (Entity.position ea). unfold Vec2.lenSq, Vec2.dot, Vec2.sub. js_real. lra. }
      rewrite sqrt_0. rewrite Rltb_false by lra. reflexivity.
  - intros Hge. rewrite Rltb_false; [done|].
    destruct (Rle_or_lt ((ra + rb) * (ra + rb)) (Vec2.lenSq distVec)) as [|Hlt];
      [done|].
    apply Hiff in Hlt. lra.
Qed.

(** *** Normals and penetrations *)

Lemma div_len_unit (v : Vec2.t R) :
  0 < sqrt (Vec2.lenSq v) -> Vec2.lenSq (Vec2.div v (sqrt (Vec2.lenSq v))) = 1.
Proof.
  intros Hpos. pose proof (sqrt_sqrt _ (lenSq_nonneg v)) as Hsq.
  set (d := sqrt (Vec2.lenSq v)) in *.
  destruct v as [vx vy]. unfold Vec2.div, Vec2.lenSq, Vec2.dot in *. js_real.
  rewrite Reqb_false by lra. cbn [negb Vec2.x Vec2.y].
  transitivity ((vx * vx + vy * vy) / (d * d)); [field; lra|].
  rewrite <- Hsq. field. lra.
Qed.

Lemma lenSq_mul_minus_one (v : Vec2.t R) :
  Vec2.lenSq (Vec2.mul v (-1)) = Vec2.lenSq v.
Proof. destruct v. unfold Vec2.lenSq, Vec2.dot, Vec2.mul. js_real. ring. Qed.

(** In exact arithmetic every contact between two shapes with radii that
    are not negative has a strictly positive penetration, and its normal
    has length 1, with one exception: a circle and a box with the same
    centre get a normal of length 0. *)
Lemma contact_unit_normal_unless_same_centre (ia ib : nat) (ea eb : Entity.t R) c :
  (forall r, Entity.collisionShape ea = Circle r -> 0 <= r) ->
  (forall r, Entity.collisionShape eb = Circle r -> 0 <= r) ->
  PhysicsWorld.checkCollision ia ea ib eb = Some c ->
  0 < PhysicsWorld.penetration c /\
  (Vec2.lenSq (PhysicsWorld.normal c) = 1 \/
   (Vec2.lenSq (PhysicsWorld.normal c) = 0 /\
    Entity.position ea = Entity.position eb /\
    match Entity.collisionShape ea, Entity.collisionShape eb with
    | Circle _, Aabb _ _ | Aabb _ _, Circle _ => True
    | _, _ => False
    end)).
Proof.
  intros Hra Hrb Hc.
  assert (forall (circle box : Entity.t R) i j r,
            (forall r, Entity.collisionShape circle = Circle r -> 0 <= r) ->
            PhysicsWorld.checkCircleAABB i circle j box = Some r ->
            0 < PhysicsWorld.penetration r /\
            (Vec2.lenSq (PhysicsWorld.normal r) = 1 \/
             (Vec2.lenSq (PhysicsWorld.normal r) = 0 /\
              Entity.position circle = Entity.position box))) as Hcb.
  { intros circle box i j r Hrad. unfold PhysicsWorld.checkCircleAABB.
    destruct (Entity.collisionShape circle) as [radius| |] eqn:Hsc; try discriminate.
    destruct (Entity.collisionShape box) as [|width height|]; try discriminate.
    cbv zeta. specialize (Hrad radius eq_refl).
    remember (Vec2.sub (Entity.position circle) (Entity.position box)) as vec eqn:Hvec.
    match goal with
    | |- context [Vec2.lenSq ?d] => remember d as delta eqn:Hdelta
    end.
    pose proof (lenSq_nonneg delta) as Hsq.
    pose proof (sqrt_pos (Vec2.lenSq delta)) as Hpos.
    js_real. unfold Rltb at 1.
    destruct (Rlt_dec (Vec2.lenSq delta) (radius * radius)) as [Hlt|]; [|discriminate].
    intros [= <-]. cbn [PhysicsWorld.penetration PhysicsWorld.normal].
    change (Vec2.x delta * Vec2.x delta + Vec2.y delta * Vec2.y delta)
      with (Vec2.lenSq delta).
    split.
    { apply (sqrt_lt_iff _ _ Hsq Hrad) in Hlt. lra. }
    unfold Rltb. destruct (Rlt_dec 0 (sqrt (Vec2.lenSq delta))) as [Hd|Hd].
    { left. by apply div_len_unit. }
    unfold Vec2.normalize, Vec2.len. cbv zeta. js_real. unfold Rltb.
    pose proof (sqrt_pos (Vec2.lenSq vec)) as Hpos'.
    destruct (Rlt_dec 0 (sqrt (Vec2.lenSq vec))) as [Hv|Hv].
    { left. by apply div_len_unit. }
    right. split.
    { unfold Vec2.lenSq, Vec2.dot. js_real. lra. }
    assert (sqrt (Vec2.lenSq vec) = 0) as Hz by lra.
    apply sqrt_eq_0 in Hz; [|apply lenSq_nonneg].
    apply sub_zero_eq. rewrite <- Hvec. by apply lenSq_zero. }
  unfold PhysicsWorld.checkCollision in Hc.
  destruct (Entity.collisionShape ea) as [ra|wa ha|] eqn:Hsa,
           (Entity.collisionShape eb) as [rb|wb hb|] eqn:Hsb; try discriminate.
  - (* circle, circle *)
    unfold PhysicsWorld.checkCircleCircle in Hc. rewrite Hsa, Hsb in Hc.
    cbv zeta in Hc.
    remember (Vec2.sub (Entity.position eb) (Entity.position ea)) as distVec eqn:Hvec.
    pose proof (lenSq_nonneg distVec) as Hsq.
    pose proof (sqrt_pos (Vec2.lenSq distVec)) as Hpos.
    specialize (Hra ra eq_refl). specialize (Hrb rb eq_refl).
    js_real. unfold Rltb at 1 in Hc.
    destruct (Rlt_dec (Vec2.lenSq distVec) ((ra + rb) * (ra + rb))) as [Hlt|];
      [|discriminate].
    injection Hc as <-. cbn [PhysicsWorld.penetration PhysicsWorld.normal].
    change (Vec2.x distVec * Vec2.x distVec + Vec2.y distVec * Vec2.y distVec)
      with (Vec2.lenSq distVec).
    split.
    { apply (sqrt_lt_iff _ _ Hsq) in Hlt; lra. }
    left. unfold Rltb. destruct (Rlt_dec 0 (sqrt (Vec2.lenSq distVec))).
    + by apply div_len_unit.
    + unfold Vec2.lenSq, Vec2.dot. js_real. lra.
  - (* circle, box *)
    rewrite <- Hsa in Hra.
    destruct (Hcb ea eb ia ib c Hra Hc) as [Hp [Hn|[Hn Hpos]]]; auto.
  - (* box, circle *)
    destruct (PhysicsWorld.checkCircleAABB ib eb ia ea) as [r|] eqn:Hr; [|discriminate].
    injection Hc as <-. cbn [PhysicsWorld.penetration PhysicsWorld.normal].
    rewrite lenSq_mul_minus_one. rewrite <- Hsb in Hrb.
    destruct (Hcb eb ea ib ia r Hrb Hr) as [Hp [Hn|[Hn Hpos]]]; auto.
  - (* box, box *)
    unfold PhysicsWorld.checkAABBAABB in Hc. rewrite Hsa, Hsb in Hc. cbv zeta in Hc.
    js_real. unfold Rltb in Hc.
    repeat match type of Hc with
           | context [Rlt_dec ?x ?y] => destruct (Rlt_dec x y)
           end; cbn [andb] in Hc; try discriminate; injection Hc as <-;
      cbn [PhysicsWorld.penetration PhysicsWorld.normal];
      unfold Vec2.sub in *; js_real;
      (split; [lra|]); left; unfold Vec2.lenSq, Vec2.dot; js_real; lra.
Qed.

(** C3, as the code has it.  For two boxes whose overlaps on both axes are
    strictly positive, [checkCollision] returns a contact: along X, with
    penetration [overlapX], when [overlapX < overlapY], and along Y, with
    penetration [overlapY], otherwise, so also when the two overlaps are
    equal.  On the chosen axis the normal is [-1] when the centre delta is
    negative and [+1] otherwise ([deltaSign]); on the other axis it is [0]. *)
Theorem aabb_aabb_contact (ia ib : nat) (ea eb : Entity.t R)
    (widthA heightA widthB heightB : R) :
  Entity.collisionShape ea = Aabb widthA heightA ->
  Entity.collisionShape eb = Aabb widthB heightB ->
  let vec := Vec2.sub (Entity.position eb) (Entity.position ea) in
  let overlapX := (widthA / 2 + widthB / 2) - Rabs (Vec2.x vec) in
  let overlapY := (heightA / 2 + heightB / 2) - Rabs (Vec2.y vec) in
  0 < overlapX -> 0 < overlapY ->
  (overlapX < overlapY ->
   PhysicsWorld.checkCollision ia ea ib eb
   = Some (PhysicsWorld.mkContact ia ib (Vec2.new (deltaSign (Vec2.x vec)) 0) overlapX)) /\
  (overlapY <= overlapX ->
   PhysicsWorld.checkCollision ia ea ib eb
   = Some (PhysicsWorld.mkContact ia ib (Vec2.new 0 (deltaSign (Vec2.y vec))) overlapY)).
Proof.
  intros Ha Hb vec overlapX overlapY HX HY.
  unfold PhysicsWorld.checkCollision, PhysicsWorld.checkAABBAABB.
  rewrite Ha, Hb. cbv zeta. fold vec. js_real. fold overlapX overlapY.
  rewrite !Rltb_true by done. cbn [andb]. unfold deltaSign, Rltb.
  split; intros Hcmp; destruct (Rlt_dec overlapX overlapY); try lra;
    destruct (Rlt_dec _ 0); reflexivity.
Qed.

(** *** One contact between two equal masses *)

Lemma wakeIfSleeping_fields (e : Entity.t R) :
  let e' := Blocks.wakeIfSleeping e in
  Entity.velocity e' = Entity.velocity e /\ Entity.position e' = Entity.position e /\
  Entity.isStatic e' = Entity.isStatic e /\ Entity.mass e' = Entity.mass e /\
  Entity.restitution e' = Entity.restitution e.
Proof. cbv zeta. unfold Blocks.wakeIfSleeping. by destruct (Entity.isSleeping e). Qed.

Lemma correctPosition_fields (e : Entity.t R) target :
  let e' := Blocks.correctPosition e target in
  Entity.velocity e' = Entity.velocity e /\
  Entity.isStatic e' = Entity.isStatic e /\ Entity.mass e' = Entity.mass e /\
  Entity.restitution e' = Entity.restitution e.
Proof.
  cbv zeta. unfold Blocks.correctPosition, Blocks.revertPosition. js_real.
  cbn [orb]. by destruct (negb (Entity.isStatic e)).
Qed.

Lemma applyImpulse_velocity (e : Entity.t R) target :
  Entity.isStatic e = false ->
  Entity.velocity (Blocks.applyImpulse e target) = target.
Proof.
  intros Hs. unfold Blocks.applyImpulse, Blocks.revertVelocity. js_real.
  cbn [orb]. by rewrite Hs.
Qed.

Lemma onCollision_velocity (e other : Entity.t R) m :
  Entity.velocity (Entity.onCollision e other m) = Entity.velocity e.
Proof. apply samePV_onCollision. Qed.

(** C5. One contact with a unit normal between two non-static bodies of the
    same positive mass [m], both of restitution 1, whose velocities lie
    along the normal ([u * normal] and [v * normal]) and do not separate
    ([v <= u]): after [resolveCollisions] has treated the contact, each body
    has the velocity the other had. *)
Theorem head_on_exchange (ea eb : Entity.t R) (normal : Vec2.t R)
    (penetration m u v : R) :
  Entity.isStatic ea = false -> Entity.isStatic eb = false ->
  Entity.mass ea = m -> Entity.mass eb = m -> 0 < m ->
  Entity.restitution ea = Some 1 -> Entity.restitution eb = Some 1 ->
  Vec2.lenSq normal = 1 ->
  Entity.velocity ea = Vec2.mul normal u ->
  Entity.velocity eb = Vec2.mul normal v ->
  v <= u ->
  let result := PhysicsWorld.resolvePair ea eb normal penetration in
  Entity.velocity result.1 = Entity.velocity eb /\
  Entity.velocity result.2 = Entity.velocity ea.
Proof.
  intros Hsa Hsb Hma Hmb Hm Hra Hrb Hn Hva Hvb Hvu. cbv zeta.
  rewrite resolvePair_blocks. unfold Blocks.composed. cbv zeta.
  destruct (wakeIfSleeping_fields ea) as (Va0 & _ & Sa0 & Ma0 & Ra0).
  destruct (wakeIfSleeping_fields eb) as (Vb0 & _ & Sb0 & Mb0 & Rb0).
  cbv zeta in *.
  set (ea0 := Blocks.wakeIfSleeping ea) in *.
  set (eb0 := Blocks.wakeIfSleeping eb) in *.
  assert (Blocks.invMass ea0 = 1 / m) as Ia.
  { unfold Blocks.invMass. js_real. rewrite Ma0, Hma. by rewrite Rltb_true. }
  assert (Blocks.invMass eb0 = 1 / m) as Ib.
  { unfold Blocks.invMass. js_real. rewrite Mb0, Hmb. by rewrite Rltb_true. }
  rewrite Ia, Ib. js_real.
  assert (0 < 1 / m) as Him by (apply Rdiv_lt_0_compat; lra).
  rewrite Reqb_false by lra.
  set (correction := Blocks.correctionOf normal penetration (1 / m + 1 / m)).
  set (ta := Vec2.sub (Entity.position ea0) (Vec2.mul correction (1 / m))).
  set (tb := Vec2.add (Entity.position eb0) (Vec2.mul correction (1 / m))).
  destruct (correctPosition_fields ea0 ta) as (Va1 & Sa1 & _ & Ra1).
  destruct (correctPosition_fields eb0 tb) as (Vb1 & Sb1 & _ & Rb1).
  cbv zeta in *.
  set (ea1 := Blocks.correctPosition ea0 ta) in *.
  set (eb1 := Blocks.correctPosition eb0 tb) in *.
  destruct normal as [nx ny].
  assert (nx * nx + ny * ny = 1) as Hunit.
  { revert Hn. unfold Vec2.lenSq, Vec2.dot. by js_real. }
  assert (Vec2.dot (Vec2.sub (Entity.velocity eb1) (Entity.velocity ea1)) (Vec2.new nx ny)
          = v - u) as Hvan.
  { rewrite Va1, Vb1, Va0, Vb0, Hva, Hvb. unfold Vec2.dot, Vec2.sub, Vec2.mul. js_real.
    transitivity ((v - u) * (nx * nx + ny * ny)); [ring | rewrite Hunit; ring]. }
  rewrite Hvan. rewrite Rltb_false by lra. cbn [fst snd].
  rewrite !onCollision_velocity.
  rewrite !applyImpulse_velocity by congruence.
  unfold Blocks.impulseOf. cbv zeta. rewrite Hvan.
  rewrite Ra1, Rb1, Ra0, Rb0, Hra, Hrb. cbn [default]. js_real.
  unfold orElse. js_real. rewrite Reqb_false by lra. cbn [orb].
  rewrite Rmin_left by lra.
  rewrite Va1, Vb1, Va0, Vb0, Hva, Hvb.
  unfold Vec2.sub, Vec2.add, Vec2.mul, Datatypes.id. js_real.
  split; f_equal; field; lra.
Qed.

(** *** The predictor and the stepper *)

(** The loop of the predictor runs [flightStep] once for each iteration it
    counts; this holds for every arithmetic. *)
Lemma loop_flight {N} `{JSNumber N} (cw ch : N) steps startPos startVel k :
  let s := Nat.iter k (Main.loopBody cw ch steps) (Main.loopInit startPos startVel) in
  (Main.currentPos s, Main.currentVel s)
  = Nat.iter (Main.i s) flightStep (startPos, startVel).
Proof.
  induction k as [|k IH]; [reflexivity|].
  rewrite Nat.iter_succ. cbv zeta in *.
  set (s := Nat.iter k _ _) in *. unfold Main.loopBody.
  destruct (Main.stopped s || negb (Main.i s <? steps)%nat); [exact IH|].
  cbv zeta.
  repeat match goal with
         | |- context [if ?c then Main.mkLoop _ _ _ _ _ else _] => destruct c
         end; cbn [Main.i Main.currentPos Main.currentVel];
    rewrite Nat.iter_succ, <- IH; reflexivity.
Qed.

(** Every point of the list the predictor returns is a position of the
    free flight, or such a position put on the ground line
    [canvas.height - 50]; this holds for every arithmetic. *)
Lemma pts_are_flight_points {N} `{JSNumber N} (cw ch : N) steps startPos startVel k p :
  In p (Main.pts
          (Nat.iter k (Main.loopBody cw ch steps) (Main.loopInit startPos startVel))) ->
  exists n,
    p = flightPos startPos startVel n \/
    p = Vec2.new (Vec2.x (flightPos startPos startVel n)) (ch - ofZ 50)%js.
Proof.
  revert p. induction k as [|k IH]; intros p Hin.
  - exists 0%nat. left. destruct Hin as [<-|[]]. by destruct startPos.
  - rewrite Nat.iter_succ in Hin.
    pose proof (loop_flight cw ch steps startPos startVel k) as Hpv.
    cbv zeta in Hpv. set (s := Nat.iter k _ _) in *.
    unfold Main.loopBody in Hin.
    destruct (Main.stopped s || negb (Main.i s <? steps)%nat); [by apply IH|].
    cbv zeta in Hin.
    assert (Vec2.add (Main.currentPos s)
              (Vec2.mul
                 (Vec2.mul
                    (Vec2.add (Main.currentVel s)
                       (Vec2.new (ofZ 0) (GRAVITY * TIME_STEP)%js)) FRICTION)
                 TIME_STEP)
            = flightPos startPos startVel (S (Main.i s))) as Hcur.
    { unfold flightPos. rewrite Nat.iter_succ, <- Hpv. reflexivity. }
    rewrite Hcur in Hin.
    assert (forall q : Vec2.t N, Vec2.new (Vec2.x q) (Vec2.y q) = q) as Heta
      by (by intros []).
    rewrite Heta in Hin.
    repeat match type of Hin with
           | context [if ?c then _ else _] => destruct c
           | context [match ?c with Some _ => _ | None => _ end] => destruct c
           end;
      cbn [Main.pts] in Hin; rewrite ?in_app_iff in Hin; cbn [In] in Hin;
      intuition (subst; eauto).
Qed.

(** While the loop has not left and [k] is within [steps], it has run [k]
    iterations after [k] rounds. *)
Lemma loop_count {N} `{JSNumber N} (cw ch : N) steps startPos startVel k :
  let s := Nat.iter k (Main.loopBody cw ch steps) (Main.loopInit startPos startVel) in
  Main.stopped s = false -> (k <= steps)%nat -> Main.i s = k.
Proof.
  induction k as [|k IH]; [reflexivity|].
  rewrite Nat.iter_succ. cbv zeta in *.
  set (s := Nat.iter k _ _) in *. unfold Main.loopBody.
  destruct (Main.stopped s) eqn:Hst; cbn [orb]; [by rewrite Hst|].
  intros Hstop Hk. rewrite <- (IH eq_refl) by lia.
  assert ((Main.i s <? steps)%nat = true) as Hlt.
  { apply Nat.ltb_lt. rewrite (IH eq_refl) by lia. lia. }
  rewrite Hlt in *. cbn [negb] in *. cbv zeta in *.
  repeat match goal with
         | |- context [if ?c then Main.mkLoop _ _ _ _ _ else _] => destruct c
         end; reflexivity.
Qed.

(** Force application and integration of the stepper are [flightStep] on an
    awake, non-static body with mass; this holds for every arithmetic. *)
Lemma forces_integrate_flight {N} `{JSNumber N} (e : Entity.t N) :
  Entity.isStatic e = false -> Entity.isSleeping e = false ->
  (Entity.mass e >? ofZ 0)%js = true ->
  let e' := PhysicsWorld.integrate_entity TIME_STEP
              (PhysicsWorld.applyForces_entity TIME_STEP e) in
  (Entity.position e', Entity.velocity e')
  = flightStep (Entity.position e, Entity.velocity e) /\
  Entity.isStatic e' = false /\ Entity.isSleeping e' = false /\
  Entity.mass e' = Entity.mass e /\ Entity.canSleep e' = Entity.canSleep e /\
  Entity.sleepTimer e' = Entity.sleepTimer e.
Proof.
  intros Hs Hz Hm. cbv zeta.
  unfold PhysicsWorld.integrate_entity, PhysicsWorld.applyForces_entity.
  rewrite Hs, Hz, Hm. cbn. rewrite Hs, Hz. cbn. repeat split; auto.
Qed.

(** A world with a single body has no pair to collide: a tick is force
    application, integration and the sleep update of that body. *)
Lemma update_lone {N} `{JSNumber N} (e : Entity.t N) cs dt :
  PhysicsWorld.entities (PhysicsWorld.update (PhysicsWorld.new [e] cs) dt)
  = [PhysicsWorld.updateSleepState_entity dt
       (PhysicsWorld.integrate_entity dt (PhysicsWorld.applyForces_entity dt e))].
Proof.
  unfold PhysicsWorld.update. cbv zeta.
  unfold PhysicsWorld.applyForces, PhysicsWorld.integrate. cbn [PhysicsWorld.entities map].
  set (e1 := PhysicsWorld.integrate_entity dt _).
  assert (forall n cs', PhysicsWorld.entities
            (Nat.iter n (PhysicsWorld.subStep dt) (PhysicsWorld.new [e1] cs')) = [e1]) as Hsub.
  { induction n as [|n IH]; intros cs'; [reflexivity|].
    rewrite Nat.iter_succ. specialize (IH cs').
    destruct (Nat.iter n _ _) as [l cs'']. cbn in IH. subst l.
    unfold PhysicsWorld.subStep, PhysicsWorld.resolveCollisions,
      PhysicsWorld.detectCollisions. cbn.
    by destruct (Entity.isStatic e1 && negb (Entity.canCollideStatic e1)). }
  unfold PhysicsWorld.updateSleepState. cbn [PhysicsWorld.entities].
  by rewrite Hsub.
Qed.

(** In free flight the sleep update never puts the body to sleep: a slow
    body is fast again one tick later. *)
Lemma tick_steady (e : Entity.t R) :
  steady e ->
  let e' := PhysicsWorld.updateSleepState_entity TIME_STEP
              (PhysicsWorld.integrate_entity TIME_STEP
                 (PhysicsWorld.applyForces_entity TIME_STEP e)) in
  steady e' /\
  (Entity.position e', Entity.velocity e')
  = flightStep (Entity.position e, Entity.velocity e).
Proof.
  intros (Hs & Hz & Hm & Ht). cbv zeta.
  destruct (forces_integrate_flight e Hs Hz) as (Hpv & Hs1 & Hz1 & Hm1 & Hc1 & Ht1).
  { js_real. by apply Rltb_true. }
  cbv zeta in *. set (e1 := PhysicsWorld.integrate_entity _ _) in *.
  pose proof (f_equal snd Hpv) as Hv1. unfold flightStep in Hv1. cbn [fst snd] in Hv1.
  rewrite <- Hpv. clear Hpv.
  unfold PhysicsWorld.updateSleepState_entity. rewrite Hs1. cbn [orb].
  destruct (Entity.canSleep e1) eqn:Hc; cbn [negb]; cbv zeta.
  2:{ split; [|reflexivity].
      split; [exact Hs1|]. split; [exact Hz1|]. split; [lra | congruence]. }
  unfold MIN_VELOCITY_FOR_SLEEP, SLEEP_DELAY_FRAMES, TIME_STEP in *. js_real.
  destruct (Rlt_dec (Vec2.lenSq (Entity.velocity e1)) (2 * 2)) as [Hslow|Hfast].
  - rewrite Rltb_true by done. cbn [Entity.sleepTimer Entity.set_sleepTimer].
    destruct Ht as [Ht|Ht]; [congruence| |].
    + rewrite Ht1, Ht, Rleb_false by lra.
      split; [|reflexivity].
      split; [exact Hs1|]. split; [exact Hz1|]. split; [cbn; lra|].
      intros _. right. exact Hslow.
    + exfalso. revert Hslow. rewrite Hv1.
      destruct (Entity.velocity e) as [vx vy].
      unfold Vec2.lenSq, Vec2.dot, Vec2.mul, Vec2.add, GRAVITY, GRAVITY_ACCEL,
        pixelsPerMeter, FRICTION, dec in *. js_real.
      assert (-2 < vy) as Hvy by nra.
      assert (14 < (vy + 981 / 100 * 100 * (1 / 60)) * (98 / 100)) as Hy by lra.
      nra.
  - rewrite Rltb_false by lra.
    split; [|reflexivity].
    split; [exact Hs1|]. split; [reflexivity|]. split; [cbn; lra|].
    intros _. left. reflexivity.
Qed.

Lemma live_flight (n : nat) : forall (e : Entity.t R) cs,
  steady e ->
  exists e',
    PhysicsWorld.entities
      (Nat.iter n (fun w => PhysicsWorld.update w TIME_STEP) (PhysicsWorld.new [e] cs))
    = [e'] /\
    steady e' /\
    (Entity.position e', Entity.velocity e')
    = Nat.iter n flightStep (Entity.position e, Entity.velocity e).
Proof.
  induction n as [|n IH]; intros e cs He.
  - exists e. auto.
  - destruct (IH e cs He) as (en & Hen & Hsn & Hpv).
    rewrite !Nat.iter_succ.
    destruct (Nat.iter n _ (PhysicsWorld.new [e] cs)) as [l csn]. cbn in Hen. subst l.
    rewrite update_lone. destruct (tick_steady en Hsn) as [Hs' Hpv'].
    eexists. split; [reflexivity|]. split; [exact Hs'|].
    cbv zeta in Hpv'. by rewrite Hpv', Hpv.
Qed.

(** The sleep update leaves every body that can sleep with its timer at
    [0] or with a speed below the sleep threshold; [wake()], which
    [attachBird] and [launch] call, leaves the timer at [0]. *)
Lemma sleep_update_timer (dt : R) (e : Entity.t R) :
  Entity.isStatic e = false -> Entity.canSleep e = true ->
  let e' := PhysicsWorld.updateSleepState_entity dt e in
  Entity.sleepTimer e' = 0 \/
  Vec2.lenSq (Entity.velocity e') < MIN_VELOCITY_FOR_SLEEP * MIN_VELOCITY_FOR_SLEEP.
Proof.
  intros Hs Hc. cbv zeta. unfold PhysicsWorld.updateSleepState_entity.
  rewrite Hs, Hc. cbn [orb negb]. cbv zeta.
  unfold MIN_VELOCITY_FOR_SLEEP. js_real. unfold Rltb.
  destruct (Rlt_dec (Vec2.lenSq (Entity.velocity e)) (2 * 2)) as [Hslow|Hfast].
  - right. match goal with |- context [if ?c then _ else _] => destruct c end; cbn.
    + unfold Vec2.lenSq, Vec2.dot, Vec2.zero. js_real. lra.
    + exact Hslow.
  - left. reflexivity.
Qed.

(** The loop does not leave before a point of the flight fails its tests:
    when the points [1 .. k-1] of the flight pass them and [k <= steps],
    the loop has run exactly [k] iterations after [k] rounds, and it has
    left exactly when point [k] fails them.  This holds for every
    arithmetic. *)
Lemma loop_runs {N} `{JSNumber N} (cw ch : N) steps startPos startVel k :
  (k <= steps)%nat ->
  (forall n, (1 <= n < k)%nat -> leftField cw ch (flightPos startPos startVel n) = false) ->
  let s := Nat.iter k (Main.loopBody cw ch steps) (Main.loopInit startPos startVel) in
  Main.i s = k /\
  Main.stopped s
  = match k with
    | O => false
    | S _ => leftField cw ch (flightPos startPos startVel k)
    end.
Proof.
  induction k as [|k IH]; intros Hk Hfield; [by split|].
  rewrite Nat.iter_succ. cbv zeta in *.
  pose proof (loop_flight cw ch steps startPos startVel k) as Hpv. cbv zeta in Hpv.
  destruct IH as [Hi Hst]; [lia | intros n Hn; apply Hfield; lia |].
  set (s := Nat.iter k _ _) in *.
  assert (Main.stopped s = false) as Hrun.
  { rewrite Hst. destruct k as [|k']; [done|]. apply Hfield. lia. }
  unfold Main.loopBody. rewrite Hrun, Hi.
  assert ((k <? steps)%nat = true) as -> by (apply Nat.ltb_lt; lia).
  cbn [orb negb]. cbv zeta.
  assert (Vec2.add (Main.currentPos s)
            (Vec2.mul
               (Vec2.mul
                  (Vec2.add (Main.currentVel s)
                     (Vec2.new (ofZ 0) (GRAVITY * TIME_STEP)%js)) FRICTION)
               TIME_STEP)
          = flightPos startPos startVel (S k)) as ->.
  { unfold flightPos. rewrite Nat.iter_succ, <- Hi, <- Hpv. reflexivity. }
  unfold leftField.
  destruct (nltb (ch - ofZ 50)%js (Vec2.y (flightPos startPos startVel (S k))));
    [by split|].
  cbn [orb].
  by destruct (_ || _).
Qed.

(** A round of the loop keeps the points pushed so far. *)
Lemma loopBody_keeps_points {N} `{JSNumber N} (cw ch : N) steps (s : Main.Loop N) p :
  In p (Main.pts s) -> In p (Main.pts (Main.loopBody cw ch steps s)).
Proof.
  intros Hin. unfold Main.loopBody.
  destruct (Main.stopped s || negb (Main.i s <? steps)%nat); [done|]. cbv zeta.
  repeat match goal with
         | |- context [if ?c then _ else _] => destruct c
         | |- context [match ?c with Some _ => _ | None => _ end] => destruct c
         end;
    cbn [Main.pts]; rewrite ?in_app_iff; auto.
Qed.

Lemma loop_keeps_points {N} `{JSNumber N} (cw ch : N) steps (s : Main.Loop N) p m :
  In p (Main.pts s) -> In p (Main.pts (Nat.iter m (Main.loopBody cw ch steps) s)).
Proof.
  intros Hin. induction m as [|m IH]; [done|].
  rewrite Nat.iter_succ. by apply loopBody_keeps_points.
Qed.

(** Every third point of the flight that the loop reaches is in the list
    [simulateTrajectory] returns, as is the start position. *)
Lemma loop_pushes {N} `{JSNumber N} (cw ch : N) steps startPos startVel k :
  (k <= steps)%nat ->
  (forall n, (1 <= n < k)%nat -> leftField cw ch (flightPos startPos startVel n) = false) ->
  k = 0%nat \/ ((k - 1) mod 3 = 0)%nat ->
  In (flightPos startPos startVel k)
     (Main.simulateTrajectory cw ch startPos startVel steps).
Proof.
  intros Hk Hfield Hthird. unfold Main.simulateTrajectory.
  assert (forall q : Vec2.t N, Vec2.new (Vec2.x q) (Vec2.y q) = q) as Heta
    by (by intros []).
  set (f := Main.loopBody cw ch steps).
  assert (Nat.iter steps f (Main.loopInit startPos startVel)
          = Nat.iter (steps - k) f (Nat.iter k f (Main.loopInit startPos startVel)))
    as ->.
  { rewrite <- Nat.iter_add. f_equal. lia. }
  subst f. apply loop_keeps_points.
  destruct k as [|j].
  - cbn. left. apply Heta.
  - destruct Hthird as [|Hthird]; [done|].
    replace (S j - 1)%nat with j in Hthird by lia.
    rewrite Nat.iter_succ.
    pose proof (loop_flight cw ch steps startPos startVel j) as Hpv. cbv zeta in Hpv.
    destruct (loop_runs cw ch steps startPos startVel j) as [Hi Hst];
      [lia | intros n Hn; apply Hfield; lia |].
    cbv zeta in *. set (s := Nat.iter j _ _) in *.
    assert (Main.stopped s = false) as Hrun.
    { rewrite Hst. destruct j as [|j']; [done|]. apply Hfield. lia. }
    unfold Main.loopBody. rewrite Hrun, Hi.
    assert ((j <? steps)%nat = true) as -> by (apply Nat.ltb_lt; lia).
    cbn [orb negb]. cbv zeta.
    assert (Vec2.add (Main.currentPos s)
              (Vec2.mul
                 (Vec2.mul
                    (Vec2.add (Main.currentVel s)
                       (Vec2.new (ofZ 0) (GRAVITY * TIME_STEP)%js)) FRICTION)
                 TIME_STEP)
            = flightPos startPos startVel (S j)) as ->.
    { unfold flightPos. rewrite Nat.iter_succ, <- Hi, <- Hpv. reflexivity. }
    assert ((j mod 3 =? 0)%nat = true) as -> by (by apply Nat.eqb_eq).
    rewrite Heta.
    repeat match goal with
           | |- context [if ?c then _ else _] => destruct c
           | |- context [match ?c with Some _ => _ | None => _ end] => destruct c
           end;
      cbn [Main.pts]; rewrite ?in_app_iff; cbn [In]; auto.
Qed.

(** C1. Take a body that is not static, is awake and has positive mass,
    alone in a world, with its sleep timer at [0] unless its speed is
    below the sleep threshold (the state [wake()] and the sleep update
    leave a body in), and start the loop of [simulateTrajectory] at the
    position and the velocity of the body, whatever the canvas size.  Let
    [k <= steps], and let the points [1 .. k-1] of the flight pass the
    tests of the loop (not below the ground line, not off the canvas by
    more than 100).  Then after [k] rounds the loop has run exactly [k]
    iterations; its current point and velocity are the position and the
    velocity of the body after [k] ticks of [update], and the body is
    awake; the loop has left exactly when point [k] fails the tests; and
    for [k = 0] and for every [k] with [(k - 1) mod 3 = 0] that position is
    in the list [simulateTrajectory] returns. *)
Theorem predictor_mirrors_stepper (canvas_width canvas_height : R) (steps k : nat)
    (body : Entity.t R) :
  Entity.isStatic body = false ->
  Entity.isSleeping body = false ->
  0 < Entity.mass body ->
  (Entity.sleepTimer body = 0 \/
   Vec2.lenSq (Entity.velocity body)
   < MIN_VELOCITY_FOR_SLEEP * MIN_VELOCITY_FOR_SLEEP) ->
  (k <= steps)%nat ->
  (forall n, (1 <= n < k)%nat ->
     leftField canvas_width canvas_height
       (flightPos (Entity.position body) (Entity.velocity body) n) = false) ->
  let s :=
    Nat.iter k (Main.loopBody canvas_width canvas_height steps)
      (Main.loopInit (Entity.position body) (Entity.velocity body)) in
  let w :=
    Nat.iter k (fun w => PhysicsWorld.update w TIME_STEP) (PhysicsWorld.new [body] []) in
  Main.i s = k /\
  exists body',
    PhysicsWorld.entities w = [body'] /\
    Entity.position body' = Main.currentPos s /\
    Entity.velocity body' = Main.currentVel s /\
    Entity.isSleeping body' = false /\
    Main.stopped s
    = match k with
      | O => false
      | S _ => leftField canvas_width canvas_height (Entity.position body')
      end /\
    (k = 0%nat \/ ((k - 1) mod 3 = 0)%nat ->
     In (Entity.position body')
        (Main.simulateTrajectory canvas_width canvas_height
           (Entity.position body) (Entity.velocity body) steps)).
Proof.
  intros Hs Hz Hm Ht Hk Hfield s w.
  destruct (loop_runs canvas_width canvas_height steps
              (Entity.position body) (Entity.velocity body) k Hk Hfield) as [Hi Hst].
  cbv zeta in Hi, Hst. fold s in Hi, Hst. split; [exact Hi|].
  assert (steady body) as Hb by (repeat split; auto).
  destruct (live_flight k body [] Hb) as (body' & Hw & Hs' & Hpv).
  exists body'. split; [exact Hw|].
  pose proof (loop_flight canvas_width canvas_height steps
                (Entity.position body) (Entity.velocity body) k) as Hloop.
  cbv zeta in Hloop. fold s in Hloop. rewrite Hi in Hloop.
  assert (Entity.position body'
          = flightPos (Entity.position body) (Entity.velocity body) k) as Hflight.
  { unfold flightPos. by rewrite <- Hpv. }
  rewrite <- Hloop in Hpv. injection Hpv as Hp Hv. destruct Hs' as (_ & Hz' & _).
  split; [exact Hp|]. split; [exact Hv|]. split; [exact Hz'|]. split.
  - rewrite Hst. destruct k; [done|]. by rewrite Hflight.
  - intros Hthird. rewrite Hflight. by apply loop_pushes.
Qed.

End Real.

(** * Concrete runs *)

Section Runs.
Local Open Scope float_scope.

(** C3, a tie.  Two 2 x 2 boxes with centres [(1, 1)] and [(2, 2)] overlap
    by [1] on each axis; the contact is along Y, with normal [(0, 1)]: X
    is not chosen when the two overlaps are equal. *)
Lemma aabb_tie_resolves_along_Y :
  let boxA : Entity.t float := Block.create 0 0 2 2 Wood false in
  let boxB : Entity.t float := Block.create 1 1 2 2 Wood false in
  let vec := Vec2.sub (Entity.position boxB) (Entity.position boxA) in
  (2 / 2 + 2 / 2) - abs (Vec2.x vec) = 1 /\
  (2 / 2 + 2 / 2) - abs (Vec2.y vec) = 1 /\
  PhysicsWorld.checkCollision 0 boxA 1 boxB
  = Some (PhysicsWorld.mkContact 0 1 (Vec2.new 0 1) 1).
Proof. cbv zeta. repeat split; vm_compute; reflexivity. Qed.


(** C1 in binary64, on one flight.  For a bird launched from the rest
    position of level 1 with velocity [(300, -400)], the point of the
    predictor after [k] rounds and the position of the bird after [k] ticks
    are the same doubles, for every [k] up to 40. *)
Lemma predictor_bit_exact_on_a_flight :
  let body := birdAt 160 555 300 (-400) in
  map (fun k =>
         Some (Main.currentPos
                 (Nat.iter k (Main.loopBody 1280 720 150)
                    (Main.loopInit (Entity.position body) (Entity.velocity body)))))
      (seq 0 41)
  = map (fun k =>
           option_map Entity.position
             (head (PhysicsWorld.entities
                      (Nat.iter k (fun w => PhysicsWorld.update w TIME_STEP)
                         (PhysicsWorld.new [body] [])))))
        (seq 0 41).
Proof. vm_compute. reflexivity. Qed.

(** C8, no pull.  On the slingshot of level 1, the bird is attached, the
    pointer goes down on the bird and is released where it went down.  The
    drag vector is [(0, 0)], the launch vector is [(0, 20)], [endAim]
    returns [true] and the bird is flying. *)
Theorem release_without_pull_launches :
  let slingshot : Slingshot.t float := Slingshot.create 150 570 in
  let pointerPos := Vec2.new 160 555 in
  let '(slingshot, store) := Slingshot.attachBird slingshot [Bird.create 0 0] 0 in
  let '(started, slingshot) := Slingshot.startAim slingshot store pointerPos in
  let '(slingshot, store) := Slingshot.updateAim slingshot store pointerPos in
  let '(launched, _, store') := Slingshot.endAim slingshot store in
  started = true /\
  option_map (Vec2.sub pointerPos) (Slingshot.dragStartPos slingshot)
  = Some (Vec2.new 0 0) /\
  Slingshot.getLaunchVelocity slingshot store = Vec2.new 0 20 /\
  launched = true /\
  option_map Entity.state (store' !! 0%nat) = Some (Some Flying).
Proof. vm_compute. repeat split; reflexivity. Qed.

(** C9, coincident centres.  A circle whose centre is the centre of a box
    gets a contact whose normal is [(0, 0)], of length [0]. *)
Theorem circle_at_box_centre_has_zero_normal :
  let circle : Entity.t float := Bird.create 100 150 in
  let box : Entity.t float := Block.create 50 140 100 20 Stone true in
  PhysicsWorld.checkCollision 0 circle 1 box
  = Some (PhysicsWorld.mkContact 0 1 (Vec2.new 0 0) 20) /\
  Vec2.len (Vec2.new 0 0 : Vec2.t float) = 0.
Proof. cbv zeta. split; vm_compute; reflexivity. Qed.

End Runs.

(** * The theorems at concrete inputs *)

Section Witnesses.

(** C1 at a ball of mass 5 launched from [(160, 555)] with velocity
    [(300, -400)], after 4 rounds of the loop: the points 1, 2 and 3 of
    the flight pass the tests of the loop. *)
Lemma predictor_mirrors_stepper_witness :
  let body := ball 160 555 300 (-400) 5 in
  let s :=
    Nat.iter 4 (Main.loopBody 1280%R 720%R 150)
      (Main.loopInit (Entity.position body) (Entity.velocity body)) in
  let w :=
    Nat.iter 4 (fun w => PhysicsWorld.update w TIME_STEP) (PhysicsWorld.new [body] []) in
  (forall n, (1 <= n < 4)%nat ->
     leftField 1280%R 720%R
       (flightPos (Entity.position body) (Entity.velocity body) n) = false) /\
  Main.i s = 4%nat /\
  exists body',
    PhysicsWorld.entities w = [body'] /\
    Entity.position body' = Main.currentPos s /\
    Entity.velocity body' = Main.currentVel s /\
    Entity.isSleeping body' = false /\
    Main.stopped s = leftField 1280%R 720%R (Entity.position body') /\
    (4%nat = 0%nat \/ ((4 - 1) mod 3 = 0)%nat ->
     In (Entity.position body')
        (Main.simulateTrajectory 1280%R 720%R
           (Entity.position body) (Entity.velocity body) 150)).
Proof.
  cbv zeta.
  assert (forall n, (1 <= n < 4)%nat ->
            leftField 1280%R 720%R
              (flightPos (Entity.position (ball 160 555 300 (-400) 5))
                 (Entity.velocity (ball 160 555 300 (-400) 5)) n) = false) as Hfield.
  { intros n Hn.
    assert (n = 1 \/ n = 2 \/ n = 3)%nat as [-> | [-> | ->]] by lia;
      unfold leftField, flightPos, Nat.iter; cbn [nat_rect];
      unfold flightStep, ball, Vec2.add, Vec2.mul,
        GRAVITY, GRAVITY_ACCEL, pixelsPerMeter, TIME_STEP, FRICTION, dec;
      cbn [fst snd Entity.position Entity.velocity]; js_real;
      rewrite !Rltb_false by lra; reflexivity. }
  split; [exact Hfield|].
  apply (predictor_mirrors_stepper 1280%R 720%R 150 4 (ball 160 555 300 (-400) 5));
    [reflexivity | reflexivity | cbn; lra | left; reflexivity | lia | exact Hfield].
Defined.

(** C2 at two balls of radius 10 with centres [(0, 0)] and [(3, 4)]. *)
Lemma circle_circle_contact_witness :
  let ea := ball 0 0 0 0 5 in
  let eb := ball 3 4 0 0 5 in
  let distVec := Vec2.sub (Entity.position eb) (Entity.position ea) in
  let distance := Vec2.len distVec in
  (distance < 10 + 10 ->
   exists normal,
     PhysicsWorld.checkCollision 0 ea 1 eb
     = Some (PhysicsWorld.mkContact 0 1 normal (10 + 10 - distance)) /\
     (Entity.position eb <> Entity.position ea ->
      normal = Vec2.new (Vec2.x distVec / distance) (Vec2.y distVec / distance)) /\
     (Entity.position eb = Entity.position ea -> normal = Vec2.new 1 0))%R /\
  (10 + 10 <= distance -> PhysicsWorld.checkCollision 0 ea 1 eb = None)%R.
Proof.
  apply (circle_circle_contact 0 1 (ball 0 0 0 0 5) (ball 3 4 0 0 5) 10 10);
    [reflexivity | reflexivity | lra | lra].
Defined.

(** C3 at two 2 x 2 boxes with centres [(1, 1)] and [(2, 2)]. *)
Lemma aabb_aabb_contact_witness :
  let ea := box 1 1 2 2 in
  let eb := box 2 2 2 2 in
  let vec := Vec2.sub (Entity.position eb) (Entity.position ea) in
  let overlapX := (2 / 2 + 2 / 2 - Rabs (Vec2.x vec))%R in
  let overlapY := (2 / 2 + 2 / 2 - Rabs (Vec2.y vec))%R in
  (overlapX < overlapY ->
   PhysicsWorld.checkCollision 0 ea 1 eb
   = Some (PhysicsWorld.mkContact 0 1 (Vec2.new (deltaSign (Vec2.x vec)) 0%R) overlapX))%R /\
  (overlapY <= overlapX ->
   PhysicsWorld.checkCollision 0 ea 1 eb
   = Some (PhysicsWorld.mkContact 0 1 (Vec2.new 0%R (deltaSign (Vec2.y vec))) overlapY))%R.
Proof.
  assert (Rabs (2 - 1) = 1)%R as Habs by (rewrite Rabs_pos_eq; lra).
  apply (aabb_aabb_contact 0 1 (box 1 1 2 2) (box 2 2 2 2) 2 2 2 2);
    [reflexivity | reflexivity | |]; cbn; rewrite Habs; lra.
Defined.

(** C4 at the ground block under an overlapping bird, after 3 ticks. *)
Lemma static_body_unchanged_witness :
  PhysicsWorld.entities birdThenGround !! 1%nat = Some groundBlock /\
  Entity.isStatic groundBlock = true /\
  exists e',
    PhysicsWorld.entities
      (Nat.iter 3 (fun w => PhysicsWorld.update w TIME_STEP) birdThenGround) !! 1%nat
      = Some e' /\
    Entity.isStatic e' = true /\
    Entity.position e' = Entity.position groundBlock /\
    Entity.velocity e' = Entity.velocity groundBlock.
Proof.
  split; [reflexivity|]. split; [reflexivity|].
  apply (static_body_unchanged birdThenGround TIME_STEP 3 1 groundBlock); reflexivity.
Defined.

(** C5 at two balls of mass 5 with velocities [(3, 0)] and [(-2, 0)] and the
    normal [(1, 0)]. *)
Lemma head_on_exchange_witness :
  let ea := ball 0 0 3 0 5 in
  let eb := ball 15 0 (-2) 0 5 in
  let result := PhysicsWorld.resolvePair ea eb (Vec2.new 1%R 0%R) 5%R in
  Entity.velocity result.1 = Entity.velocity eb /\
  Entity.velocity result.2 = Entity.velocity ea.
Proof.
  apply (head_on_exchange (ball 0 0 3 0 5) (ball 15 0 (-2) 0 5) (Vec2.new 1%R 0%R)
           5%R 5%R 3%R (-2)%R);
    try reflexivity; try lra.
  - unfold Vec2.lenSq, Vec2.dot. cbn. lra.
  - unfold ball, Vec2.mul. cbn. f_equal; lra.
  - unfold ball, Vec2.mul. cbn. f_equal; lra.
Defined.

(** C6 at a fresh bird ([hp] 50, threshold 100) hit with magnitude 1200. *)
Lemma collision_damage_witness :
  let e := Bird.create 0%float 0%float in
  Entity.isStatic e = false /\
  (1200%float >? Entity.damageThreshold e)%js = true /\
  Entity.hp hitBird = (50 - 1200 * (5 / 100))%float /\
  Entity.markedForRemoval hitBird = true.
Proof.
  pose proof (collision_damage (Bird.create 0%float 0%float) groundBlock 1200%float
                eq_refl) as (Hhp & _ & Hmark & _).
  split; [reflexivity|]. split; [reflexivity|]. split.
  - exact (Hhp eq_refl).
  - exact Hmark.
Defined.


(** C10 at the ground block followed by a bird that overlaps it. *)
Lemma static_first_never_collides_witness :
  PhysicsWorld.entities groundThenBird !! 0%nat = Some groundBlock /\
  Entity.isStatic groundBlock = true /\
  Entity.canCollideStatic groundBlock = false /\
  (forall c, In c (PhysicsWorld.detectCollisions groundThenBird) -> ~ between c 0 1) /\
  (forall bird c,
     In c (PhysicsWorld.detectCollisions (PhysicsWorld.addEntity groundThenBird bird)) ->
     ~ between c 0 (length (PhysicsWorld.entities groundThenBird))).
Proof.
  split; [reflexivity|]. split; [reflexivity|]. split; [reflexivity|].
  apply (static_first_never_collides groundThenBird 0 1 groundBlock);
    [lia | reflexivity | reflexivity | reflexivity].
Defined.

End Witnesses.

(** * Further properties, for every arithmetic *)

Section Detection.
Context {N : Type} `{JSNumber N}.
Local Open Scope js_scope.

Lemma detectInner_inv i (entityA : Entity.t N) rest : forall j c,
  In c (PhysicsWorld.detectInner i entityA j rest) ->
  exists m entityB,
    rest !! m = Some entityB /\ pairSkipped entityA entityB = false /\
    PhysicsWorld.checkCollision i entityA (j + m) entityB = Some c.
Proof.
  induction rest as [|entityB rest IH]; intros j c Hin; cbn in Hin; [done|].
  apply in_app_or in Hin as [Hin|Hin].
  - exists 0%nat, entityB. rewrite Nat.add_0_r. unfold pairSkipped.
    destruct (_ || _); [done|].
    destruct (PhysicsWorld.checkCollision i entityA j entityB) as [c'|]; [|done].
    destruct Hin as [<-|[]]. auto.
  - destruct (IH _ _ Hin) as (m & B & Hm & Hskip & Hc).
    exists (S m), B. replace (j + S m)%nat with (S j + m)%nat by lia. auto.
Qed.

Lemma detectInner_complete i (entityA : Entity.t N) rest : forall j m entityB c,
  rest !! m = Some entityB -> pairSkipped entityA entityB = false ->
  PhysicsWorld.checkCollision i entityA (j + m) entityB = Some c ->
  In c (PhysicsWorld.detectInner i entityA j rest).
Proof.
  induction rest as [|B rest IH]; intros j m entityB c Hm Hskip Hc; [done|].
  cbn. apply in_or_app. destruct m as [|m].
  - left. cbn in Hm. injection Hm as ->. rewrite Nat.add_0_r in Hc.
    unfold pairSkipped in Hskip. rewrite Hskip, Hc. by left.
  - right. apply (IH (S j) m entityB); auto.
    by replace (S j + m)%nat with (j + S m)%nat by lia.
Qed.

Lemma detectOuter_inv (rest : list (Entity.t N)) : forall i0 c,
  In c (PhysicsWorld.detectOuter i0 rest) ->
  exists k m entityA entityB,
    (k < m)%nat /\ rest !! k = Some entityA /\ rest !! m = Some entityB /\
    rowSkipped entityA = false /\ pairSkipped entityA entityB = false /\
    PhysicsWorld.checkCollision (i0 + k) entityA (i0 + m) entityB = Some c.
Proof.
  induction rest as [|entityA rest IH]; intros i0 c Hin; cbn in Hin; [done|].
  apply in_app_or in Hin as [Hin|Hin].
  - unfold rowSkipped.
    destruct (Entity.isStatic entityA && negb (Entity.canCollideStatic entityA)) eqn:Hrow;
      [done|].
    destruct (detectInner_inv _ _ _ _ _ Hin) as (m & B & Hm & Hskip & Hc).
    exists 0%nat, (S m), entityA, B. rewrite Nat.add_0_r.
    replace (i0 + S m)%nat with (S i0 + m)%nat by lia.
    repeat split; auto. lia.
  - destruct (IH _ _ Hin) as (k & m & A & B & Hkm & Hk & Hm & Hrow & Hskip & Hc).
    exists (S k), (S m), A, B.
    replace (i0 + S k)%nat with (S i0 + k)%nat by lia.
    replace (i0 + S m)%nat with (S i0 + m)%nat by lia.
    repeat split; auto. lia.
Qed.

Lemma detectOuter_complete (rest : list (Entity.t N)) : forall i0 k m entityA entityB c,
  (k < m)%nat -> rest !! k = Some entityA -> rest !! m = Some entityB ->
  rowSkipped entityA = false -> pairSkipped entityA entityB = false ->
  PhysicsWorld.checkCollision (i0 + k) entityA (i0 + m) entityB = Some c ->
  In c (PhysicsWorld.detectOuter i0 rest).
Proof.
  induction rest as [|A rest IH]; intros i0 k m entityA entityB c Hkm Hk Hm Hrow Hskip Hc;
    [done|].
  cbn. apply in_or_app. destruct k as [|k].
  - left. cbn in Hk. injection Hk as ->. unfold rowSkipped in Hrow. rewrite Hrow.
    destruct m as [|m]; [lia|]. cbn in Hm. rewrite Nat.add_0_r in Hc.
    apply (detectInner_complete _ _ _ (S i0) m entityB); auto.
    by replace (S i0 + m)%nat with (i0 + S m)%nat by lia.
  - right. destruct m as [|m]; [lia|]. cbn in Hk, Hm.
    apply (IH (S i0) k m entityA entityB); auto; [lia|].
    by replace (S i0 + k)%nat with (i0 + S k)%nat by lia;
       replace (S i0 + m)%nat with (i0 + S m)%nat by lia.
Qed.

(** X1. [detectCollisions] returns exactly the contacts [checkCollision]
    finds for the pairs [i < j] of the list whose row ([entities[i]] static
    without [canCollideStatic]) and whose pair (both static, or both
    sleeping) is not skipped. *)
Theorem detectCollisions_characterised (w : PhysicsWorld.t N) c :
  In c (PhysicsWorld.detectCollisions w) <->
  exists i j entityA entityB,
    (i < j)%nat /\
    PhysicsWorld.entities w !! i = Some entityA /\
    PhysicsWorld.entities w !! j = Some entityB /\
    rowSkipped entityA = false /\ pairSkipped entityA entityB = false /\
    PhysicsWorld.checkCollision i entityA j entityB = Some c.
Proof.
  unfold PhysicsWorld.detectCollisions. split.
  - intros Hin. apply detectOuter_inv in Hin. exact Hin.
  - intros (i & j & A & B & Hij & Hi & Hj & Hrow & Hskip & Hc).
    by apply (detectOuter_complete _ 0 i j A B).
Qed.

Lemma checkCollision_shapes i (ea : Entity.t N) j eb c :
  PhysicsWorld.checkCollision i ea j eb = Some c ->
  Entity.collisionShape ea <> NoShape /\ Entity.collisionShape eb <> NoShape.
Proof.
  unfold PhysicsWorld.checkCollision.
  destruct (Entity.collisionShape ea), (Entity.collisionShape eb); done.
Qed.

(** X2. Every contact of [detectCollisions] refers to two different bodies
    of the list; the two are not both static and not both sleeping, and
    each has a circle or a box as its shape. *)
Theorem contact_bodies (w : PhysicsWorld.t N) c :
  In c (PhysicsWorld.detectCollisions w) ->
  PhysicsWorld.a c <> PhysicsWorld.b c /\
  exists ea eb,
    PhysicsWorld.entities w !! PhysicsWorld.a c = Some ea /\
    PhysicsWorld.entities w !! PhysicsWorld.b c = Some eb /\
    Entity.isStatic ea && Entity.isStatic eb = false /\
    Entity.isSleeping ea && Entity.isSleeping eb = false /\
    Entity.collisionShape ea <> NoShape /\ Entity.collisionShape eb <> NoShape.
Proof.
  intros Hin. apply detectCollisions_characterised in Hin
    as (i & j & A & B & Hij & Hi & Hj & Hrow & Hskip & Hc).
  destruct (checkCollision_shapes _ _ _ _ _ Hc) as [HsA HsB].
  unfold pairSkipped in Hskip. apply orb_false_iff in Hskip as [Hst Hsl].
  destruct (checkCollision_between _ _ _ _ _ Hc) as [[-> ->]|[-> ->]].
  - split; [lia|]. exists A, B. repeat split; auto.
  - split; [lia|]. exists B, A. rewrite (andb_comm (Entity.isStatic B)),
      (andb_comm (Entity.isSleeping B)). repeat split; auto.
Qed.

End Detection.


Section Resolution.
Context {N : Type} `{JSNumber N}.
Local Open Scope js_scope.

Lemma wakeIfSleeping_awake (e : Entity.t N) :
  Entity.isSleeping (Blocks.wakeIfSleeping e) = false.
Proof. unfold Blocks.wakeIfSleeping. by destruct (Entity.isSleeping e) eqn:Hz. Qed.

Lemma correctPosition_isSleeping (e : Entity.t N) target :
  Entity.isSleeping (Blocks.correctPosition e target) = Entity.isSleeping e.
Proof.
  unfold Blocks.correctPosition, Blocks.revertPosition. by repeat case_match.
Qed.

Lemma applyImpulse_isSleeping (e : Entity.t N) target :
  Entity.isSleeping (Blocks.applyImpulse e target) = Entity.isSleeping e.
Proof.
  unfold Blocks.applyImpulse, Blocks.revertVelocity. by repeat case_match.
Qed.

Lemma onCollision_awake (e other : Entity.t N) m :
  Entity.isSleeping (Entity.onCollision e other m) = false.
Proof. unfold Entity.onCollision, Entity.takeDamage. by repeat case_match. Qed.

Lemma resolvePair_awake (ea eb : Entity.t N) normal penetration :
  Entity.isSleeping (PhysicsWorld.resolvePair ea eb normal penetration).1 = false /\
  Entity.isSleeping (PhysicsWorld.resolvePair ea eb normal penetration).2 = false.
Proof.
  rewrite resolvePair_blocks. unfold Blocks.composed. cbv zeta.
  repeat match goal with
         | |- context [if ?c then (_, _) else _] => destruct c
         end; cbn [fst snd];
    rewrite ?onCollision_awake, ?correctPosition_isSleeping, ?wakeIfSleeping_awake;
    auto.
Qed.

(** X3. Resolving one contact keeps the number of bodies, leaves every
    body other than the two of the contact exactly as it was, and leaves
    the two bodies of the contact awake. *)
Theorem resolveCollision_touches_its_two_bodies (entities : list (Entity.t N))
    (collision : PhysicsWorld.Contact N) (ea eb : Entity.t N) :
  entities !! PhysicsWorld.a collision = Some ea ->
  entities !! PhysicsWorld.b collision = Some eb ->
  let entities' := PhysicsWorld.resolveCollision entities collision in
  length entities' = length entities /\
  (forall idx, idx <> PhysicsWorld.a collision -> idx <> PhysicsWorld.b collision ->
               entities' !! idx = entities !! idx) /\
  (exists ea', entities' !! PhysicsWorld.a collision = Some ea' /\
               Entity.isSleeping ea' = false) /\
  (exists eb', entities' !! PhysicsWorld.b collision = Some eb' /\
               Entity.isSleeping eb' = false).
Proof.
  intros Ha Hb. cbv zeta. unfold PhysicsWorld.resolveCollision. rewrite Ha, Hb.
  pose proof (resolvePair_awake ea eb (PhysicsWorld.normal collision)
                (PhysicsWorld.penetration collision)) as [Za Zb].
  destruct (PhysicsWorld.resolvePair ea eb _ _) as [ea' eb']. cbn [fst snd] in *.
  pose proof (lookup_lt_Some _ _ _ Ha) as La.
  pose proof (lookup_lt_Some _ _ _ Hb) as Lb.
  split; [by rewrite !length_insert|]. split; [|split].
  - intros idx Hna Hnb. by rewrite !list_lookup_insert_ne.
  - destruct (decide (PhysicsWorld.a collision = PhysicsWorld.b collision)) as [Heq|Hne].
    + exists eb'. rewrite Heq, list_lookup_insert_eq; [done|]. by rewrite length_insert.
    + exists ea'. rewrite list_lookup_insert_ne, list_lookup_insert_eq by done. done.
  - exists eb'. rewrite list_lookup_insert_eq; [done|]. by rewrite length_insert.
Qed.

(** *** Lifting a relation between the states of one body to the world *)

Section Lift.
Variable Rel : Entity.t N -> Entity.t N -> Prop.
Hypothesis Rel_refl : forall e, Rel e e.
Hypothesis Rel_trans : forall e1 e2 e3, Rel e1 e2 -> Rel e2 e3 -> Rel e1 e3.
Hypothesis Rel_applyForces : forall dt e, Rel e (PhysicsWorld.applyForces_entity dt e).
Hypothesis Rel_integrate : forall dt e, Rel e (PhysicsWorld.integrate_entity dt e).
Hypothesis Rel_sleep : forall dt e, Rel e (PhysicsWorld.updateSleepState_entity dt e).
Hypothesis Rel_resolvePair : forall ea eb normal penetration,
  Rel ea (PhysicsWorld.resolvePair ea eb normal penetration).1 /\
  Rel eb (PhysicsWorld.resolvePair ea eb normal penetration).2.

Lemma lift_refl (l : list (Entity.t N)) : Forall2 Rel l l.
Proof using Rel_refl. apply Forall_Forall2_diag, Forall_forall. auto. Qed.

Lemma lift_trans (l1 l2 l3 : list (Entity.t N)) :
  Forall2 Rel l1 l2 -> Forall2 Rel l2 l3 -> Forall2 Rel l1 l3.
Proof using Rel_trans. apply Forall2_trans. intros ???. apply Rel_trans. Qed.

Lemma lift_map (f : Entity.t N -> Entity.t N) l :
  (forall e, Rel e (f e)) -> Forall2 Rel l (map f l).
Proof. intros Hf. induction l; cbn; constructor; auto. Qed.

Lemma lift_resolveCollision (l : list (Entity.t N)) c :
  Forall2 Rel l (PhysicsWorld.resolveCollision l c).
Proof using Rel_refl Rel_resolvePair.
  unfold PhysicsWorld.resolveCollision.
  destruct (l !! PhysicsWorld.a c) as [ea|] eqn:Ha; [|apply lift_refl].
  destruct (l !! PhysicsWorld.b c) as [eb|] eqn:Hb; [|apply lift_refl].
  destruct (Rel_resolvePair ea eb (PhysicsWorld.normal c) (PhysicsWorld.penetration c))
    as [Ka Kb].
  destruct (PhysicsWorld.resolvePair ea eb _ _) as [ea' eb']. cbn [fst snd] in *.
  apply Forall2_same_length_lookup_2; [by rewrite !length_insert|].
  intros k e e' He He'.
  destruct (decide (k = PhysicsWorld.b c)) as [->|Hnb].
  - rewrite list_lookup_insert_eq in He'.
    + congruence.
    + rewrite length_insert. by eapply lookup_lt_Some.
  - rewrite list_lookup_insert_ne in He' by done.
    destruct (decide (k = PhysicsWorld.a c)) as [->|Hna].
    + rewrite list_lookup_insert_eq in He' by (by eapply lookup_lt_Some). congruence.
    + rewrite list_lookup_insert_ne in He' by done.
      assert (e = e') as -> by congruence. apply Rel_refl.
Qed.

Lemma lift_fold_resolve cs : forall l : list (Entity.t N),
  Forall2 Rel l (fold_left PhysicsWorld.resolveCollision cs l).
Proof using Rel_refl Rel_trans Rel_resolvePair.
  induction cs as [|c cs IH]; intros l; cbn.
  - apply lift_refl.
  - eapply lift_trans; [apply lift_resolveCollision | apply IH].
Qed.

Lemma lift_subSteps dt n : forall w : PhysicsWorld.t N,
  Forall2 Rel (PhysicsWorld.entities w)
    (PhysicsWorld.entities (Nat.iter n (PhysicsWorld.subStep dt) w)).
Proof using Rel_refl Rel_trans Rel_resolvePair.
  induction n as [|n IH]; intros w.
  - apply lift_refl.
  - rewrite Nat.iter_succ. eapply lift_trans; [apply IH | apply lift_fold_resolve].
Qed.

Lemma lift_update (w : PhysicsWorld.t N) dt :
  Forall2 Rel (PhysicsWorld.entities w) (PhysicsWorld.entities (PhysicsWorld.update w dt)).
Proof using All.
  unfold PhysicsWorld.update. cbv zeta.
  eapply lift_trans; [|apply lift_map, Rel_sleep].
  eapply lift_trans; [|apply lift_subSteps].
  eapply lift_trans; [|apply lift_map, Rel_integrate].
  apply lift_map, Rel_applyForces.
Qed.

Lemma lift_updates dt k : forall w : PhysicsWorld.t N,
  Forall2 Rel (PhysicsWorld.entities w)
    (PhysicsWorld.entities (Nat.iter k (fun w => PhysicsWorld.update w dt) w)).
Proof using All.
  induction k as [|k IH]; intros w.
  - apply lift_refl.
  - rewrite Nat.iter_succ. eapply lift_trans; [apply IH | apply lift_update].
Qed.

End Lift.

Lemma sameIdentity_refl (e : Entity.t N) : sameIdentity e e.
Proof. by repeat split. Qed.

Lemma sameIdentity_trans (e1 e2 e3 : Entity.t N) :
  sameIdentity e1 e2 -> sameIdentity e2 e3 -> sameIdentity e1 e3.
Proof.
  unfold sameIdentity. intros (?&?&?&?&?&?&?&?&?) (?&?&?&?&?&?&?&?&?).
  repeat split; congruence.
Qed.

Lemma sameIdentity_resolvePair (ea eb : Entity.t N) normal penetration :
  sameIdentity ea (PhysicsWorld.resolvePair ea eb normal penetration).1 /\
  sameIdentity eb (PhysicsWorld.resolvePair ea eb normal penetration).2.
Proof.
  assert (forall e : Entity.t N, sameIdentity e (Blocks.wakeIfSleeping e)) as Hw.
  { intros e. unfold Blocks.wakeIfSleeping. destruct (Entity.isSleeping e); by repeat split. }
  assert (forall (e : Entity.t N) t, sameIdentity e (Blocks.correctPosition e t)) as Hc.
  { intros e t. unfold Blocks.correctPosition, Blocks.revertPosition.
    repeat case_match; by repeat split. }
  assert (forall (e : Entity.t N) t, sameIdentity e (Blocks.applyImpulse e t)) as Hi.
  { intros e t. unfold Blocks.applyImpulse, Blocks.revertVelocity.
    repeat case_match; by repeat split. }
  assert (forall (e o : Entity.t N) m, sameIdentity e (Entity.onCollision e o m)) as Ho.
  { intros e o m. unfold Entity.onCollision, Entity.takeDamage.
    repeat case_match; by repeat split. }
  rewrite resolvePair_blocks. unfold Blocks.composed. cbv zeta.
  repeat match goal with
         | |- context [if ?c then (_, _) else _] => destruct c
         end; cbn [fst snd]; split; eauto using sameIdentity_trans.
Qed.

(** X4. A tick of the stepper neither adds nor removes a body, and no
    number of ticks changes the fields a body gets at construction:
    [isStatic], [mass], [restitution], [collisionShape], [canSleep],
    [maxHp], [damageThreshold], [canCollideStatic] and the bird's [state]. *)
Theorem update_keeps_identity (w : PhysicsWorld.t N) (dt : N) (k : nat) :
  Forall2 sameIdentity (PhysicsWorld.entities w)
    (PhysicsWorld.entities (Nat.iter k (fun w => PhysicsWorld.update w dt) w)).
Proof.
  apply lift_updates.
  - apply sameIdentity_refl.
  - apply sameIdentity_trans.
  - intros dt' e. unfold PhysicsWorld.applyForces_entity.
    repeat case_match; by repeat split.
  - intros dt' e. unfold PhysicsWorld.integrate_entity.
    repeat case_match; by repeat split.
  - intros dt' e. unfold PhysicsWorld.updateSleepState_entity.
    repeat case_match; by repeat split.
  - apply sameIdentity_resolvePair.
Qed.

Lemma subSteps_without_contacts dt n : forall w : PhysicsWorld.t N,
  PhysicsWorld.detectCollisions w = [] ->
  PhysicsWorld.entities (Nat.iter n (PhysicsWorld.subStep dt) w) = PhysicsWorld.entities w.
Proof.
  induction n as [|n IH]; intros w Hd; [reflexivity|].
  rewrite Nat.iter_succ. specialize (IH w Hd).
  destruct (Nat.iter n (PhysicsWorld.subStep dt) w) as [l cs]. cbn in IH. subst l.
  unfold PhysicsWorld.subStep, PhysicsWorld.resolveCollisions.
  cbn [PhysicsWorld.entities PhysicsWorld.collisions].
  unfold PhysicsWorld.detectCollisions in *. cbn [PhysicsWorld.entities] in *.
  by rewrite Hd.
Qed.

(** X5. When no contact is detected after the integration, a tick is, for
    every body, force application, then integration, then the sleep
    update: the eight rounds of detection and resolution change nothing. *)
Theorem update_without_contacts (w : PhysicsWorld.t N) (dt : N) :
  PhysicsWorld.detectCollisions
    (PhysicsWorld.integrate (PhysicsWorld.applyForces w dt) dt) = [] ->
  PhysicsWorld.entities (PhysicsWorld.update w dt)
  = map (freeTick dt) (PhysicsWorld.entities w).
Proof.
  intros Hd. unfold PhysicsWorld.update. cbv zeta.
  unfold PhysicsWorld.updateSleepState. cbn [PhysicsWorld.entities].
  rewrite (subSteps_without_contacts dt 8 _ Hd).
  unfold PhysicsWorld.integrate, PhysicsWorld.applyForces. cbn [PhysicsWorld.entities].
  rewrite !map_map. reflexivity.
Qed.

End Resolution.


Section Arrays.

Lemma includes_elem_of entities entity :
  EntityArray.includes entities entity = true <-> entity ∈ entities.
Proof.
  unfold EntityArray.includes. rewrite existsb_exists. split.
  - intros (x & Hin & Heq). apply Nat.eqb_eq in Heq. subst.
    by apply list_elem_of_In.
  - intros Hin. exists entity. split; [by apply list_elem_of_In | apply Nat.eqb_refl].
Qed.

Lemma indexOf_Some entities entity : forall index,
  EntityArray.indexOf entities entity = Some index ->
  entities !! index = Some entity /\ entity ∉ take index entities.
Proof.
  induction entities as [|r rest IH]; intros index Hi; cbn in Hi; [done|].
  destruct (Nat.eqb r entity) eqn:Heq.
  - injection Hi as <-. apply Nat.eqb_eq in Heq. subst. split; [done|].
    cbn. apply not_elem_of_nil.
  - destruct (EntityArray.indexOf rest entity) as [j|]; [|done].
    injection Hi as <-. destruct (IH j eq_refl) as [Hj Hnot]. split; [done|].
    cbn. apply Nat.eqb_neq in Heq. apply not_elem_of_cons. split; [congruence | done].
Qed.

Lemma indexOf_None entities entity :
  EntityArray.indexOf entities entity = None <-> entity ∉ entities.
Proof.
  induction entities as [|r rest IH]; cbn.
  - split; [intros _; apply not_elem_of_nil | done].
  - destruct (Nat.eqb r entity) eqn:Heq.
    + apply Nat.eqb_eq in Heq. subst. split; [done|].
      intros Hnot. exfalso. apply Hnot. by left.
    + apply Nat.eqb_neq in Heq.
      destruct (EntityArray.indexOf rest entity) as [j|]; cbn.
      * split; [done|]. intros Hnot. apply not_elem_of_cons in Hnot as [_ Hnot].
        by apply IH in Hnot.
      * split; [|done]. intros _. apply not_elem_of_cons.
        split; [congruence | by apply IH].
Qed.

(** X6. [addEntity] and [removeEntity] keep the array of bodies free of
    duplicates; in such an array [removeEntity] leaves no reference to the
    removed body and keeps every other body, and [addEntity] of an object
    makes it a member. *)
Theorem entity_array_without_duplicates (entities : list nat) (entity : nat) :
  NoDup entities ->
  NoDup (EntityArray.addEntity entities (Some entity)) /\
  (entity ∈ EntityArray.addEntity entities (Some entity)) /\
  NoDup (EntityArray.removeEntity entities entity) /\
  (entity ∉ EntityArray.removeEntity entities entity) /\
  (forall other, other <> entity ->
     ((other ∈ EntityArray.removeEntity entities entity) <-> (other ∈ entities))).
Proof.
  intros Hnd. split; [|split].
  - unfold EntityArray.addEntity.
    destruct (EntityArray.includes entities entity) eqn:Hin; cbn [negb]; [done|].
    apply NoDup_app. split; [done|]. split; [|apply NoDup_singleton].
    intros x Hx Hx'. apply list_elem_of_singleton in Hx'. subst.
    apply includes_elem_of in Hx. congruence.
  - unfold EntityArray.addEntity.
    destruct (EntityArray.includes entities entity) eqn:Hin; cbn [negb].
    + by apply includes_elem_of.
    + apply elem_of_app. right. by apply list_elem_of_singleton.
  - unfold EntityArray.removeEntity.
    destruct (EntityArray.indexOf entities entity) as [index|] eqn:Hi.
    + destruct (indexOf_Some _ _ _ Hi) as [Hlook Hnot].
      pose proof (take_drop_middle _ _ _ Hlook) as Hsplit.
      rewrite <- Hsplit in Hnd.
      apply NoDup_app in Hnd as (Hnd1 & Hdisj & Hnd2).
      apply NoDup_cons in Hnd2 as [Hnot2 Hnd2].
      split; [|split].
      * apply NoDup_app. split; [done|]. split; [|done].
        intros x Hx Hx'. apply (Hdisj x Hx). by right.
      * apply not_elem_of_app. by split.
      * intros other Hne.
        assert ((other ∈ entities) <->
                (other ∈ take index entities) \/ other = entity \/
                (other ∈ drop (S index) entities)) as ->.
        { rewrite <- Hsplit at 1. by rewrite elem_of_app, elem_of_cons. }
        rewrite elem_of_app. split; [tauto|].
        intros [?|[?|?]]; [tauto | congruence | tauto].
    + apply indexOf_None in Hi. split; [done|]. split; [done|]. done.
Qed.

Lemma indexOf_app_new entities entity :
  entity ∉ entities ->
  EntityArray.indexOf (entities ++ [entity]) entity = Some (length entities).
Proof.
  induction entities as [|r rest IH]; intros Hnot; cbn.
  - by rewrite Nat.eqb_refl.
  - apply not_elem_of_cons in Hnot as [Hne Hnot].
    destruct (Nat.eqb r entity) eqn:Heq; [apply Nat.eqb_eq in Heq; congruence|].
    by rewrite IH.
Qed.

(** X7. Removing a body that [addEntity] has just put in gives back the
    array as it was, and adding a body twice is the same as adding it
    once; adding [null] changes nothing. *)
Theorem add_then_remove_entity (entities : list nat) (entity : nat) :
  entity ∉ entities ->
  EntityArray.removeEntity (EntityArray.addEntity entities (Some entity)) entity
  = entities /\
  EntityArray.addEntity (EntityArray.addEntity entities (Some entity)) (Some entity)
  = EntityArray.addEntity entities (Some entity) /\
  EntityArray.removeEntity entities entity = entities /\
  EntityArray.addEntity entities None = entities.
Proof.
  intros Hnot.
  assert (EntityArray.includes entities entity = false) as Hinc.
  { destruct (EntityArray.includes entities entity) eqn:Hin; [|done].
    by apply includes_elem_of in Hin. }
  unfold EntityArray.addEntity. rewrite Hinc. cbn [negb].
  split; [|split; [|split]].
  - unfold EntityArray.removeEntity. rewrite indexOf_app_new by done.
    rewrite take_app_length, drop_app_ge by lia.
    replace (S (length entities) - length entities)%nat with 1%nat by lia.
    cbn. by rewrite app_nil_r.
  - assert (EntityArray.includes (entities ++ [entity]) entity = true) as ->; [|done].
    apply includes_elem_of, elem_of_app. right. by apply list_elem_of_singleton.
  - unfold EntityArray.removeEntity. by apply indexOf_None in Hnot as ->.
  - reflexivity.
Qed.

End Arrays.

Section Objects.
Context {N : Type} `{JSNumber N}.
Local Open Scope js_scope.

Lemma bird_update_stages (this : BirdObject.t N) dt :
  BirdObject.update this dt = birdSettle (birdBounds (birdLifespan this dt)).
Proof. reflexivity. Qed.

Lemma birdSettle_id (this : BirdObject.t N) : birdSettle this = this.
Proof.
  unfold birdSettle. destruct (Entity.isSleeping (BirdObject.body this)); cbn [negb].
  - by rewrite andb_false_r.
  - by destruct (_ && _).
Qed.

(** X8. [Bird.update] never changes the [state] of a bird (so no bird
    ever becomes 'landed': the branch that would set it is guarded by
    [!this.isSleeping] and then tests [this.isSleeping]) and never changes
    [canSleep]; a bird that is not 'landed' keeps its [landedTimer] and is
    marked for removal by the call exactly when it is out of the bounds
    [y > 800], [x < -100], [x > 1400]. *)
Theorem bird_update_never_lands (this : BirdObject.t N) (dt : N) :
  let this' := BirdObject.update this dt in
  Entity.state (BirdObject.body this') = Entity.state (BirdObject.body this) /\
  Entity.canSleep (BirdObject.body this') = Entity.canSleep (BirdObject.body this) /\
  (Entity.state (BirdObject.body this) <> Some Landed ->
   BirdObject.landedTimer this' = BirdObject.landedTimer this /\
   Entity.markedForRemoval (BirdObject.body this')
   = Entity.markedForRemoval (BirdObject.body this)
     || birdOutOfBounds (Entity.position (BirdObject.body this))).
Proof.
  cbv zeta. rewrite bird_update_stages, birdSettle_id.
  assert (forall b : BirdObject.t N,
            Entity.state (BirdObject.body (birdBounds b)) = Entity.state (BirdObject.body b) /\
            Entity.canSleep (BirdObject.body (birdBounds b))
            = Entity.canSleep (BirdObject.body b) /\
            BirdObject.landedTimer (birdBounds b) = BirdObject.landedTimer b /\
            Entity.markedForRemoval (BirdObject.body (birdBounds b))
            = Entity.markedForRemoval (BirdObject.body b)
              || birdOutOfBounds (Entity.position (BirdObject.body b))) as Hb.
  { intros b. unfold birdBounds.
    destruct (birdOutOfBounds (Entity.position (BirdObject.body b))); cbn.
    - by rewrite orb_true_r.
    - by rewrite orb_false_r. }
  destruct (Hb (birdLifespan this dt)) as (Hs & Hc & Ht & Hm).
  rewrite Hs, Hc, Ht, Hm. clear Hb Hs Hc Ht Hm. unfold birdLifespan.
  destruct (Entity.state (BirdObject.body this)) as [[| | |]|] eqn:Hst;
    try (repeat split; done).
  cbv zeta. cbn [BirdObject.body BirdObject.lifespan BirdObject.landedTimer].
  destruct (_ <? _); cbn; rewrite ?Hst; repeat split; done.
Qed.

(** X9. [endAim] always leaves the slingshot without bird and without
    drag positions; it keeps the number of objects and can only change the
    object the slingshot held, and changes none when it returns [false];
    a second [endAim] returns [false] and changes nothing. *)
Theorem endAim_releases (slingshot : Slingshot.t N) (store : list (Entity.t N)) :
  let '(launched, slingshot', store') := Slingshot.endAim slingshot store in
  slingshot' = Slingshot.released slingshot /\
  Slingshot.aimingBird slingshot' = None /\
  Slingshot.dragStartPos slingshot' = None /\
  Slingshot.dragCurrentPos slingshot' = None /\
  length store' = length store /\
  (forall idx, Slingshot.aimingBird slingshot <> Some idx -> store' !! idx = store !! idx) /\
  (launched = false -> store' = store) /\
  Slingshot.endAim slingshot' store' = (false, slingshot', store').
Proof.
  unfold Slingshot.endAim.
  destruct (Slingshot.aimingBird slingshot) as [r|] eqn:Hr;
    [destruct (Slingshot.held slingshot store) as [e|];
     [destruct (Slingshot.dragStartPos slingshot);
      [match goal with |- context [if ?c then _ else _] => destruct c end|]|]|];
    cbn; repeat split; auto; try done.
  - by rewrite length_insert.
  - intros idx Hne. rewrite list_lookup_insert_ne; [done|congruence].
Qed.

End Objects.


Section Guide.
Context {N : Type} `{JSNumber N}.
Local Open Scope js_scope.

Lemma ceil3_succ (n : nat) :
  ((S n + 2) / 3 = (n + 2) / 3 + (if n mod 3 =? 0 then 1 else 0))%nat.
Proof using Type.
  pose proof (Nat.div_mod_eq n 3) as Hn.
  pose proof (Nat.mod_upper_bound n 3 ltac:(lia)) as Hr.
  set (q := (n / 3)%nat) in *. set (r := (n mod 3)%nat) in *. clearbody q r. subst n.
  replace (S (3 * q + r) + 2)%nat with (q * 3 + (r + 3))%nat by lia.
  replace (3 * q + r + 2)%nat with (q * 3 + (r + 2))%nat by lia.
  rewrite !Nat.div_add_l by lia.
  destruct r as [|[|[|r]]]; cbn; lia.
Qed.

Lemma loop_points (cw ch : N) steps startPos startVel k :
  let s := Nat.iter k (Main.loopBody cw ch steps) (Main.loopInit startPos startVel) in
  (Main.i s <= steps)%nat /\
  exists rest,
    Main.pts s = startPos :: rest /\
    (length rest <= (Main.i s + 2) / 3 + (if Main.stopped s then 1 else 0))%nat.
Proof.
  induction k as [|k IH].
  - cbn. split; [lia|]. exists []. destruct startPos. split; [done|]. cbn. lia.
  - rewrite Nat.iter_succ. cbv zeta in *. set (s := Nat.iter k _ _) in *.
    destruct IH as (Hi & rest & Hpts & Hlen).
    unfold Main.loopBody.
    destruct (Main.stopped s) eqn:Hst; cbn [orb].
    { rewrite Hst. eauto. }
    destruct (Main.i s <? steps)%nat eqn:Hlt; cbn [negb]; [|rewrite Hst; eauto].
    apply Nat.ltb_lt in Hlt. cbv zeta. rewrite Hpts.
    pose proof (ceil3_succ (Main.i s)) as Hdiv.
    destruct (Main.i s mod 3 =? 0)%nat eqn:Hmod;
      repeat match goal with
             | |- context [if ?c then Main.mkLoop _ _ _ _ _ else _] => destruct c
             | |- context [match ?c with Some _ => _ | None => _ end] => destruct c
             | |- context [if ?c then _ ++ _ else _] => destruct c
             end;
      cbn [Main.i Main.pts Main.stopped app]; (split; [lia|]);
      eexists; (split; [reflexivity|]); rewrite ?length_app; cbn [length]; lia.
Qed.

(** X10. The list [simulateTrajectory] returns starts with the start
    position and has at most [2 + ceil(steps / 3)] points (52 for the 150
    steps [render] asks for). *)
Theorem simulateTrajectory_bounded (canvas_width canvas_height : N)
    (startPos startVel : Vec2.t N) (steps : nat) :
  let points :=
    Main.simulateTrajectory canvas_width canvas_height startPos startVel steps in
  head points = Some startPos /\ (length points <= 2 + (steps + 2) / 3)%nat.
Proof.
  cbv zeta. unfold Main.simulateTrajectory.
  destruct (loop_points canvas_width canvas_height steps startPos startVel steps)
    as (Hi & rest & Hpts & Hlen).
  cbv zeta in *. rewrite Hpts. split; [done|]. cbn [length].
  assert ((Main.i (Nat.iter steps (Main.loopBody canvas_width canvas_height steps)
                     (Main.loopInit startPos startVel)) + 2) / 3 <= (steps + 2) / 3)%nat
    by (apply Nat.Div0.div_le_mono; lia).
  destruct (Main.stopped _); lia.
Qed.

(** X11. Every point [simulateTrajectory] returns is a position of the free
    flight from the start position with the start velocity (gravity, then
    damping, then integration, once per step), or such a position with its
    ordinate replaced by the ground line [canvas.height - 50]. *)
Theorem simulateTrajectory_points (canvas_width canvas_height : N)
    (startPos startVel : Vec2.t N) (steps : nat) (point : Vec2.t N) :
  In point
    (Main.simulateTrajectory canvas_width canvas_height startPos startVel steps) ->
  exists n,
    point = flightPos startPos startVel n \/
    point = Vec2.new (Vec2.x (flightPos startPos startVel n)) (canvas_height - ofZ 50).
Proof. apply pts_are_flight_points. Qed.

End Guide.


(** * Further properties in exact arithmetic *)

Section MoreReal.
Local Open Scope R_scope.

Lemma lenSq_pos (v : Vec2.t R) : v <> Vec2.new 0 0 -> 0 < Vec2.lenSq v.
Proof.
  intros Hne. destruct (lenSq_nonneg v) as [Hlt|Heq]; [done|].
  exfalso. apply Hne. by apply lenSq_zero.
Qed.

(** X12. [normalize] returns a vector of length 1 for every vector but the
    zero vector, for which it returns the zero vector. *)
Theorem normalize_unit_or_zero (v : Vec2.t R) :
  (v <> Vec2.new 0 0 -> Vec2.len (Vec2.normalize v) = 1) /\
  (v = Vec2.new 0 0 -> Vec2.normalize v = Vec2.new 0 0).
Proof.
  split.
  - intros Hne. pose proof (lenSq_pos v Hne) as Hpos.
    assert (0 < sqrt (Vec2.lenSq v)) as Hlen by (by apply sqrt_lt_R0).
    unfold Vec2.normalize, Vec2.len. cbv zeta. js_real.
    rewrite Rltb_true by done.
    change (sqrt (Vec2.lenSq (Vec2.div v (sqrt (Vec2.lenSq v)))) = 1).
    rewrite div_len_unit by done. apply sqrt_1.
  - intros ->. unfold Vec2.normalize, Vec2.len, Vec2.lenSq, Vec2.dot. cbv zeta. js_real.
    replace (0 * 0 + 0 * 0) with 0 by lra. rewrite sqrt_0.
    by rewrite Rltb_false by lra.
Qed.

(** X13. Two boxes that do not overlap on the X axis, or do not overlap on
    the Y axis (touching included), get no contact. *)
Theorem aabb_separated_no_contact (ia ib : nat) (ea eb : Entity.t R)
    (widthA heightA widthB heightB : R) :
  Entity.collisionShape ea = Aabb widthA heightA ->
  Entity.collisionShape eb = Aabb widthB heightB ->
  let vec := Vec2.sub (Entity.position eb) (Entity.position ea) in
  (widthA / 2 + widthB / 2) - Rabs (Vec2.x vec) <= 0 \/
  (heightA / 2 + heightB / 2) - Rabs (Vec2.y vec) <= 0 ->
  PhysicsWorld.checkCollision ia ea ib eb = None.
Proof.
  intros Ha Hb vec Hsep.
  unfold PhysicsWorld.checkCollision, PhysicsWorld.checkAABBAABB.
  rewrite Ha, Hb. cbv zeta. fold vec. js_real. unfold Rltb.
  destruct Hsep; repeat destruct (Rlt_dec _ _); cbn [andb]; (done || lra).
Qed.

(** X14. [calculateStars] returns at most 3, returns 0 when the level has
    no thresholds, and never returns fewer stars for a higher score,
    whatever the thresholds are. *)
Theorem calculateStars_monotone (thresholds : option (gmap nat R)) (score score' : R) :
  score <= score' ->
  (Ui.calculateStars score thresholds <= Ui.calculateStars score' thresholds)%nat /\
  (Ui.calculateStars score' thresholds <= 3)%nat /\
  Ui.calculateStars score None = 0%nat.
Proof.
  intros Hle. split; [|split]; [| |reflexivity].
  - destruct thresholds as [th|]; [|done]. unfold Ui.calculateStars.
    assert (forall k, Ui.reaches score th k = true -> Ui.reaches score' th k = true) as Hk.
    { intros k. unfold Ui.reaches. destruct (th !! k) as [t|]; [|done]. js_real.
      unfold Rleb. repeat destruct (Rle_dec _ _); (done || lra). }
    destruct (Ui.reaches score th 3) eqn:H3; [by rewrite (Hk _ H3)|].
    destruct (Ui.reaches score th 2) eqn:H2;
      [rewrite (Hk _ H2); destruct (Ui.reaches score' th 3); lia|].
    destruct (Ui.reaches score th 1) eqn:H1;
      [rewrite (Hk _ H1); repeat destruct (Ui.reaches score' th _); lia|].
    lia.
  - destruct thresholds as [th|]; [|cbn; lia]. unfold Ui.calculateStars.
    repeat destruct (Ui.reaches score' th _); lia.
Qed.

(** X15. [Enemy.update] changes nothing but [markedForRemoval], which it
    sets exactly when the enemy is out of its bounds; every position out
    of the bounds of an enemy is out of the bounds of a bird as well. *)
Theorem enemy_bounds_within_bird_bounds (this : Entity.t R) (dt : R) :
  Enemy.update this dt
  = (if enemyOutOfBounds (Entity.position this) then Entity.set_markedForRemoval this true
     else this) /\
  (enemyOutOfBounds (Entity.position this) = true ->
   birdOutOfBounds (Entity.position this) = true).
Proof.
  split; [reflexivity|].
  unfold enemyOutOfBounds, birdOutOfBounds. js_real. unfold Rltb.
  repeat destruct (Rlt_dec _ _); cbn; (done || lra).
Qed.

(** X16. The sleep update called once per tick on a body that can sleep,
    is awake with its timer at 0 and stays slower than the threshold:
    the body is still awake, with its velocity, after fewer than 60 calls,
    and it is asleep with velocity exactly zero after 60 calls or more. *)
Theorem sleeps_after_sixty_slow_ticks (e : Entity.t R) (n : nat) :
  Entity.isStatic e = false -> Entity.canSleep e = true ->
  Entity.isSleeping e = false -> Entity.sleepTimer e = 0 ->
  Vec2.lenSq (Entity.velocity e) < MIN_VELOCITY_FOR_SLEEP * MIN_VELOCITY_FOR_SLEEP ->
  let e' := Nat.iter n (PhysicsWorld.updateSleepState_entity TIME_STEP) e in
  ((n < 60)%nat -> Entity.isSleeping e' = false /\ Entity.velocity e' = Entity.velocity e) /\
  ((60 <= n)%nat -> Entity.isSleeping e' = true /\ Entity.velocity e' = Vec2.zero).
Proof.
  intros Hs Hc Hz Ht Hslow. cbv zeta.
  assert (INR 60 = 60) as H60 by (rewrite INR_IZR_INZ; reflexivity).
  assert (let e' := Nat.iter n (PhysicsWorld.updateSleepState_entity TIME_STEP) e in
          Entity.isStatic e' = false /\ Entity.canSleep e' = true /\
          Entity.sleepTimer e' = INR n / 60 /\
          ((n < 60)%nat ->
           Entity.isSleeping e' = false /\ Entity.velocity e' = Entity.velocity e) /\
          ((60 <= n)%nat ->
           Entity.isSleeping e' = true /\ Entity.velocity e' = Vec2.zero)) as Hinv.
  { induction n as [|n IH].
    - cbn. repeat split; auto; try lia. rewrite Ht. lra.
    - rewrite Nat.iter_succ. cbv zeta in *.
      set (en := Nat.iter n _ e) in *. destruct IH as (Hsn & Hcn & Htn & Hlt & Hge).
      unfold PhysicsWorld.updateSleepState_entity. rewrite Hsn, Hcn. cbn [orb negb].
      cbv zeta. unfold MIN_VELOCITY_FOR_SLEEP, SLEEP_DELAY_FRAMES, TIME_STEP in *. js_real.
      assert (Vec2.lenSq (Entity.velocity en) < 2 * 2) as Hslown.
      { destruct (Nat.lt_ge_cases n 60) as [Hn|Hn].
        - destruct (Hlt Hn) as [_ ->]. exact Hslow.
        - destruct (Hge Hn) as [_ ->]. unfold Vec2.lenSq, Vec2.dot, Vec2.zero. js_real. lra. }
      rewrite Rltb_true by done. cbn [Entity.sleepTimer Entity.set_sleepTimer].
      rewrite Htn, S_INR.
      destruct (Nat.lt_ge_cases (S n) 60) as [Hn|Hn].
      + assert (INR n + 1 < 60) as Hr.
        { rewrite <- S_INR, <- H60. by apply lt_INR. }
        rewrite Rleb_false by lra. cbn.
        repeat split; auto; try lra; try lia; apply Hlt; lia.
      + assert (60 <= INR n + 1) as Hr.
        { rewrite <- S_INR, <- H60. by apply le_INR. }
        rewrite Rleb_true by lra. cbn.
        repeat split; auto; try lra; lia. }
  cbv zeta in Hinv. tauto.
Qed.

End MoreReal.


(** ** What the resolution of one contact does to the two bodies *)

Section Mechanics.
Local Open Scope R_scope.

Lemma invMass_inverseMass (e : Entity.t R) : Blocks.invMass e = inverseMass e.
Proof.
  unfold Blocks.invMass, inverseMass. js_real. unfold Rltb.
  by destruct (Rlt_dec 0 (Entity.mass e)).
Qed.

Lemma inverseMass_dynamic (e : Entity.t R) :
  dynamicBody e -> inverseMass e = 1 / Entity.mass e /\ 0 < inverseMass e.
Proof.
  intros [_ Hm]. unfold inverseMass. destruct (Rlt_dec 0 (Entity.mass e)); [|lra].
  split; [done|]. apply Rdiv_lt_0_compat; lra.
Qed.

Lemma inverseMass_fixed (e : Entity.t R) : fixedBody e -> inverseMass e = 0.
Proof.
  intros [_ Hm]. unfold inverseMass. rewrite Hm. destruct (Rlt_dec 0 0); [lra|done].
Qed.

Lemma inverseMass_nonneg (e : Entity.t R) : 0 <= inverseMass e.
Proof.
  unfold inverseMass. destruct (Rlt_dec 0 (Entity.mass e)); [|lra].
  left. apply Rdiv_lt_0_compat; lra.
Qed.

Lemma correctPosition_position (e : Entity.t R) target :
  Entity.position (Blocks.correctPosition e target)
  = if Entity.isStatic e then Entity.position e else target.
Proof.
  unfold Blocks.correctPosition, Blocks.revertPosition. js_real. cbn [orb].
  by destruct (Entity.isStatic e).
Qed.

Lemma applyImpulse_fields (e : Entity.t R) target :
  let e' := Blocks.applyImpulse e target in
  Entity.velocity e' = (if Entity.isStatic e then Entity.velocity e else target) /\
  Entity.position e' = Entity.position e.
Proof.
  cbv zeta. unfold Blocks.applyImpulse, Blocks.revertVelocity. js_real. cbn [orb].
  by destruct (Entity.isStatic e).
Qed.

Lemma onCollision_position (e other : Entity.t R) m :
  Entity.position (Entity.onCollision e other m) = Entity.position e.
Proof. apply samePV_onCollision. Qed.

Lemma moved_by_inverseMass (e : Entity.t R) (p d : Vec2.t R) :
  dynamicBody e \/ fixedBody e ->
  ((if Entity.isStatic e then p else Vec2.sub p (Vec2.mul d (inverseMass e)))
   = Vec2.sub p (Vec2.mul d (inverseMass e))) /\
  ((if Entity.isStatic e then p else Vec2.add p (Vec2.mul d (inverseMass e)))
   = Vec2.add p (Vec2.mul d (inverseMass e))).
Proof.
  intros [[Hs _]|Hf].
  - by rewrite Hs.
  - rewrite (inverseMass_fixed e Hf). destruct Hf as [-> _].
    destruct p as [px py]. unfold Vec2.sub, Vec2.add, Vec2.mul. js_real.
    split; f_equal; lra.
Qed.

(** The positions and the velocities [resolvePair] leaves, for two bodies
    of which each is dynamic or fixed and one at least is dynamic. *)
Lemma resolvePair_motion (ea eb : Entity.t R) (normal : Vec2.t R) (penetration : R) :
  dynamicBody ea \/ fixedBody ea -> dynamicBody eb \/ fixedBody eb ->
  dynamicBody ea \/ dynamicBody eb ->
  let total := inverseMass ea + inverseMass eb in
  let correction := Vec2.mul normal (Rmax (penetration - 1 / 10) 0 / total * (8 / 10)) in
  let velAlongNormal :=
    Vec2.dot (Vec2.sub (Entity.velocity eb) (Entity.velocity ea)) normal in
  let impulseVec :=
    Vec2.mul normal (- (1 + pairRestitution ea eb) * velAlongNormal / total) in
  let result := PhysicsWorld.resolvePair ea eb normal penetration in
  0 < total /\
  Entity.position result.1
  = Vec2.sub (Entity.position ea) (Vec2.mul correction (inverseMass ea)) /\
  Entity.position result.2
  = Vec2.add (Entity.position eb) (Vec2.mul correction (inverseMass eb)) /\
  Entity.velocity result.1
  = (if Rlt_dec 0 velAlongNormal then Entity.velocity ea
     else Vec2.sub (Entity.velocity ea) (Vec2.mul impulseVec (inverseMass ea))) /\
  Entity.velocity result.2
  = (if Rlt_dec 0 velAlongNormal then Entity.velocity eb
     else Vec2.add (Entity.velocity eb) (Vec2.mul impulseVec (inverseMass eb))).
Proof.
  intros Ha Hb Hdyn. cbv zeta.
  assert (0 < inverseMass ea + inverseMass eb) as Htotal.
  { pose proof (inverseMass_nonneg ea). pose proof (inverseMass_nonneg eb).
    destruct Hdyn as [Hd|Hd]; destruct (inverseMass_dynamic _ Hd); lra. }
  split; [exact Htotal|].
  rewrite resolvePair_blocks. unfold Blocks.composed. cbv zeta.
  destruct (wakeIfSleeping_fields ea) as (Va0 & Pa0 & Sa0 & Ma0 & Ra0).
  destruct (wakeIfSleeping_fields eb) as (Vb0 & Pb0 & Sb0 & Mb0 & Rb0).
  cbv zeta in *.
  set (ea0 := Blocks.wakeIfSleeping ea) in *.
  set (eb0 := Blocks.wakeIfSleeping eb) in *.
  assert (Blocks.invMass ea0 = inverseMass ea) as Ia.
  { rewrite invMass_inverseMass. unfold inverseMass. by rewrite Ma0. }
  assert (Blocks.invMass eb0 = inverseMass eb) as Ib.
  { rewrite invMass_inverseMass. unfold inverseMass. by rewrite Mb0. }
  rewrite Ia, Ib. js_real. rewrite Reqb_false by lra.
  assert (Blocks.correctionOf normal penetration (inverseMass ea + inverseMass eb)
          = Vec2.mul normal
              (Rmax (penetration - 1 / 10) 0 / (inverseMass ea + inverseMass eb) * (8 / 10)))
    as Hcorr.
  { unfold Blocks.correctionOf, orElse, dec. js_real. by rewrite Reqb_false by lra. }
  rewrite Hcorr.
  set (correction := Vec2.mul normal _).
  set (ta := Vec2.sub (Entity.position ea0) (Vec2.mul correction (inverseMass ea))).
  set (tb := Vec2.add (Entity.position eb0) (Vec2.mul correction (inverseMass eb))).
  destruct (correctPosition_fields ea0 ta) as (Va1 & Sa1 & _ & Ra1).
  destruct (correctPosition_fields eb0 tb) as (Vb1 & Sb1 & _ & Rb1).
  pose proof (correctPosition_position ea0 ta) as Pa1.
  pose proof (correctPosition_position eb0 tb) as Pb1.
  cbv zeta in *.
  set (ea1 := Blocks.correctPosition ea0 ta) in *.
  set (eb1 := Blocks.correctPosition eb0 tb) in *.
  rewrite Sa0 in Pa1. rewrite Sb0 in Pb1. subst ta tb. rewrite Pa0 in Pa1. rewrite Pb0 in Pb1.
  destruct (moved_by_inverseMass ea (Entity.position ea) correction Ha) as [Ea _].
  destruct (moved_by_inverseMass eb (Entity.position eb) correction Hb) as [_ Eb].
  rewrite Ea in Pa1. rewrite Eb in Pb1.
  rewrite Va1, Vb1, Va0, Vb0.
  set (velAlongNormal :=
         Vec2.dot (Vec2.sub (Entity.velocity eb) (Entity.velocity ea)) normal).
  unfold Rltb. destruct (Rlt_dec 0 velAlongNormal) as [Hsep|Hclose]; cbn [fst snd].
  - rewrite Va1, Vb1, Va0, Vb0. done.
  - rewrite !onCollision_position, !onCollision_velocity.
    set (impulse := Blocks.impulseOf ea1 eb1 normal _).
    destruct (applyImpulse_fields ea1
                (Vec2.sub (Entity.velocity ea) (Vec2.mul impulse (inverseMass ea))))
      as [Va2 Pa2].
    destruct (applyImpulse_fields eb1
                (Vec2.add (Entity.velocity eb) (Vec2.mul impulse (inverseMass eb))))
      as [Vb2 Pb2].
    cbv zeta in *. rewrite Va2, Vb2, Pa2, Pb2, Pa1, Pb1, Sa1, Sb1, Sa0, Sb0.
    assert (impulse
            = Vec2.mul normal
                (- (1 + pairRestitution ea eb) * velAlongNormal
                 / (inverseMass ea + inverseMass eb))) as ->.
    { subst impulse. unfold Blocks.impulseOf, pairRestitution, orElse, RESTITUTION, dec.
      cbv zeta. rewrite Va1, Vb1, Va0, Vb0, Ra1, Rb1, Ra0, Rb0. js_real.
      by rewrite Reqb_false by lra. }
    rewrite Va1, Vb1, Va0, Vb0.
    destruct (moved_by_inverseMass ea (Entity.velocity ea)
                (Vec2.mul normal
                   (- (1 + pairRestitution ea eb) * velAlongNormal
                    / (inverseMass ea + inverseMass eb))) Ha) as [-> _].
    destruct (moved_by_inverseMass eb (Entity.velocity eb)
                (Vec2.mul normal
                   (- (1 + pairRestitution ea eb) * velAlongNormal
                    / (inverseMass ea + inverseMass eb))) Hb) as [_ ->].
    done.
Qed.

(** X17. Positional correction: for two bodies of which each is dynamic
    or fixed and one at least is dynamic, resolving a contact moves the
    position of [b] relative to [a] by [0.8 * max(penetration - 0.1, 0)]
    along the contact normal, whatever the masses are. *)
Theorem positional_correction_opens_gap (ea eb : Entity.t R) (normal : Vec2.t R)
    (penetration : R) :
  dynamicBody ea \/ fixedBody ea -> dynamicBody eb \/ fixedBody eb ->
  dynamicBody ea \/ dynamicBody eb ->
  let result := PhysicsWorld.resolvePair ea eb normal penetration in
  Vec2.sub (Entity.position result.2) (Entity.position result.1)
  = Vec2.add (Vec2.sub (Entity.position eb) (Entity.position ea))
      (Vec2.mul normal (8 / 10 * Rmax (penetration - 1 / 10) 0)).
Proof.
  intros Ha Hb Hdyn. cbv zeta.
  destruct (resolvePair_motion ea eb normal penetration Ha Hb Hdyn)
    as (Htotal & -> & -> & _ & _).
  set (M := Rmax (penetration - 1 / 10) 0). clearbody M.
  destruct normal as [nx ny], (Entity.position ea) as [ax ay],
    (Entity.position eb) as [bx by'].
  unfold Vec2.sub, Vec2.add, Vec2.mul. js_real.
  f_equal; field; lra.
Qed.

(** X18. Resolving a contact between two dynamic bodies conserves the
    total momentum [mass * velocity], for every normal and restitution. *)
Theorem impulse_conserves_momentum (ea eb : Entity.t R) (normal : Vec2.t R)
    (penetration : R) :
  dynamicBody ea -> dynamicBody eb ->
  let result := PhysicsWorld.resolvePair ea eb normal penetration in
  Vec2.add (Vec2.mul (Entity.velocity result.1) (Entity.mass ea))
           (Vec2.mul (Entity.velocity result.2) (Entity.mass eb))
  = Vec2.add (Vec2.mul (Entity.velocity ea) (Entity.mass ea))
             (Vec2.mul (Entity.velocity eb) (Entity.mass eb)).
Proof.
  intros Ha Hb. cbv zeta.
  destruct (resolvePair_motion ea eb normal penetration (or_introl Ha) (or_introl Hb)
              (or_introl Ha)) as (Htotal & _ & _ & -> & ->).
  destruct (Rlt_dec 0 _); [done|].
  destruct (inverseMass_dynamic ea Ha) as [Ia _].
  destruct (inverseMass_dynamic eb Hb) as [Ib _].
  destruct Ha as [_ Hma], Hb as [_ Hmb].
  set (j := _ / _). clearbody j. rewrite Ia, Ib.
  destruct normal as [nx ny], (Entity.velocity ea) as [ax ay],
    (Entity.velocity eb) as [bx by'].
  unfold Vec2.sub, Vec2.add, Vec2.mul. js_real.
  f_equal; field; lra.
Qed.

(** X19. The restitution law: for a unit normal and two bodies of which
    each is dynamic or fixed and one at least is dynamic, a relative
    velocity along the normal that is not positive is multiplied by minus
    the restitution of the pair (the smaller of the two restitutions);
    when it is positive, both velocities stay as they are. *)
Theorem restitution_law (ea eb : Entity.t R) (normal : Vec2.t R) (penetration : R) :
  dynamicBody ea \/ fixedBody ea -> dynamicBody eb \/ fixedBody eb ->
  dynamicBody ea \/ dynamicBody eb ->
  Vec2.lenSq normal = 1 ->
  let result := PhysicsWorld.resolvePair ea eb normal penetration in
  let velAlongNormal :=
    Vec2.dot (Vec2.sub (Entity.velocity eb) (Entity.velocity ea)) normal in
  (velAlongNormal <= 0 ->
   Vec2.dot (Vec2.sub (Entity.velocity result.2) (Entity.velocity result.1)) normal
   = - pairRestitution ea eb * velAlongNormal) /\
  (0 < velAlongNormal ->
   Entity.velocity result.1 = Entity.velocity ea /\
   Entity.velocity result.2 = Entity.velocity eb).
Proof.
  intros Ha Hb Hdyn Hn. cbv zeta.
  destruct (resolvePair_motion ea eb normal penetration Ha Hb Hdyn)
    as (Htotal & _ & _ & -> & ->).
  destruct (Rlt_dec 0 _) as [Hsep|Hclose]; split; try done; try lra.
  intros _.
  set (e := pairRestitution ea eb). clearbody e.
  set (ia := inverseMass ea) in *. set (ib := inverseMass eb) in *. clearbody ia ib.
  destruct normal as [nx ny], (Entity.velocity ea) as [ax ay],
    (Entity.velocity eb) as [bx by'].
  assert (nx * nx + ny * ny = 1) as Hunit.
  { revert Hn. unfold Vec2.lenSq, Vec2.dot. by js_real. }
  unfold Vec2.dot, Vec2.sub, Vec2.add, Vec2.mul in *. js_real.
  set (van := (bx - ax) * nx + (by' - ay) * ny) in *.
  set (j := - (1 + e) * van / (ia + ib)).
  assert (j * (ia + ib) = - (1 + e) * van) as Hj by (subst j; field; lra).
  clearbody j.
  transitivity (van + j * (ia + ib) * (nx * nx + ny * ny)); [subst van; ring|].
  rewrite Hj, Hunit. ring.
Qed.

Lemma notHealed_same (e e' : Entity.t R) :
  Entity.isStatic e' = Entity.isStatic e -> Entity.hp e' = Entity.hp e ->
  Entity.markedForRemoval e' = Entity.markedForRemoval e -> notHealed e e'.
Proof. intros Hs Hh Hm. unfold notHealed. rewrite Hs, Hh, Hm. repeat split; auto; lra. Qed.

Lemma notHealed_trans (e1 e2 e3 : Entity.t R) :
  notHealed e1 e2 -> notHealed e2 e3 -> notHealed e1 e3.
Proof.
  intros (S1 & H1 & M1 & F1) (S2 & H2 & M2 & F2). unfold notHealed.
  split; [congruence|]. split; [lra|]. split; [auto|].
  intros Hs. destruct (F1 Hs) as [E1 E2]. rewrite <- S1 in Hs.
  destruct (F2 Hs) as [E3 E4]. split; congruence.
Qed.

Lemma notHealed_onCollision (e other : Entity.t R) m :
  0 <= m -> notHealed e (Entity.onCollision e other m).
Proof.
  intros Hm. unfold Entity.onCollision, Entity.takeDamage, Entity.destroy, Entity.wake, dec.
  cbv zeta. js_real. cbn [Entity.isStatic Entity.set_sleepTimer Entity.set_isSleeping
                            Entity.damageThreshold].
  destruct (Rltb _ _); [|by apply notHealed_same].
  destruct (Entity.isStatic e) eqn:Hs; [by apply notHealed_same; cbn; rewrite ?Hs|].
  destruct (Rleb _ _); unfold notHealed; cbn; rewrite Hs;
    (repeat split; auto; try done; lra).
Qed.

Lemma notHealed_resolvePair (ea eb : Entity.t R) normal penetration :
  notHealed ea (PhysicsWorld.resolvePair ea eb normal penetration).1 /\
  notHealed eb (PhysicsWorld.resolvePair ea eb normal penetration).2.
Proof.
  assert (forall e : Entity.t R, notHealed e (Blocks.wakeIfSleeping e)) as Hw.
  { intros e. unfold Blocks.wakeIfSleeping. destruct (Entity.isSleeping e);
      by apply notHealed_same. }
  assert (forall (e : Entity.t R) t, notHealed e (Blocks.correctPosition e t)) as Hc.
  { intros e t. unfold Blocks.correctPosition, Blocks.revertPosition.
    repeat case_match; by apply notHealed_same. }
  assert (forall (e : Entity.t R) t, notHealed e (Blocks.applyImpulse e t)) as Hi.
  { intros e t. unfold Blocks.applyImpulse, Blocks.revertVelocity.
    repeat case_match; by apply notHealed_same. }
  assert (forall (e o : Entity.t R) v, notHealed e (Entity.onCollision e o (Vec2.len v)))
    as Ho.
  { intros e o v. apply notHealed_onCollision. unfold Vec2.len. js_real. apply sqrt_pos. }
  rewrite resolvePair_blocks. unfold Blocks.composed. cbv zeta.
  repeat match goal with
         | |- context [if ?c then (_, _) else _] => destruct c
         end; cbn [fst snd]; split; eauto using notHealed_trans.
Qed.

(** X20. No number of ticks of the stepper raises the [hp] of a body or
    clears its [markedForRemoval], and a static body keeps the [hp] and
    the mark it has. *)
Theorem update_never_heals (w : PhysicsWorld.t R) (dt : R) (k : nat) :
  Forall2 notHealed (PhysicsWorld.entities w)
    (PhysicsWorld.entities (Nat.iter k (fun w => PhysicsWorld.update w dt) w)).
Proof.
  apply lift_updates.
  - intros e. by apply notHealed_same.
  - apply notHealed_trans.
  - intros dt' e. unfold PhysicsWorld.applyForces_entity.
    repeat case_match; by apply notHealed_same.
  - intros dt' e. unfold PhysicsWorld.integrate_entity.
    repeat case_match; by apply notHealed_same.
  - intros dt' e. unfold PhysicsWorld.updateSleepState_entity.
    repeat case_match; by apply notHealed_same.
  - apply notHealed_resolvePair.
Qed.

End Mechanics.


(** ** A world at rest *)

Section Rest.
Local Open Scope R_scope.

Lemma sameButTimer_refl (e : Entity.t R) : sameButTimer e e.
Proof. unfold sameButTimer. by destruct e. Qed.

Lemma sameButTimer_trans (e1 e2 e3 : Entity.t R) :
  sameButTimer e1 e2 -> sameButTimer e2 e3 -> sameButTimer e1 e3.
Proof. unfold sameButTimer. intros -> ->. by destruct e1. Qed.

Lemma atRest_sameButTimer (e e' : Entity.t R) : sameButTimer e e' -> atRest e -> atRest e'.
Proof. unfold sameButTimer. intros ->. by destruct e. Qed.

Lemma atRest_forces_integrate (dt : R) (e : Entity.t R) :
  atRest e ->
  PhysicsWorld.integrate_entity dt (PhysicsWorld.applyForces_entity dt e) = e.
Proof.
  intros Hrest.
  assert (Entity.isStatic e || Entity.isSleeping e = true) as Hskip.
  { destruct Hrest as [->|[-> _]]; [done | apply orb_true_r]. }
  unfold PhysicsWorld.applyForces_entity. rewrite Hskip.
  unfold PhysicsWorld.integrate_entity. by rewrite Hskip.
Qed.

Lemma atRest_sleep (dt : R) (e : Entity.t R) :
  atRest e -> sameButTimer e (PhysicsWorld.updateSleepState_entity dt e).
Proof.
  unfold PhysicsWorld.updateSleepState_entity, sameButTimer.
  intros [Hs|[Hz Hv]].
  - rewrite Hs. cbn [orb]. by destruct e.
  - destruct (Entity.isStatic e || negb (Entity.canSleep e)); [by destruct e|].
    cbv zeta. rewrite Hv. unfold MIN_VELOCITY_FOR_SLEEP.
    assert (Vec2.lenSq (Vec2.zero : Vec2.t R) < 2 * 2) as Hslow.
    { unfold Vec2.lenSq, Vec2.dot, Vec2.zero. js_real. lra. }
    js_real. rewrite Rltb_true by exact Hslow.
    destruct e; cbn in *; subst. by destruct (Rleb _ _).
Qed.

Lemma detectInner_sameButTimer i (ea ea' : Entity.t R) j l l' :
  sameButTimer ea ea' -> Forall2 sameButTimer l l' ->
  PhysicsWorld.detectInner i ea' j l' = PhysicsWorld.detectInner i ea j l.
Proof.
  intros Ha Hl. revert j. induction Hl as [|eb eb' l l' Hb Hl IH]; intros j; [done|].
  cbn [PhysicsWorld.detectInner]. rewrite IH. f_equal.
  unfold sameButTimer in *. rewrite Ha, Hb. reflexivity.
Qed.

Lemma detectOuter_sameButTimer i (l l' : list (Entity.t R)) :
  Forall2 sameButTimer l l' ->
  PhysicsWorld.detectOuter i l' = PhysicsWorld.detectOuter i l.
Proof.
  intros Hl. revert i. induction Hl as [|ea ea' l l' Ha Hl IH]; intros i; [done|].
  cbn [PhysicsWorld.detectOuter]. rewrite IH, (detectInner_sameButTimer _ _ _ _ _ _ Ha Hl).
  f_equal. unfold sameButTimer in Ha. rewrite Ha. reflexivity.
Qed.

Lemma rest_tick (w : PhysicsWorld.t R) (dt : R) :
  Forall atRest (PhysicsWorld.entities w) ->
  PhysicsWorld.detectCollisions w = [] ->
  Forall2 sameButTimer (PhysicsWorld.entities w)
    (PhysicsWorld.entities (PhysicsWorld.update w dt)).
Proof.
  intros Hrest Hd.
  assert (map (PhysicsWorld.integrate_entity dt)
            (map (PhysicsWorld.applyForces_entity dt) (PhysicsWorld.entities w))
          = PhysicsWorld.entities w) as Hsame.
  { rewrite map_map. induction Hrest as [|e l He Hl IH]; [done|].
    cbn [map]. by rewrite atRest_forces_integrate, IH. }
  unfold PhysicsWorld.update. cbv zeta.
  unfold PhysicsWorld.updateSleepState. cbn [PhysicsWorld.entities].
  rewrite subSteps_without_contacts.
  - unfold PhysicsWorld.integrate, PhysicsWorld.applyForces. cbn [PhysicsWorld.entities].
    rewrite Hsame. clear Hsame Hd.
    induction Hrest as [|e l He Hl IH]; cbn [map]; constructor.
    + by apply atRest_sleep.
    + apply IH.
  - unfold PhysicsWorld.detectCollisions, PhysicsWorld.integrate, PhysicsWorld.applyForces
      in *. cbn [PhysicsWorld.entities]. by rewrite Hsame.
Qed.

(** X21. A world in which every body is static, or asleep with zero
    velocity, and in which no contact is detected, stays as it is: after
    any number of ticks every body is what it was, its sleep timer apart. *)
Theorem world_at_rest_stays (w : PhysicsWorld.t R) (dt : R) (k : nat) :
  Forall atRest (PhysicsWorld.entities w) ->
  PhysicsWorld.detectCollisions w = [] ->
  Forall2 sameButTimer (PhysicsWorld.entities w)
    (PhysicsWorld.entities (Nat.iter k (fun w => PhysicsWorld.update w dt) w)).
Proof.
  intros Hrest Hd. induction k as [|k IH].
  - apply Forall_Forall2_diag, Forall_forall. intros e _. apply sameButTimer_refl.
  - rewrite Nat.iter_succ. set (wk := Nat.iter k _ w) in *.
    eapply Forall2_trans; [apply sameButTimer_trans | exact IH |].
    apply rest_tick.
    + clear Hd. revert Hrest. induction IH as [|e e' l l' He Hl IHl]; [done|].
      intros Hr. apply Forall_cons in Hr as [Hre Hrl]. constructor; [|by apply IHl].
      by eapply atRest_sameButTimer.
    + unfold PhysicsWorld.detectCollisions in *. by rewrite (detectOuter_sameButTimer _ _ _ IH).
Qed.

End Rest.


(** ** The direction of the contact normal *)

Section Orientation.
Local Open Scope R_scope.

Lemma clamp_product (v h : R) :
  0 <= h -> 0 <= (v - Rmax (- h) (Rmin v h)) * Rmax (- h) (Rmin v h).
Proof. intros Hh. unfold Rmax, Rmin. repeat destruct (Rle_dec _ _); nra. Qed.

Lemma clamp_outside (v h : R) :
  0 <= h -> h < Rabs v -> v - Rmax (- h) (Rmin v h) <> 0.
Proof.
  intros Hh. unfold Rabs, Rmax, Rmin. destruct (Rcase_abs v); repeat destruct (Rle_dec _ _); lra.
Qed.

Lemma dot_div (v u : Vec2.t R) (d : R) :
  0 < d -> Vec2.dot (Vec2.div v d) u = Vec2.dot v u / d.
Proof.
  intros Hd. destruct v as [vx vy], u as [ux uy]. unfold Vec2.div, Vec2.dot. js_real.
  rewrite Reqb_false by lra. cbn [negb Vec2.x Vec2.y]. field. lra.
Qed.

Lemma dot_normalize_nonneg (v : Vec2.t R) : 0 <= Vec2.dot (Vec2.normalize v) v.
Proof.
  unfold Vec2.normalize. cbv zeta. js_real. unfold Rltb.
  destruct (Rlt_dec 0 (Vec2.len v)) as [Hpos|Hzero].
  - rewrite dot_div by done. apply Rle_mult_inv_pos; [apply lenSq_nonneg | done].
  - unfold Vec2.dot. js_real. lra.
Qed.

Lemma dot_mul_minus_one (n u : Vec2.t R) :
  Vec2.dot (Vec2.mul n (-1)) u = - Vec2.dot n u.
Proof. destruct n, u. unfold Vec2.dot, Vec2.mul. js_real. ring. Qed.

Lemma dot_sub_swap (n p q : Vec2.t R) :
  Vec2.dot n (Vec2.sub p q) = - Vec2.dot n (Vec2.sub q p).
Proof. destruct n, p, q. unfold Vec2.dot, Vec2.sub. js_real. ring. Qed.

(** The normal [checkCircleAABB] returns points from the box to the circle. *)
Lemma checkCircleAABB_towards_circle (icircle iaabb : nat) (circle aabb : Entity.t R)
    (c : PhysicsWorld.Contact R) :
  sizedBox aabb ->
  PhysicsWorld.checkCircleAABB icircle circle iaabb aabb = Some c ->
  PhysicsWorld.a c = icircle /\ PhysicsWorld.b c = iaabb /\
  0 <= Vec2.dot (PhysicsWorld.normal c)
         (Vec2.sub (Entity.position circle) (Entity.position aabb)) /\
  (centreOutside circle aabb ->
   0 < Vec2.dot (PhysicsWorld.normal c)
         (Vec2.sub (Entity.position circle) (Entity.position aabb)) /\
   Vec2.lenSq (PhysicsWorld.normal c) = 1).
Proof.
  unfold sizedBox, centreOutside, PhysicsWorld.checkCircleAABB.
  destruct (Entity.collisionShape circle) as [radius| |]; try done.
  destruct (Entity.collisionShape aabb) as [|width height|]; try done.
  intros [Hw Hh]. cbv zeta. js_real.
  remember (Vec2.sub (Entity.position circle) (Entity.position aabb)) as vec eqn:Hvec.
  destruct vec as [vx vy]. js_real.
  pose proof (clamp_product vx (width / 2) ltac:(lra)) as Hx.
  pose proof (clamp_product vy (height / 2) ltac:(lra)) as Hy.
  pose proof (clamp_outside vx (width / 2) ltac:(lra)) as Ox.
  pose proof (clamp_outside vy (height / 2) ltac:(lra)) as Oy.
  set (cx := Rmax (- (width / 2)) (Rmin vx (width / 2))) in *.
  set (cy := Rmax (- (height / 2)) (Rmin vy (height / 2))) in *.
  clearbody cx cy.
  remember (Vec2.sub (Vec2.new vx vy) (Vec2.new cx cy)) as delta eqn:Hdelta.
  assert (Vec2.dot delta (Vec2.new vx vy) = Vec2.lenSq delta
            + ((vx - cx) * cx + (vy - cy) * cy)) as Hdot.
  { subst delta. unfold Vec2.dot, Vec2.lenSq, Vec2.sub, Vec2.dot. js_real. ring. }
  assert (centreOutsideHere : width / 2 < Rabs vx \/ height / 2 < Rabs vy ->
                              0 < Vec2.lenSq delta).
  { intros Hout. subst delta. unfold Vec2.lenSq, Vec2.dot, Vec2.sub. js_real.
    destruct Hout as [Hout|Hout];
      [pose proof (Rsqr_pos_lt _ (Ox Hout)) as Hsq
      | pose proof (Rsqr_pos_lt _ (Oy Hout)) as Hsq];
      pose proof (Rle_0_sqr (vx - cx)) as Hsx; pose proof (Rle_0_sqr (vy - cy)) as Hsy;
      unfold Rsqr in Hsq, Hsx, Hsy; lra. }
  destruct (Rltb (Vec2.lenSq delta) (radius * radius)); [|done].
  intros [= <-]. cbn [PhysicsWorld.a PhysicsWorld.b PhysicsWorld.normal].
  split; [done|]. split; [done|].
  change (Vec2.x delta * Vec2.x delta + Vec2.y delta * Vec2.y delta)
    with (Vec2.lenSq delta).
  unfold Rltb. destruct (Rlt_dec 0 (sqrt (Vec2.lenSq delta))) as [Hpos|Hzero].
  - rewrite dot_div by done. rewrite Hdot.
    assert (0 < Vec2.lenSq delta) as Hsq.
    { destruct (lenSq_nonneg delta) as [Hlt|Heq]; [done|].
      rewrite <- Heq, sqrt_0 in Hpos. lra. }
    assert (0 < (Vec2.lenSq delta + ((vx - cx) * cx + (vy - cy) * cy))
                / sqrt (Vec2.lenSq delta)) as Hq
      by (apply Rdiv_lt_0_compat; lra).
    split; [lra | intros _; split; [exact Hq | by apply div_len_unit]].
  - split; [apply dot_normalize_nonneg|].
    intros Hout. exfalso. apply Hzero, sqrt_lt_R0. by apply centreOutsideHere.
Qed.

(** X22. The contact of two circles, of two boxes, and of a box followed
    by a circle has a normal that points from its body [a] to its body
    [b]: the vector from the position of [a] to the position of [b] has a
    component along the normal that is not negative. *)
Theorem contact_normal_from_a_to_b (ia ib : nat) (ea eb : Entity.t R)
    (c : PhysicsWorld.Contact R) :
  ia <> ib -> sizedBox ea -> sizedBox eb ->
  circleThenBox ea eb = false ->
  PhysicsWorld.checkCollision ia ea ib eb = Some c ->
  0 <= alongNormal ia ea ib eb c.
Proof.
  intros Hne Ba Bb Hshape. unfold alongNormal, bodyAt, PhysicsWorld.checkCollision.
  assert ((ib =? ia)%nat = false) as Hba by (apply Nat.eqb_neq; lia).
  unfold circleThenBox in Hshape.
  destruct (Entity.collisionShape ea) as [ra|wa ha|] eqn:Sa;
    destruct (Entity.collisionShape eb) as [rb|wb hb|] eqn:Sb; try done.
  - unfold PhysicsWorld.checkCircleCircle. rewrite Sa, Sb. cbv zeta. js_real.
    remember (Vec2.sub (Entity.position eb) (Entity.position ea)) as distVec eqn:Hdv.
    destruct (Rltb _ _); [|done]. intros [= <-].
    cbn [PhysicsWorld.a PhysicsWorld.b PhysicsWorld.normal].
    rewrite Nat.eqb_refl, Hba, <- Hdv.
    change (Vec2.x distVec * Vec2.x distVec + Vec2.y distVec * Vec2.y distVec)
      with (Vec2.lenSq distVec).
    unfold Rltb.
    destruct (Rlt_dec 0 (sqrt (Vec2.lenSq distVec))) as [Hpos|Hzero].
    + rewrite dot_div by done. apply Rle_mult_inv_pos; [apply lenSq_nonneg | done].
    + assert (Vec2.lenSq distVec = 0) as Hz.
      { destruct (lenSq_nonneg distVec) as [Hlt|Heq]; [|done].
        exfalso. apply Hzero. by apply sqrt_lt_R0. }
      rewrite (lenSq_zero _ Hz). unfold Vec2.dot. js_real. lra.
  - destruct (PhysicsWorld.checkCircleAABB ib eb ia ea) as [result|] eqn:Hr; [|done].
    intros [= <-]. cbn [PhysicsWorld.a PhysicsWorld.b PhysicsWorld.normal].
    destruct (checkCircleAABB_towards_circle ib ia eb ea result Ba Hr)
      as (-> & -> & Hdot & _).
    rewrite Nat.eqb_refl, Hba. js_real.
    rewrite dot_mul_minus_one, (dot_sub_swap _ (Entity.position ea)). lra.
  - unfold PhysicsWorld.checkAABBAABB. rewrite Sa, Sb. cbv zeta. js_real.
    remember (Vec2.sub (Entity.position eb) (Entity.position ea)) as vec eqn:Hvec.
    destruct vec as [vx vy]. js_real.
    destruct (_ && _); [|done].
    destruct (Rltb _ _); intros [= <-];
      cbn [PhysicsWorld.a PhysicsWorld.b PhysicsWorld.normal];
      rewrite Nat.eqb_refl, Hba, <- Hvec; unfold Vec2.dot, Rltb; js_real;
      destruct (Rlt_dec _ 0); lra.
Qed.

(** X23. The contact of a circle followed by a box is the other way
    round: its body [a] is the circle, its body [b] the box, and its
    normal points from the box to the circle, so from [b] to [a]; strictly
    so when the centre of the circle is outside the box. *)
Theorem circle_then_box_normal_from_b_to_a (ia ib : nat) (ea eb : Entity.t R)
    (c : PhysicsWorld.Contact R) :
  ia <> ib -> sizedBox eb ->
  circleThenBox ea eb = true ->
  PhysicsWorld.checkCollision ia ea ib eb = Some c ->
  PhysicsWorld.a c = ia /\ PhysicsWorld.b c = ib /\
  alongNormal ia ea ib eb c <= 0 /\
  (centreOutside ea eb -> alongNormal ia ea ib eb c < 0).
Proof.
  intros Hne Bb Hshape. unfold alongNormal, bodyAt, PhysicsWorld.checkCollision.
  assert ((ib =? ia)%nat = false) as Hba by (apply Nat.eqb_neq; lia).
  unfold circleThenBox in Hshape.
  destruct (Entity.collisionShape ea) as [ra|wa ha|] eqn:Sa;
    destruct (Entity.collisionShape eb) as [rb|wb hb|] eqn:Sb; try done.
  intros Hc.
  destruct (checkCircleAABB_towards_circle ia ib ea eb c Bb Hc) as (-> & -> & Hdot & Hout).
  rewrite Nat.eqb_refl, Hba. rewrite (dot_sub_swap _ (Entity.position eb)).
  split; [done|]. split; [done|]. split; [lra|].
  intros Ho. destruct (Hout Ho) as [Hlt _]. lra.
Qed.

(** X29. What the resolution does with the contact of a circle followed
    by a box, the centre of the circle outside the box: the circle lies on
    the side of the box the normal points to; the positional correction
    lowers the distance of the circle from the box along the normal by
    [0.8 * max(penetration - 0.1, 0)], so it moves the two toward each
    other; and when the circle moves toward the box, against the normal,
    no impulse is applied: both bodies keep their velocities. *)
Theorem circle_then_box_resolution_closes_in (ia ib : nat) (ea eb : Entity.t R)
    (c : PhysicsWorld.Contact R) :
  sizedBox eb -> circleThenBox ea eb = true -> centreOutside ea eb ->
  dynamicBody ea -> dynamicBody eb \/ fixedBody eb ->
  PhysicsWorld.checkCollision ia ea ib eb = Some c ->
  let normal := PhysicsWorld.normal c in
  let penetration := PhysicsWorld.penetration c in
  let result := PhysicsWorld.resolvePair ea eb normal penetration in
  0 < Vec2.dot normal (Vec2.sub (Entity.position ea) (Entity.position eb)) /\
  Vec2.dot normal (Vec2.sub (Entity.position result.1) (Entity.position result.2))
  = Vec2.dot normal (Vec2.sub (Entity.position ea) (Entity.position eb))
    - 8 / 10 * Rmax (penetration - 1 / 10) 0 /\
  (Vec2.dot normal (Vec2.sub (Entity.velocity ea) (Entity.velocity eb)) < 0 ->
   Entity.velocity result.1 = Entity.velocity ea /\
   Entity.velocity result.2 = Entity.velocity eb).
Proof.
  intros Bb Hshape Hout Ha Hb Hc. cbv zeta.
  assert (PhysicsWorld.checkCircleAABB ia ea ib eb = Some c) as Hcc.
  { revert Hc. unfold PhysicsWorld.checkCollision, circleThenBox in *.
    destruct (Entity.collisionShape ea); try done.
    by destruct (Entity.collisionShape eb). }
  destruct (checkCircleAABB_towards_circle ia ib ea eb c Bb Hcc) as (_ & _ & _ & Hside).
  destruct (Hside Hout) as [Hpos Hunit]. split; [exact Hpos|].
  destruct (resolvePair_motion ea eb (PhysicsWorld.normal c) (PhysicsWorld.penetration c)
              (or_introl Ha) Hb (or_introl Ha)) as (Htotal & -> & -> & -> & ->).
  set (M := Rmax (PhysicsWorld.penetration c - 1 / 10) 0). clearbody M.
  set (ia' := inverseMass ea) in *. set (ib' := inverseMass eb) in *. clearbody ia' ib'.
  destruct (PhysicsWorld.normal c) as [nx ny].
  assert (nx * nx + ny * ny = 1) as Hn.
  { revert Hunit. unfold Vec2.lenSq, Vec2.dot. by js_real. }
  split.
  - destruct (Entity.position ea) as [ax ay], (Entity.position eb) as [bx by'].
    unfold Vec2.dot, Vec2.sub, Vec2.add, Vec2.mul. js_real.
    set (k := M / (ia' + ib') * (8 / 10)).
    assert (k * (ia' + ib') = 8 / 10 * M) as Hk by (subst k; field; lra).
    clearbody k.
    transitivity (nx * (ax - bx) + ny * (ay - by') - k * (ia' + ib') * (nx * nx + ny * ny));
      [ring|]. rewrite Hk, Hn. ring.
  - intros Happroach.
    assert (0 < Vec2.dot (Vec2.sub (Entity.velocity eb) (Entity.velocity ea))
                  {| Vec2.x := nx; Vec2.y := ny |}) as Hsep.
    { revert Happroach.
      destruct (Entity.velocity ea) as [ax ay], (Entity.velocity eb) as [bx by'].
      unfold Vec2.dot, Vec2.sub. js_real. lra. }
    by destruct (Rlt_dec 0 _).
Qed.

Lemma lenSq_sub_swap (p q : Vec2.t R) :
  Vec2.lenSq (Vec2.sub p q) = Vec2.lenSq (Vec2.sub q p).
Proof. destruct p, q. unfold Vec2.lenSq, Vec2.dot, Vec2.sub. js_real. ring. Qed.

(** X24. Detection does not depend on the order of the two bodies:
    [checkCollision] finds a contact for [(ea, eb)] exactly when it finds
    one for [(eb, ea)], and with the same penetration. *)
Theorem checkCollision_order (ia ib : nat) (ea eb : Entity.t R) :
  match PhysicsWorld.checkCollision ia ea ib eb,
        PhysicsWorld.checkCollision ib eb ia ea with
  | Some c, Some c' => PhysicsWorld.penetration c = PhysicsWorld.penetration c'
  | None, None => True
  | _, _ => False
  end.
Proof.
  unfold PhysicsWorld.checkCollision.
  destruct (Entity.collisionShape ea) as [ra|wa ha|] eqn:Sa;
    destruct (Entity.collisionShape eb) as [rb|wb hb|] eqn:Sb; try done.
  - unfold PhysicsWorld.checkCircleCircle. rewrite Sa, Sb. cbv zeta. js_real.
    rewrite (lenSq_sub_swap (Entity.position ea) (Entity.position eb)).
    rewrite (Rplus_comm rb ra).
    destruct (Rltb _ _); [|done]. cbn [PhysicsWorld.penetration]. done.
  - by destruct (PhysicsWorld.checkCircleAABB ia ea ib eb).
  - by destruct (PhysicsWorld.checkCircleAABB ib eb ia ea).
  - unfold PhysicsWorld.checkAABBAABB. rewrite Sa, Sb. cbv zeta. js_real.
    assert (forall p q : Vec2.t R,
              Rabs (Vec2.x (Vec2.sub p q)) = Rabs (Vec2.x (Vec2.sub q p)) /\
              Rabs (Vec2.y (Vec2.sub p q)) = Rabs (Vec2.y (Vec2.sub q p))) as Habs.
    { intros [px py] [qx qy]. unfold Vec2.sub. js_real.
      split; rewrite <- Rabs_Ropp; f_equal; ring. }
    destruct (Habs (Entity.position ea) (Entity.position eb)) as [-> ->].
    rewrite (Rplus_comm (wb / 2) (wa / 2)), (Rplus_comm (hb / 2) (ha / 2)).
    destruct (_ && _); [|done]. by destruct (Rltb _ _).
Qed.

End Orientation.


(** ** Aiming and launching *)

Section Aim.
Local Open Scope R_scope.

Lemma normalize_lenSq (v : Vec2.t R) :
  0 < Vec2.len v -> Vec2.lenSq (Vec2.normalize v) = 1.
Proof.
  intros Hpos. unfold Vec2.normalize. cbv zeta. js_real. rewrite Rltb_true by done.
  by apply div_len_unit.
Qed.

Lemma lenSq_mul (v : Vec2.t R) (s : R) :
  Vec2.lenSq (Vec2.mul v s) = s * s * Vec2.lenSq v.
Proof. destruct v. unfold Vec2.lenSq, Vec2.dot, Vec2.mul. js_real. ring. Qed.

Lemma add_sub_cancel (p q : Vec2.t R) : Vec2.sub (Vec2.add p q) p = q.
Proof. destruct p, q. unfold Vec2.sub, Vec2.add. js_real. f_equal; ring. Qed.

(** X25. [updateAim] never lets the bird it holds get farther from the
    front anchor than [elasticLength]: it puts the bird where the drag
    asks when that is within reach, and changes nothing else of the bird;
    it records the pointer position. *)
Theorem updateAim_within_elastic (this : Slingshot.t R) (store : list (Entity.t R))
    (pointerPos dragStart : Vec2.t R) (r : nat) (e : Entity.t R) :
  Slingshot.aimingBird this = Some r -> store !! r = Some e ->
  Slingshot.dragStartPos this = Some dragStart ->
  0 <= Slingshot.elasticLength this ->
  let this' := (Slingshot.updateAim this store pointerPos).1 in
  let store' := (Slingshot.updateAim this store pointerPos).2 in
  let wanted :=
    Vec2.add (Slingshot.getLaunchOrigin this) (Vec2.sub pointerPos dragStart) in
  Slingshot.dragCurrentPos this' = Some pointerPos /\
  exists position',
    store' = <[r := Entity.set_position e position']> store /\
    Vec2.len (Vec2.sub position' (Slingshot.anchorFrontPos this))
    <= Slingshot.elasticLength this /\
    (Vec2.len (Vec2.sub wanted (Slingshot.anchorFrontPos this))
     <= Slingshot.elasticLength this -> position' = wanted).
Proof.
  intros Hr He Hd HL. cbv zeta. unfold Slingshot.updateAim, Slingshot.held.
  rewrite Hr, He, Hd. cbv zeta. cbn [fst snd Slingshot.dragCurrentPos].
  split; [done|].
  change (Slingshot.anchorFrontPos (Slingshot.mk _ _ _ _ _ _ _ _))
    with (Slingshot.anchorFrontPos this).
  cbn [Slingshot.elasticLength]. unfold Slingshot.getLaunchOrigin. js_real.
  set (anchor := Slingshot.anchorFrontPos this).
  set (L := Slingshot.elasticLength this) in *.
  set (wanted := Vec2.add (Vec2.add anchor _) (Vec2.sub pointerPos dragStart)).
  unfold Rltb.
  destruct (Rlt_dec L (Vec2.len (Vec2.sub wanted anchor))) as [Hfar|Hnear].
  - eexists. split; [reflexivity|]. split; [|lra].
    rewrite add_sub_cancel. unfold Vec2.len at 1. js_real.
    rewrite lenSq_mul, normalize_lenSq by lra.
    rewrite Rmult_1_r, sqrt_square by done. lra.
  - eexists. split; [reflexivity|]. split; [lra|done].
Qed.

(** X26. [startAim] on a slingshot that holds a bird succeeds exactly when
    the pointer is closer to the centre of the bird than one and a half
    times its radius; it then records the pointer position as the start of
    the drag, and otherwise leaves the slingshot as it is. *)
Theorem startAim_iff_pointer_near (this : Slingshot.t R) (store : list (Entity.t R))
    (pointerPos : Vec2.t R) (e : Entity.t R) (radius : R) :
  Slingshot.held this store = Some e ->
  Entity.collisionShape e = Circle radius -> 0 <= radius ->
  let near := Vec2.len (Vec2.sub pointerPos (Entity.position e)) < radius * (15 / 10) in
  let result := Slingshot.startAim this store pointerPos in
  (result.1 = true <-> near) /\
  (near -> Slingshot.dragStartPos result.2 = Some pointerPos /\
           Slingshot.aimingBird result.2 = Slingshot.aimingBird this) /\
  (~ near -> result.2 = this).
Proof.
  intros Hheld Hshape Hr. cbv zeta. unfold Slingshot.startAim.
  rewrite Hheld, Hshape. cbv zeta. unfold dec, Vec2.len. js_real.
  set (distSq := Vec2.lenSq _).
  pose proof (sqrt_lt_iff distSq (radius * (15 / 10)) (lenSq_nonneg _) ltac:(lra)) as Hiff.
  unfold Rltb. destruct (Rlt_dec distSq _) as [Hlt|Hge]; cbn [fst snd].
  - split; [tauto|]. split; [done|]. intros Hn. tauto.
  - split; [split; [done | tauto]|]. split; [tauto | done].
Qed.

(** X27. The boost of [launch] makes up for the friction of the first
    tick: a bird that is aiming, launched with [forceVector], has after
    the forces of its first tick the velocity [forceVector * LAUNCH_POWER]
    plus the gravity of one tick times [FRICTION]; [launch] leaves it
    flying, awake and where it was. *)
Theorem launch_first_tick_velocity (this : Entity.t R) (forceVector : Vec2.t R) :
  Entity.state this = Some Aiming ->
  Entity.isStatic this = false -> 0 < Entity.mass this ->
  let launched := Bird.launch this forceVector in
  Entity.velocity (PhysicsWorld.applyForces_entity TIME_STEP launched)
  = Vec2.add (Vec2.mul forceVector Bird.LAUNCH_POWER)
             (Vec2.new 0 (GRAVITY * TIME_STEP * FRICTION)) /\
  Entity.state launched = Some Flying /\
  Entity.isSleeping launched = false /\
  Entity.position launched = Entity.position this.
Proof.
  intros Hstate Hs Hm. cbv zeta. unfold Bird.launch. rewrite Hstate. cbv zeta.
  split; [|done].
  unfold PhysicsWorld.applyForces_entity, Entity.wake.
  cbn [Entity.isStatic Entity.isSleeping Entity.mass Entity.velocity
       Entity.set_sleepTimer Entity.set_isSleeping Entity.set_state Entity.set_velocity].
  rewrite Hs. cbn [orb]. js_real. rewrite Rltb_true by done.
  cbn [Entity.velocity Entity.set_velocity].
  destruct forceVector as [fx fy].
  unfold Vec2.add, Vec2.mul, Bird.LAUNCH_POWER, FRICTION, GRAVITY, GRAVITY_ACCEL,
    pixelsPerMeter, TIME_STEP, dec. js_real.
  f_equal; field.
Qed.

(** X28. The guide and the launch do not start alike.  When a release
    launches the bird with the raw vector [raw] (from the bird to the front
    anchor), [render] has fed the predictor the start position
    [getLaunchOrigin], which is [raw + (0, -BIRD_RADIUS)] away from where
    the bird is, and the start velocity [raw * LAUNCH_POWER]; after the
    forces of the first tick the bird is faster than the predictor by
    [raw * LAUNCH_POWER * (1 - FRICTION)]. *)
Theorem guide_differs_from_launch (this : Slingshot.t R) (store : list (Entity.t R))
    (dragStart : Vec2.t R) (r : nat) (e : Entity.t R) :
  Slingshot.aimingBird this = Some r -> store !! r = Some e ->
  Slingshot.dragStartPos this = Some dragStart ->
  Entity.state e = Some Aiming -> Entity.isStatic e = false -> 0 < Entity.mass e ->
  let raw := Slingshot.getLaunchVelocity this store in
  0 < Vec2.lenSq raw ->
  exists start scaled,
    Render.guideStart this store = Some (start, scaled) /\
    Slingshot.endAim this store
    = (true, Slingshot.released this, <[r := Bird.launch e raw]> store) /\
    Vec2.sub start (Entity.position (Bird.launch e raw))
    = Vec2.add raw (Vec2.new 0 (- Bird.BIRD_RADIUS)) /\
    Entity.velocity (PhysicsWorld.applyForces_entity TIME_STEP (Bird.launch e raw))
    = Vec2.add (flightStep (start, scaled)).2
               (Vec2.mul raw (Bird.LAUNCH_POWER * (1 - FRICTION))).
Proof.
  intros Hr He Hd Hstate Hs Hm raw Hraw.
  exists (Slingshot.getLaunchOrigin this), (Vec2.mul raw Bird.LAUNCH_POWER).
  assert (Slingshot.held this store = Some e) as Hheld.
  { unfold Slingshot.held. by rewrite Hr. }
  split; [|split; [|split]].
  - unfold Render.guideStart. cbv zeta. fold raw. js_real. by rewrite Rltb_true.
  - unfold Slingshot.endAim. rewrite Hr, Hheld, Hd. cbv zeta. fold raw. js_real.
    by rewrite Rltb_true.
  - assert (Entity.position (Bird.launch e raw) = Entity.position e) as ->.
    { unfold Bird.launch. by rewrite Hstate. }
    assert (raw = Vec2.sub (Slingshot.anchorFrontPos this) (Entity.position e)) as ->.
    { subst raw. unfold Slingshot.getLaunchVelocity. by rewrite Hheld, Hd. }
    unfold Slingshot.getLaunchOrigin.
    destruct (Slingshot.anchorFrontPos this) as [ax ay], (Entity.position e) as [px py].
    unfold Vec2.sub, Vec2.add. js_real. f_equal; ring.
  - clearbody raw. unfold Bird.launch. rewrite Hstate. cbv zeta.
    unfold PhysicsWorld.applyForces_entity, Entity.wake, flightStep.
    cbn [Entity.isStatic Entity.isSleeping Entity.mass Entity.velocity
         Entity.set_sleepTimer Entity.set_isSleeping Entity.set_state Entity.set_velocity
         fst snd].
    rewrite Hs. cbn [orb]. js_real. rewrite Rltb_true by done.
    cbn [Entity.velocity Entity.set_velocity].
    destruct raw as [fx fy].
    unfold Vec2.add, Vec2.mul, Bird.LAUNCH_POWER, FRICTION, GRAVITY, GRAVITY_ACCEL,
      pixelsPerMeter, TIME_STEP, dec. js_real.
    f_equal; field.
Qed.

End Aim.


(** * Further instances *)

Section MoreWitnesses.

(** X2 at the contact of the two closing birds. *)
Lemma contact_bodies_witness :
  In closingContact (PhysicsWorld.detectCollisions closingBirds) /\
  PhysicsWorld.a closingContact <> PhysicsWorld.b closingContact /\
  exists ea eb,
    PhysicsWorld.entities closingBirds !! PhysicsWorld.a closingContact = Some ea /\
    PhysicsWorld.entities closingBirds !! PhysicsWorld.b closingContact = Some eb /\
    Entity.isStatic ea && Entity.isStatic eb = false /\
    Entity.isSleeping ea && Entity.isSleeping eb = false /\
    Entity.collisionShape ea <> NoShape /\ Entity.collisionShape eb <> NoShape.
Proof.
  assert (In closingContact (PhysicsWorld.detectCollisions closingBirds)) as Hin
    by (vm_compute; left; reflexivity).
  split; [exact Hin|]. exact (contact_bodies closingBirds closingContact Hin).
Defined.

(** X3 at the two closing birds and their contact. *)
Lemma resolveCollision_touches_its_two_bodies_witness :
  let entities := PhysicsWorld.entities closingBirds in
  let entities' := PhysicsWorld.resolveCollision entities closingContact in
  length entities' = length entities /\
  (forall idx, idx <> 0%nat -> idx <> 1%nat -> entities' !! idx = entities !! idx) /\
  (exists ea', entities' !! 0%nat = Some ea' /\ Entity.isSleeping ea' = false) /\
  (exists eb', entities' !! 1%nat = Some eb' /\ Entity.isSleeping eb' = false).
Proof.
  exact (resolveCollision_touches_its_two_bodies (PhysicsWorld.entities closingBirds)
           closingContact _ _ eq_refl eq_refl).
Defined.

(** X5 at a bird that flies well above the ground block. *)
Lemma update_without_contacts_witness :
  PhysicsWorld.entities (PhysicsWorld.update birdOverGround TIME_STEP)
  = map (freeTick TIME_STEP) (PhysicsWorld.entities birdOverGround).
Proof.
  apply (update_without_contacts birdOverGround TIME_STEP). vm_compute. reflexivity.
Defined.

(** X6 at the array [[0; 1; 2]] and its element 1. *)
Lemma entity_array_without_duplicates_witness :
  NoDup (EntityArray.addEntity [0; 1; 2]%nat (Some 1%nat)) /\
  (1%nat ∈ EntityArray.addEntity [0; 1; 2]%nat (Some 1%nat)) /\
  NoDup (EntityArray.removeEntity [0; 1; 2]%nat 1%nat) /\
  (1%nat ∉ EntityArray.removeEntity [0; 1; 2]%nat 1%nat) /\
  (forall other, other <> 1%nat ->
     ((other ∈ EntityArray.removeEntity [0; 1; 2]%nat 1%nat)
      <-> (other ∈ [0; 1; 2]%nat))).
Proof.
  apply (entity_array_without_duplicates [0; 1; 2]%nat 1%nat).
  apply (bool_decide_unpack _). vm_compute. reflexivity.
Defined.

(** X7 at the array [[0; 1; 2]] and the new entity 3. *)
Lemma add_then_remove_entity_witness :
  EntityArray.removeEntity (EntityArray.addEntity [0; 1; 2]%nat (Some 3%nat)) 3%nat
  = [0; 1; 2]%nat /\
  EntityArray.addEntity (EntityArray.addEntity [0; 1; 2]%nat (Some 3%nat)) (Some 3%nat)
  = EntityArray.addEntity [0; 1; 2]%nat (Some 3%nat) /\
  EntityArray.removeEntity [0; 1; 2]%nat 3%nat = [0; 1; 2]%nat /\
  EntityArray.addEntity [0; 1; 2]%nat None = [0; 1; 2]%nat.
Proof.
  apply (add_then_remove_entity [0; 1; 2]%nat 3%nat).
  apply (bool_decide_unpack _). vm_compute. reflexivity.
Defined.

(** X11 at the first point of a guide of 6 steps. *)
Lemma simulateTrajectory_points_witness :
  let startPos := Vec2.new 160%float 555%float in
  let startVel := Vec2.new 300%float (-400)%float in
  In startPos (Main.simulateTrajectory 1280%float 720%float startPos startVel 6) /\
  exists n,
    startPos = flightPos startPos startVel n \/
    startPos = Vec2.new (Vec2.x (flightPos startPos startVel n)) (720 - 50)%float.
Proof.
  cbv zeta.
  assert (In (Vec2.new 160%float 555%float)
            (Main.simulateTrajectory 1280%float 720%float (Vec2.new 160%float 555%float)
               (Vec2.new 300%float (-400)%float) 6)) as Hin
    by (vm_compute; left; reflexivity).
  split; [exact Hin|].
  exact (simulateTrajectory_points 1280%float 720%float _ _ 6 _ Hin).
Defined.

(** X13 at two 2 x 2 boxes with centres [(0, 0)] and [(5, 0)]. *)
Lemma aabb_separated_no_contact_witness :
  PhysicsWorld.checkCollision 0 (box 0 0 2 2) 1 (box 5 0 2 2) = None.
Proof.
  assert (Rabs (5 - 0) = 5)%R as Habs by (rewrite Rabs_pos_eq; lra).
  apply (aabb_separated_no_contact 0 1 (box 0 0 2 2) (box 5 0 2 2) 2 2 2 2);
    [reflexivity | reflexivity |].
  left. cbn. rewrite Habs. lra.
Defined.

(** X14 at the thresholds of the first level and the scores 1500, 8000. *)
Lemma calculateStars_monotone_witness :
  (Ui.calculateStars 1500%R (Some starThresholds)
   <= Ui.calculateStars 8000%R (Some starThresholds))%nat /\
  (Ui.calculateStars 8000%R (Some starThresholds) <= 3)%nat /\
  Ui.calculateStars 1500%R None = 0%nat.
Proof. apply (calculateStars_monotone (Some starThresholds) 1500%R 8000%R). lra. Defined.

(** X16 at a ball of velocity [(1, 0)], after 60 calls. *)
Lemma sleeps_after_sixty_slow_ticks_witness :
  let e := ball 0 0 1 0 5 in
  let e' := Nat.iter 60 (PhysicsWorld.updateSleepState_entity TIME_STEP) e in
  ((60 < 60)%nat -> Entity.isSleeping e' = false /\ Entity.velocity e' = Entity.velocity e) /\
  ((60 <= 60)%nat -> Entity.isSleeping e' = true /\ Entity.velocity e' = Vec2.zero).
Proof.
  apply (sleeps_after_sixty_slow_ticks (ball 0 0 1 0 5) 60);
    [reflexivity | reflexivity | reflexivity | reflexivity |].
  unfold Vec2.lenSq, Vec2.dot, MIN_VELOCITY_FOR_SLEEP. cbn. lra.
Defined.

(** X17 at a ball of mass 5 that overlaps the ground block by 5. *)
Lemma positional_correction_opens_gap_witness :
  let ea := ball 100 660 0 50 5 in
  let result := PhysicsWorld.resolvePair ea solidGround (Vec2.new 0%R 1%R) 5%R in
  Vec2.sub (Entity.position result.2) (Entity.position result.1)
  = Vec2.add (Vec2.sub (Entity.position solidGround) (Entity.position ea))
      (Vec2.mul (Vec2.new 0%R 1%R) (8 / 10 * Rmax (5 - 1 / 10) 0))%R.
Proof.
  apply (positional_correction_opens_gap (ball 100 660 0 50 5) solidGround
           (Vec2.new 0%R 1%R) 5%R).
  - left. split; [reflexivity | cbn; lra].
  - right. split; reflexivity.
  - left. split; [reflexivity | cbn; lra].
Defined.

(** X18 at two balls of masses 5 and 2 with the normal [(1, 0)]. *)
Lemma impulse_conserves_momentum_witness :
  let ea := ball 0 0 3 0 5 in
  let eb := ball 15 0 (-2) 0 2 in
  let result := PhysicsWorld.resolvePair ea eb (Vec2.new 1%R 0%R) 5%R in
  Vec2.add (Vec2.mul (Entity.velocity result.1) 5%R)
           (Vec2.mul (Entity.velocity result.2) 2%R)
  = Vec2.add (Vec2.mul (Entity.velocity ea) 5%R) (Vec2.mul (Entity.velocity eb) 2%R).
Proof.
  apply (impulse_conserves_momentum (ball 0 0 3 0 5) (ball 15 0 (-2) 0 2)
           (Vec2.new 1%R 0%R) 5%R);
    (split; [reflexivity | cbn; lra]).
Defined.

(** X19 at a ball that falls on the ground block, with the normal [(0, 1)]. *)
Lemma restitution_law_witness :
  let ea := ball 100 660 0 50 5 in
  let normal := Vec2.new 0%R 1%R in
  let result := PhysicsWorld.resolvePair ea solidGround normal 5%R in
  let velAlongNormal :=
    Vec2.dot (Vec2.sub (Entity.velocity solidGround) (Entity.velocity ea)) normal in
  (velAlongNormal <= 0 ->
   Vec2.dot (Vec2.sub (Entity.velocity result.2) (Entity.velocity result.1)) normal
   = - pairRestitution ea solidGround * velAlongNormal)%R /\
  (0 < velAlongNormal ->
   Entity.velocity result.1 = Entity.velocity ea /\
   Entity.velocity result.2 = Entity.velocity solidGround)%R.
Proof.
  apply (restitution_law (ball 100 660 0 50 5) solidGround (Vec2.new 0%R 1%R) 5%R).
  - left. split; [reflexivity | cbn; lra].
  - right. split; reflexivity.
  - left. split; [reflexivity | cbn; lra].
  - unfold Vec2.lenSq, Vec2.dot. cbn. lra.
Defined.

(** X21 at two balls that are asleep, after 3 ticks. *)
Lemma world_at_rest_stays_witness :
  Forall2 sameButTimer (PhysicsWorld.entities restWorld)
    (PhysicsWorld.entities
       (Nat.iter 3 (fun w => PhysicsWorld.update w TIME_STEP) restWorld)).
Proof.
  apply (world_at_rest_stays restWorld TIME_STEP 3).
  - repeat constructor; right; split; reflexivity.
  - reflexivity.
Defined.

(** X22 at two balls of radius 10 with centres [(0, 0)] and [(3, 4)]. *)
Lemma contact_normal_from_a_to_b_witness :
  let ea := ball 0 0 0 0 5 in
  let eb := ball 3 4 0 0 5 in
  exists c,
    PhysicsWorld.checkCollision 0 ea 1 eb = Some c /\
    (0 <= alongNormal 0 ea 1 eb c)%R.
Proof.
  cbv zeta.
  assert (exists c, PhysicsWorld.checkCollision 0 (ball 0 0 0 0 5) 1 (ball 3 4 0 0 5)
                    = Some c) as [c Hc].
  { unfold PhysicsWorld.checkCollision, PhysicsWorld.checkCircleCircle, ball.
    cbn [Entity.collisionShape Entity.position]. cbv zeta. js_real.
    rewrite Rltb_true by (unfold Vec2.lenSq, Vec2.dot, Vec2.sub; cbn; lra).
    eexists. reflexivity. }
  exists c. split; [exact Hc|].
  apply (contact_normal_from_a_to_b 0 1 (ball 0 0 0 0 5) (ball 3 4 0 0 5) c);
    [lia | exact I | exact I | reflexivity | exact Hc].
Defined.

(** X23 at a ball first, then the ground block it overlaps. *)
Lemma circle_then_box_normal_from_b_to_a_witness :
  let ea := ball 100 662 0 50 5 in
  centreOutside ea solidGround /\
  exists c,
    PhysicsWorld.checkCollision 0 ea 1 solidGround = Some c /\
    PhysicsWorld.a c = 0%nat /\ PhysicsWorld.b c = 1%nat /\
    (alongNormal 0 ea 1 solidGround c < 0)%R.
Proof.
  cbv zeta.
  assert (Rabs (662 - (670 + 50 / 2)) = 33)%R as Habs.
  { rewrite Rabs_left; lra. }
  assert (centreOutside (ball 100 662 0 50 5) solidGround) as Hout.
  { unfold centreOutside. cbn. right. rewrite Habs. lra. }
  split; [exact Hout|].
  assert (exists c, PhysicsWorld.checkCollision 0 (ball 100 662 0 50 5) 1 solidGround
                    = Some c) as [c Hc].
  { unfold PhysicsWorld.checkCollision, PhysicsWorld.checkCircleAABB, ball, solidGround,
      Block.create.
    cbn [Entity.collisionShape Entity.position]. cbv zeta. js_real.
    rewrite Rltb_true.
    - eexists. reflexivity.
    - unfold Vec2.lenSq, Vec2.dot, Vec2.sub, Rmax, Rmin. js_real.
      repeat destruct (Rle_dec _ _); lra. }
  exists c. split; [exact Hc|].
  destruct (circle_then_box_normal_from_b_to_a 0 1 (ball 100 662 0 50 5) solidGround c)
    as (Ha & Hb & _ & Hlt);
    [lia | cbn; lra | reflexivity | exact Hc |].
  split; [exact Ha|]. split; [exact Hb|]. exact (Hlt Hout).
Defined.

(** X25 at the slingshot of the levels and a pointer far to the left. *)
Lemma updateAim_within_elastic_witness :
  let pointerPos := Vec2.new (-200)%R 555%R in
  let this' := (Slingshot.updateAim aimedSlingshot [heldBird] pointerPos).1 in
  let store' := (Slingshot.updateAim aimedSlingshot [heldBird] pointerPos).2 in
  let wanted :=
    Vec2.add (Slingshot.getLaunchOrigin aimedSlingshot)
             (Vec2.sub pointerPos (Vec2.new 160%R 555%R)) in
  Slingshot.dragCurrentPos this' = Some pointerPos /\
  exists position',
    store' = <[0%nat := Entity.set_position heldBird position']> [heldBird] /\
    (Vec2.len (Vec2.sub position' (Slingshot.anchorFrontPos aimedSlingshot)) <= 80)%R /\
    ((Vec2.len (Vec2.sub wanted (Slingshot.anchorFrontPos aimedSlingshot)) <= 80)%R ->
     position' = wanted).
Proof.
  apply (updateAim_within_elastic aimedSlingshot [heldBird] (Vec2.new (-200)%R 555%R)
           (Vec2.new 160%R 555%R) 0 heldBird);
    [reflexivity | reflexivity | reflexivity | cbn; lra].
Defined.

(** X26 at the slingshot of the levels and a pointer on the bird. *)
Lemma startAim_iff_pointer_near_witness :
  let pointerPos := Vec2.new 105%R 575%R in
  let near :=
    (Vec2.len (Vec2.sub pointerPos (Entity.position heldBird)) < 20 * (15 / 10))%R in
  let result := Slingshot.startAim aimedSlingshot [heldBird] pointerPos in
  (result.1 = true <-> near) /\
  (near -> Slingshot.dragStartPos result.2 = Some pointerPos /\
           Slingshot.aimingBird result.2 = Slingshot.aimingBird aimedSlingshot) /\
  (~ near -> result.2 = aimedSlingshot).
Proof.
  apply (startAim_iff_pointer_near aimedSlingshot [heldBird] (Vec2.new 105%R 575%R)
           heldBird 20%R);
    [reflexivity | reflexivity | lra].
Defined.

(** X27 at the held bird and the force [(60, 5)]. *)
Lemma launch_first_tick_velocity_witness :
  let launched := Bird.launch heldBird (Vec2.new 60%R 5%R) in
  Entity.velocity (PhysicsWorld.applyForces_entity TIME_STEP launched)
  = Vec2.add (Vec2.mul (Vec2.new 60%R 5%R) Bird.LAUNCH_POWER)
             (Vec2.new 0%R (GRAVITY * TIME_STEP * FRICTION)%js) /\
  Entity.state launched = Some Flying /\
  Entity.isSleeping launched = false /\
  Entity.position launched = Entity.position heldBird.
Proof.
  apply (launch_first_tick_velocity heldBird (Vec2.new 60%R 5%R));
    [reflexivity | reflexivity | cbn; lra].
Defined.

(** X28 at the slingshot of the levels with its bird pulled back. *)
Lemma guide_differs_from_launch_witness :
  let raw := Slingshot.getLaunchVelocity aimedSlingshot [heldBird] in
  exists start scaled,
    Render.guideStart aimedSlingshot [heldBird] = Some (start, scaled) /\
    Slingshot.endAim aimedSlingshot [heldBird]
    = (true, Slingshot.released aimedSlingshot,
       <[0%nat := Bird.launch heldBird raw]> [heldBird]) /\
    Vec2.sub start (Entity.position (Bird.launch heldBird raw))
    = Vec2.add raw (Vec2.new 0%R (- Bird.BIRD_RADIUS)%js) /\
    Entity.velocity (PhysicsWorld.applyForces_entity TIME_STEP (Bird.launch heldBird raw))
    = Vec2.add (flightStep (start, scaled)).2
               (Vec2.mul raw (Bird.LAUNCH_POWER * (1 - FRICTION))%R).
Proof.
  apply (guide_differs_from_launch aimedSlingshot [heldBird] (Vec2.new 160%R 555%R) 0
           heldBird);
    [reflexivity | reflexivity | reflexivity | reflexivity | reflexivity | cbn; lra |].
  unfold Vec2.lenSq, Vec2.dot. cbn. lra.
Defined.

(** X29 at a ball that falls on the ground block it comes before. *)
Lemma circle_then_box_resolution_closes_in_witness :
  let ea := ball 100 662 0 50 5 in
  exists c,
    PhysicsWorld.checkCollision 0 ea 1 solidGround = Some c /\
    let normal := PhysicsWorld.normal c in
    let penetration := PhysicsWorld.penetration c in
    let result := PhysicsWorld.resolvePair ea solidGround normal penetration in
    (0 < Vec2.dot normal (Vec2.sub (Entity.position ea) (Entity.position solidGround)))%R /\
    (Vec2.dot normal (Vec2.sub (Entity.position result.1) (Entity.position result.2))
     = Vec2.dot normal (Vec2.sub (Entity.position ea) (Entity.position solidGround))
       - 8 / 10 * Rmax (penetration - 1 / 10) 0)%R /\
    ((Vec2.dot normal (Vec2.sub (Entity.velocity ea) (Entity.velocity solidGround)) < 0)%R ->
     Entity.velocity result.1 = Entity.velocity ea /\
     Entity.velocity result.2 = Entity.velocity solidGround).
Proof.
  cbv zeta.
  assert (Rabs (662 - (670 + 50 / 2)) = 33)%R as Habs.
  { rewrite Rabs_left; lra. }
  assert (centreOutside (ball 100 662 0 50 5) solidGround) as Hout.
  { unfold centreOutside. cbn. right. rewrite Habs. lra. }
  assert (exists c, PhysicsWorld.checkCollision 0 (ball 100 662 0 50 5) 1 solidGround
                    = Some c) as [c Hc].
  { unfold PhysicsWorld.checkCollision, PhysicsWorld.checkCircleAABB, ball, solidGround,
      Block.create.
    cbn [Entity.collisionShape Entity.position]. cbv zeta. js_real.
    rewrite Rltb_true.
    - eexists. reflexivity.
    - unfold Vec2.lenSq, Vec2.dot, Vec2.sub, Rmax, Rmin. js_real.
      repeat destruct (Rle_dec _ _); lra. }
  exists c. split; [exact Hc|].
  apply (circle_then_box_resolution_closes_in 0 1 (ball 100 662 0 50 5) solidGround c);
    [cbn; lra | reflexivity | exact Hout | split; [reflexivity | cbn; lra]
    | right; split; reflexivity | exact Hc].
Defined.

End MoreWitnesses.
